(** * roster-to-qti-results: a shallow embedding of [src/cli.ts]

    The command line tool reads a roster CSV and a QTI assessment test,
    and writes one QTI 3.0 Results Reporting document per roster row.
    This development embeds the functions of [cli.ts] and states the
    properties of the specification over them.

    Conventions.
    - A JavaScript string is the list of its UTF-16 code units, each a
      number of [N]; [lit] turns an ASCII literal into such a list.
    - A function that throws returns a [result]; every [throw new Error]
      of the source is a constructor of [Error].
    - Node's [fs], [path] and [Date] are an interface, the class [Node],
      over a type of worlds; [MemWorld] is an in-memory instance, with
      [path] as Node has it on POSIX and [Date.parse] as V8 has it.
    - [csv-parse] and the regular expression engine are libraries of the
      run time, modelled here for the options and the pattern the source
      passes to them. *)

From Stdlib Require Import NArith ZArith Ascii String List Lia DecimalString DecimalPos DecimalN.
From stdpp Require Import base option list gmap.

Open Scope N_scope.
Open Scope list_scope.

(** ** JavaScript strings *)

Abbreviation jsstring := (list N).

Fixpoint lit (s : string) : jsstring :=
  match s with
  | EmptyString => []
  | String a s' => N_of_ascii a :: lit s'
  end.

(** The double quote, which a literal cannot hold. *)
Definition dq : jsstring := [34].

(** [a === b] on strings. *)
Definition streq (a b : jsstring) : bool := bool_decide (a = b).
Infix "===" := streq (at level 70, no associativity).

(** WhiteSpace and LineTerminator of ECMAScript: what [String.prototype.trim]
    removes and what [\s] matches. *)
Definition isWhiteSpace (c : N) : bool :=
  (c =? 9) || (c =? 10) || (c =? 11) || (c =? 12) || (c =? 13) || (c =? 32)
  || (c =? 160) || (c =? 5760) || ((8192 <=? c) && (c <=? 8202))
  || (c =? 8232) || (c =? 8233) || (c =? 8239) || (c =? 8287)
  || (c =? 12288) || (c =? 65279).

Fixpoint dropWhile (p : N -> bool) (s : jsstring) : jsstring :=
  match s with
  | [] => []
  | c :: s' => if p c then dropWhile p s' else s
  end.

Fixpoint takeWhile (p : N -> bool) (s : jsstring) : jsstring :=
  match s with
  | [] => []
  | c :: s' => if p c then c :: takeWhile p s' else []
  end.

Definition trimStart (s : jsstring) : jsstring := dropWhile isWhiteSpace s.
Definition trimEnd (s : jsstring) : jsstring := rev (dropWhile isWhiteSpace (rev s)).

(** [s.trim()] *)
Definition trim (s : jsstring) : jsstring := trimEnd (trimStart s).

(** Truthiness of a [string | undefined] value: [undefined] and the empty
    string are falsy. *)
Definition truthy (v : option jsstring) : bool :=
  match v with
  | Some (_ :: _) => true
  | _ => false
  end.

(** [a || b] on [string | undefined]. *)
Definition or_else (a : option jsstring) (b : option jsstring) : option jsstring :=
  if truthy a then a else b.

(** [${n}] for a non-negative integer: its decimal numeral. *)
Definition Number_toString (n : N) : jsstring :=
  lit (NilZero.string_of_uint (N.to_uint n)).

(** [/\d/.test(s)]: some code unit of [s] is one of 0..9. *)
Definition isDigit (c : N) : bool := (48 <=? c) && (c <=? 57).
Definition test_digit (s : jsstring) : bool := existsb isDigit s.

(** [s.replace(/c/g, r)] for a single character [c]. *)
Definition replaceAll (c : N) (r : jsstring) (s : jsstring) : jsstring :=
  flat_map (fun x => if x =? c then r else [x]) s.

(** [lines.join(sep)] *)
Fixpoint join (sep : jsstring) (lines : list jsstring) : jsstring :=
  match lines with
  | [] => []
  | [l] => l
  | l :: ls => l ++ sep ++ join sep ls
  end.

(** [s] with the prefix [p] removed, when [s] starts with [p]. *)
Fixpoint stripPrefix (p s : jsstring) : option jsstring :=
  match p with
  | [] => Some s
  | c :: p' =>
      match s with
      | [] => None
      | d :: s' => if c =? d then stripPrefix p' s' else None
      end
  end.

Definition startsWith (p s : jsstring) : bool :=
  match stripPrefix p s with
  | Some _ => true
  | None => false
  end.

(** ** Errors *)

(** What the operating system may refuse. *)
Inductive SysError := ENOENT | EEXIST | EISDIR | ENOTDIR | EACCES | EIO.

(** One constructor per [throw new Error] of [cli.ts], one for the exit of
    [main] on missing required arguments, one for what [csv-parse] throws and
    one for what [fs] throws. *)
Inductive Error :=
  | UnknownArgument (arg : jsstring)
  | MissingRequiredArguments
  | OutputMustBeNonEmpty
  | RosterCsvEmpty
  | MissingCandidateNumber (row : N)
  | CandidateNumberWithoutDigit
  | MissingCandidateName (row : N)
  | MissingResultId (row : N)
  | DuplicateResultId (resultId : jsstring)
  | NoAssessmentItemRefs
  | EmptyItemIdentifier
  | DuplicateItemIdentifier (itemId : jsstring)
  | MalformedDatestamp
  | OutputFileExists (path : jsstring)
  | MissingRosterRow (resultId : jsstring)
  | CsvParseError (code : jsstring)
  | FsError (e : SysError).

Inductive result (A : Type) :=
  | Ok (a : A)
  | Throw (e : Error).
Arguments Ok {A} a.
Arguments Throw {A} e.

Definition rbind {A B} (r : result A) (k : A -> result B) : result B :=
  match r with
  | Ok a => k a
  | Throw e => Throw e
  end.

(** The text of [error.message], as [main]'s handler prints it. The text of
    an error of [csv-parse] or of the file system is the library's: only the
    code of the former and the kind of the latter are kept. *)
Definition message (e : Error) : jsstring :=
  match e with
  | UnknownArgument arg => lit "Unknown argument: " ++ arg
  | MissingRequiredArguments => lit "Missing required arguments."
  | OutputMustBeNonEmpty => lit "--output must be a non-empty path."
  | RosterCsvEmpty => lit "Roster CSV is empty."
  | MissingCandidateNumber row =>
      lit "Missing candidate_number at row " ++ Number_toString row ++ lit "."
  | CandidateNumberWithoutDigit => lit "candidate_number must include at least one digit"
  | MissingCandidateName row =>
      lit "Missing candidate_name at row " ++ Number_toString row ++ lit "."
  | MissingResultId row =>
      lit "Missing result_id at row " ++ Number_toString row ++ lit "."
  | DuplicateResultId resultId => lit "Duplicate result_id: " ++ resultId
  | NoAssessmentItemRefs => lit "No assessment item refs found in assessment test."
  | EmptyItemIdentifier => lit "Assessment test item identifier is empty."
  | DuplicateItemIdentifier itemId =>
      lit "Duplicate assessment test item identifier: " ++ itemId
  | MalformedDatestamp =>
      lit "--test-result-datestamp must be an ISO 8601 datetime or 'now'."
  | OutputFileExists path =>
      lit "Output file already exists: " ++ path ++ lit " (use --force to overwrite)"
  | MissingRosterRow resultId => lit "Missing roster row for resultId: " ++ resultId
  | CsvParseError code => code
  | FsError _ => lit "file system error"
  end.

(** ** The run time: [node:fs], [node:path], [Date] *)

(** A broken-down UTC time, as [new Date()] reads it off the clock. *)
Record UtcTime := {
  utc_year : Z;
  utc_month : N;
  utc_day : N;
  utc_hours : N;
  utc_minutes : N;
  utc_seconds : N;
  utc_milliseconds : N;
}.

Definition padStart (width : nat) (s : jsstring) : jsstring :=
  repeat 48 (width - length s)%nat ++ s.

(** [date.toISOString()]: [YYYY-MM-DDTHH:mm:ss.sssZ], with the expanded
    six digit year outside 0..9999. *)
Definition toISOString (t : UtcTime) : jsstring :=
  let y := utc_year t in
  (if ((0 <=? y) && (y <=? 9999))%Z
   then padStart 4 (Number_toString (Z.to_N y))
   else (if (y <? 0)%Z then lit "-" else lit "+") ++ padStart 6 (Number_toString (Z.abs_N y)))
  ++ lit "-" ++ padStart 2 (Number_toString (utc_month t))
  ++ lit "-" ++ padStart 2 (Number_toString (utc_day t))
  ++ lit "T" ++ padStart 2 (Number_toString (utc_hours t))
  ++ lit ":" ++ padStart 2 (Number_toString (utc_minutes t))
  ++ lit ":" ++ padStart 2 (Number_toString (utc_seconds t))
  ++ lit "." ++ padStart 3 (Number_toString (utc_milliseconds t))
  ++ lit "Z".

(** Where [readFileSync] reads from: a path, or file descriptor 0. *)
Inductive Source :=
  | FromPath (p : jsstring)
  | FromStdin.

(** The calls [cli.ts] makes into Node, over a type [W] of worlds (the file
    system, the working directory and the clock). Reads leave the world as it
    is; [mkdirSync] and [writeFileSync] return the world they leave behind and
    the error they throw, if any. [Date_parse_isNaN raw] is
    [Number.isNaN(Date.parse(raw))]. *)
Class Node (W : Type) := {
  fs_readFileSync : W -> Source -> SysError + jsstring;
  fs_existsSync : W -> jsstring -> bool;
  fs_mkdirSync : W -> jsstring -> W * option SysError;
  fs_writeFileSync : W -> jsstring -> jsstring -> W * option SysError;
  path_join : jsstring -> jsstring -> jsstring;
  path_resolve : W -> jsstring -> jsstring;
  path_dirname : jsstring -> jsstring;
  Date_parse_isNaN : jsstring -> bool;
  Date_now : W -> UtcTime;
}.

(** ** Command line arguments *)

Record CliArgs := {
  roster : option jsstring;
  assessmentTest : option jsstring;
  testResultIdentifier : option jsstring;
  testResultDatestamp : option jsstring;
  outputDir : option jsstring;
  dryRun : bool;
  json : bool;
  force : bool;
  quiet : bool;
  verbose : bool;
  help : bool;
  version : bool;
}.

Definition defaultArgs : CliArgs :=
  {| roster := None; assessmentTest := None; testResultIdentifier := None;
     testResultDatestamp := None; outputDir := None; dryRun := false;
     json := false; force := false; quiet := false; verbose := false;
     help := false; version := false |}.

Definition set_roster (v : option jsstring) (a : CliArgs) : CliArgs :=
  {| roster := v; assessmentTest := assessmentTest a;
     testResultIdentifier := testResultIdentifier a;
     testResultDatestamp := testResultDatestamp a; outputDir := outputDir a;
     dryRun := dryRun a; json := json a; force := force a; quiet := quiet a;
     verbose := verbose a; help := help a; version := version a |}.

Definition set_assessmentTest (v : option jsstring) (a : CliArgs) : CliArgs :=
  {| roster := roster a; assessmentTest := v;
     testResultIdentifier := testResultIdentifier a;
     testResultDatestamp := testResultDatestamp a; outputDir := outputDir a;
     dryRun := dryRun a; json := json a; force := force a; quiet := quiet a;
     verbose := verbose a; help := help a; version := version a |}.

Definition set_testResultIdentifier (v : option jsstring) (a : CliArgs) : CliArgs :=
  {| roster := roster a; assessmentTest := assessmentTest a;
     testResultIdentifier := v;
     testResultDatestamp := testResultDatestamp a; outputDir := outputDir a;
     dryRun := dryRun a; json := json a; force := force a; quiet := quiet a;
     verbose := verbose a; help := help a; version := version a |}.

Definition set_testResultDatestamp (v : option jsstring) (a : CliArgs) : CliArgs :=
  {| roster := roster a; assessmentTest := assessmentTest a;
     testResultIdentifier := testResultIdentifier a;
     testResultDatestamp := v; outputDir := outputDir a;
     dryRun := dryRun a; json := json a; force := force a; quiet := quiet a;
     verbose := verbose a; help := help a; version := version a |}.

Definition set_outputDir (v : option jsstring) (a : CliArgs) : CliArgs :=
  {| roster := roster a; assessmentTest := assessmentTest a;
     testResultIdentifier := testResultIdentifier a;
     testResultDatestamp := testResultDatestamp a; outputDir := v;
     dryRun := dryRun a; json := json a; force := force a; quiet := quiet a;
     verbose := verbose a; help := help a; version := version a |}.

Inductive Flag := FDryRun | FJson | FForce | FQuiet | FVerbose | FHelp | FVersion.

Definition set_flag (f : Flag) (a : CliArgs) : CliArgs :=
  {| roster := roster a; assessmentTest := assessmentTest a;
     testResultIdentifier := testResultIdentifier a;
     testResultDatestamp := testResultDatestamp a; outputDir := outputDir a;
     dryRun := match f with FDryRun => true | _ => dryRun a end;
     json := match f with FJson => true | _ => json a end;
     force := match f with FForce => true | _ => force a end;
     quiet := match f with FQuiet => true | _ => quiet a end;
     verbose := match f with FVerbose => true | _ => verbose a end;
     help := match f with FHelp => true | _ => help a end;
     version := match f with FVersion => true | _ => version a end |}.

(** The loop of [parseArgs]. An option with a value reads [argv[i + 1]] and
    steps over it; past the end of [argv] the value is [null] ([--output]:
    the empty string). *)
Fixpoint parseArgs_from (argv : list jsstring) (args : CliArgs) : result CliArgs :=
  match argv with
  | [] => Ok args
  | arg :: rest =>
      if (arg === lit "--help") || (arg === lit "-h") then
        parseArgs_from rest (set_flag FHelp args)
      else if (arg === lit "--version") || (arg === lit "-V") then
        parseArgs_from rest (set_flag FVersion args)
      else if arg === lit "--roster" then
        match rest with
        | v :: rest' => parseArgs_from rest' (set_roster (Some v) args)
        | [] => Ok (set_roster None args)
        end
      else if arg === lit "--assessment-test" then
        match rest with
        | v :: rest' => parseArgs_from rest' (set_assessmentTest (Some v) args)
        | [] => Ok (set_assessmentTest None args)
        end
      else if arg === lit "--test-result-identifier" then
        match rest with
        | v :: rest' => parseArgs_from rest' (set_testResultIdentifier (Some v) args)
        | [] => Ok (set_testResultIdentifier None args)
        end
      else if arg === lit "--test-result-datestamp" then
        match rest with
        | v :: rest' => parseArgs_from rest' (set_testResultDatestamp (Some v) args)
        | [] => Ok (set_testResultDatestamp None args)
        end
      else if arg === lit "--output" then
        match rest with
        | v :: rest' => parseArgs_from rest' (set_outputDir (Some v) args)
        | [] => Ok (set_outputDir (Some []) args)
        end
      else if arg === lit "--dry-run" then
        parseArgs_from rest (set_flag FDryRun args)
      else if arg === lit "--json" then
        parseArgs_from rest (set_flag FJson args)
      else if (arg === lit "--force") || (arg === lit "--yes") then
        parseArgs_from rest (set_flag FForce args)
      else if arg === lit "--quiet" then
        parseArgs_from rest (set_flag FQuiet args)
      else if arg === lit "--verbose" then
        parseArgs_from rest (set_flag FVerbose args)
      else Throw (UnknownArgument arg)
  end.

Definition parseArgs (argv : list jsstring) : result CliArgs :=
  parseArgs_from argv defaultArgs.

(** ** The roster reader *)

(** *** [csv-parse/sync]

    A model of [parse(csvText, { columns: true, bom: true,
    skip_empty_lines: true, trim: true })], after the loop of the library's
    parser: comma separated fields, fields quoted by the double quote
    character with the doubled quote as its escape. The record delimiter is
    found at the first line end outside quotes (CRLF, LF or CR) and is the
    only one from then on. With [trim], the characters of [isCsvTrimChar] are
    dropped at the head of an unquoted field and around the quotes of a
    quoted one, and the white space at the end of an unquoted field is
    trimmed. With [skip_empty_lines], a line that holds nothing (with [trim]:
    nothing but such characters) yields no record. With [columns], the first
    record names the columns and every later record becomes an object keyed
    by them; a record of another length is refused where it ends. *)

Definition isCsvTrimChar (c : N) : bool :=
  (c =? 32) || (c =? 9) || (c =? 13) || (c =? 10) || (c =? 12).

Inductive RecordDelimiter := CRLF | LF | CR.

(** [__autoDiscoverRecordDelimiter], at the head of [s]. *)
Definition csv_discover (s : jsstring) : option RecordDelimiter :=
  match s with
  | 13 :: 10 :: _ => Some CRLF
  | 10 :: _ => Some LF
  | 13 :: _ => Some CR
  | _ => None
  end.

(** The record delimiter once the head of [s] has been looked at. *)
Definition csv_delimiter_at (delim : option RecordDelimiter) (s : jsstring)
    : option RecordDelimiter :=
  match delim with
  | Some _ => delim
  | None => csv_discover s
  end.

(** [__isRecordDelimiter], at the head of [s]. *)
Definition csv_isRecordDelimiter (delim : option RecordDelimiter) (s : jsstring) : bool :=
  match delim, s with
  | Some CRLF, 13 :: 10 :: _ => true
  | Some LF, 10 :: _ => true
  | Some CR, 13 :: _ => true
  | _, _ => false
  end.

(** [__onField]: the value of a finished field; [field] holds its
    characters, last first. *)
Definition csv_field (field : jsstring) (wasQuoting : bool) : jsstring :=
  rev (if wasQuoting then field else dropWhile isWhiteSpace field).

Definition csv_line_is_empty (field : jsstring) (fields : list jsstring) (wasQuoting : bool) : bool :=
  match field, fields with
  | [], [] => negb wasQuoting
  | _, _ => false
  end.

(** The end of the loop's body: the character joins the field, or is
    dropped as trimmed, or is refused after a closing quote. *)
Definition csv_append (c : N) (quoting wasQuoting : bool) (field : jsstring) : result jsstring :=
  let lappend :=
    quoting || match field with [] => false | _ :: _ => true end || negb (isCsvTrimChar c) in
  let rappend := negb wasQuoting in
  if lappend && rappend then Ok (c :: field)
  else if negb (isCsvTrimChar c) then
    Throw (CsvParseError (lit "CSV_NON_TRIMABLE_CHAR_AFTER_CLOSING_QUOTE"))
  else Ok field.

(** A record of the parse: the object's properties in the order they were
    set. A later property of the same name overrides an earlier one. *)
Abbreviation CsvRecord := (list (jsstring * jsstring)).

(** [record[key]] *)
Definition record_get (record : CsvRecord) (key : jsstring) : option jsstring :=
  fold_left (fun found kv => if fst kv === key then Some (snd kv) else found) record None.

(** [__onRecord]: the first record names the columns; a later one becomes
    an object, and is refused when it has another length. *)
Definition csv_onRecord (values : list jsstring) (columns : option (list jsstring))
    (acc : list CsvRecord) : result (option (list jsstring) * list CsvRecord) :=
  match columns with
  | None => Ok (Some values, acc)
  | Some names =>
      if (length values =? length names)%nat then Ok (columns, combine names values :: acc)
      else Throw (CsvParseError (lit "CSV_RECORD_INCONSISTENT_COLUMNS"))
  end.

(** The loop over the characters. [field] holds the characters of the
    current field, [fields] the fields of the current record, [acc] the
    records so far, each last first. *)
Fixpoint csv_scan (s : jsstring) (delim : option RecordDelimiter) (quoting wasQuoting : bool)
    (field : jsstring) (fields : list jsstring) (columns : option (list jsstring))
    (acc : list CsvRecord) {struct s} : result (list CsvRecord) :=
  match s with
  | [] =>
      if quoting then Throw (CsvParseError (lit "CSV_QUOTE_NOT_CLOSED"))
      else if csv_line_is_empty field fields wasQuoting then Ok (rev acc)
      else
        rbind (csv_onRecord (rev (csv_field field wasQuoting :: fields)) columns acc)
          (fun ended => Ok (rev (snd ended)))
  | c :: s' =>
      if quoting then
        if c =? 34 then
          match s' with
          | d :: s'' =>
              if d =? 34 then
                rbind (csv_append 34 true wasQuoting field) (fun field' =>
                  csv_scan s'' delim true wasQuoting field' fields columns acc)
              else
                let delim' := csv_delimiter_at delim s' in
                if (d =? 0) || (d =? 44) || csv_isRecordDelimiter delim' s' || isCsvTrimChar d
                then csv_scan s' delim' false true field fields columns acc
                else Throw (CsvParseError (lit "CSV_INVALID_CLOSING_QUOTE"))
          | [] => csv_scan s' delim false true field fields columns acc
          end
        else
          rbind (csv_append c true wasQuoting field) (fun field' =>
            csv_scan s' delim true wasQuoting field' fields columns acc)
      else
        let delim := csv_delimiter_at delim s in
        if c =? 34 then
          match field with
          | [] => csv_scan s' delim true wasQuoting field fields columns acc
          | _ :: _ => Throw (CsvParseError (lit "INVALID_OPENING_QUOTE"))
          end
        else if csv_isRecordDelimiter delim s then
          rbind (if csv_line_is_empty field fields wasQuoting then Ok (columns, acc)
                 else csv_onRecord (rev (csv_field field wasQuoting :: fields)) columns acc)
            (fun ended =>
               match delim, s' with
               | Some CRLF, _ :: s'' => csv_scan s'' delim false false [] [] (fst ended) (snd ended)
               | _, _ => csv_scan s' delim false false [] [] (fst ended) (snd ended)
               end)
        else if c =? 44 then
          csv_scan s' delim false false [] (csv_field field wasQuoting :: fields) columns acc
        else
          rbind (csv_append c false wasQuoting field) (fun field' =>
            csv_scan s' delim false wasQuoting field' fields columns acc)
  end.

Definition stripBom (s : jsstring) : jsstring :=
  match s with
  | c :: s' => if c =? 65279 then s' else s
  | [] => []
  end.

Definition parseCsv (csvText : jsstring) : result (list CsvRecord) :=
  csv_scan (stripBom csvText) None false false [] [] None [].

(** *** [readRosterCsv] *)

Record RosterRow := {
  candidateNumber : jsstring;
  candidateName : jsstring;
  candidateAccount : option jsstring;
  candidateId : option jsstring;
  resultId : jsstring;
}.

(** [record[key]?.trim()] *)
Definition trimmed_cell (record : CsvRecord) (key : string) : option jsstring :=
  trim <$> record_get record (lit key).

(** [value || undefined] *)
Definition or_undefined (v : option jsstring) : option jsstring :=
  if truthy v then v else None.

(** The body of [records.forEach((record, index) => ...)], over the rows
    pushed and the result identifiers seen so far. *)
Fixpoint readRosterCsv_forEach (records : list CsvRecord) (index : N)
    (rows : list RosterRow) (seen : gset jsstring) : result (list RosterRow) :=
  match records with
  | [] => Ok rows
  | record :: records' =>
      let candidateNumber := trimmed_cell record "candidate_number" in
      let candidateName := trimmed_cell record "candidate_name" in
      let candidateAccount := trimmed_cell record "candidate_account" in
      let candidateId := trimmed_cell record "candidate_id" in
      let resultIdRaw := trimmed_cell record "result_id" in
      match candidateNumber with
      | None | Some [] => Throw (MissingCandidateNumber (index + 2))
      | Some candidateNumber =>
          if negb (test_digit candidateNumber) then Throw CandidateNumberWithoutDigit
          else
            match candidateName with
            | None | Some [] => Throw (MissingCandidateName (index + 2))
            | Some candidateName =>
                match or_else resultIdRaw (Some candidateNumber) with
                | None | Some [] => Throw (MissingResultId (index + 2))
                | Some resultId =>
                    if bool_decide (resultId ∈ seen) then Throw (DuplicateResultId resultId)
                    else
                      readRosterCsv_forEach records' (index + 1)
                        (rows ++ [ {| candidateNumber := candidateNumber;
                                      candidateName := candidateName;
                                      candidateAccount := or_undefined candidateAccount;
                                      candidateId := or_undefined candidateId;
                                      resultId := resultId |} ])
                        ({[ resultId ]} ∪ seen)
                end
            end
      end
  end.

(** [fs.readFileSync(source, "utf8")], an error of the file system thrown on. *)
Definition readText {W} `{Node W} (w : W) (source : Source) : result jsstring :=
  match fs_readFileSync w source with
  | inr text => Ok text
  | inl e => Throw (FsError e)
  end.

Definition readRosterCsv {W} `{Node W} (w : W) (rosterPath : jsstring) : result (list RosterRow) :=
  rbind (readText w (if rosterPath === lit "-" then FromStdin else FromPath rosterPath))
    (fun csvText =>
  rbind (parseCsv csvText) (fun records =>
  match records with
  | [] => Throw RosterCsvEmpty
  | _ :: _ => readRosterCsv_forEach records 0 [] ∅
  end)).

(** ** The assessment item extractor *)

(** *** Regular expressions

    The fragment of ECMAScript patterns that [readAssessmentTestItemIds]
    uses, matched the way the language defines it: pieces are tried left to
    right, a quantifier is greedy and gives characters back one at a time,
    and the first way to match wins. Without the [u] flag a pattern reads a
    string by its code units. *)

Inductive CharSet :=
  | Chr (c : N)                (* a single character *)
  | OneOf (cs : jsstring)      (* [...] *)
  | NoneOf (cs : jsstring)     (* [^...] *)
  | Space.                     (* \s *)

Inductive Quant :=
  | Once
  | Star                       (* * *)
  | Plus                       (* + *)
  | Opt.                       (* ? *)

Inductive Piece :=
  | PLit (s : jsstring)                 (* literal characters *)
  | PWordBoundary                       (* \b *)
  | PRep (a : CharSet) (q : Quant)      (* a quantified character set *)
  | PGroup (a : CharSet) (q : Quant)    (* the same, in a capturing group *)
  | PBackref (n : nat).                 (* \n *)

Definition memN (c : N) (cs : jsstring) : bool := existsb (N.eqb c) cs.

Definition inSet (a : CharSet) (c : N) : bool :=
  match a with
  | Chr d => c =? d
  | OneOf cs => memN c cs
  | NoneOf cs => negb (memN c cs)
  | Space => isWhiteSpace c
  end.

(** [\w] *)
Definition isWordChar (c : N) : bool :=
  ((97 <=? c) && (c <=? 122)) || ((65 <=? c) && (c <=? 90)) || isDigit c || (c =? 95).

(** [\b] holds between [prev] and [next] when exactly one is a word character. *)
Definition atWordBoundary (prev next : option N) : bool :=
  xorb (from_option isWordChar false prev) (from_option isWordChar false next).

Definition least (q : Quant) : nat :=
  match q with
  | Once | Plus => 1
  | Star | Opt => 0
  end.

(** The longest run of [a] at the head of [s] that [q] may take. *)
Definition most (a : CharSet) (q : Quant) (s : jsstring) : nat :=
  let n := length (takeWhile (inSet a) s) in
  match q with
  | Once | Opt => Nat.min 1 n
  | Star | Plus => n
  end.

(** The character before the position reached by reading [taken]. *)
Definition lastOr (prev : option N) (taken : jsstring) : option N :=
  match last taken with
  | Some c => Some c
  | None => prev
  end.

(** [f k] for [k], [k - 1], ... down to [least]: the first that succeeds. *)
Fixpoint tryDown {R} (k least : nat) (f : nat -> option R) : option R :=
  match f k with
  | Some r => Some r
  | None =>
      match k with
      | O => None
      | S k' => if (k' <? least)%nat then None else tryDown k' least f
      end
  end.

(** A match of [ps] at the head of [s], the character before it being
    [prev]: the captures, in the order of their groups, and the rest of [s]. *)
Fixpoint matchPieces (ps : list Piece) (prev : option N) (s : jsstring)
    (caps : list jsstring) : option (list jsstring * jsstring) :=
  match ps with
  | [] => Some (caps, s)
  | p :: ps' =>
      match p with
      | PLit l =>
          match stripPrefix l s with
          | Some s' => matchPieces ps' (lastOr prev l) s' caps
          | None => None
          end
      | PWordBoundary =>
          if atWordBoundary prev (head s) then matchPieces ps' prev s caps else None
      | PRep a q =>
          if (most a q s <? least q)%nat then None
          else tryDown (most a q s) (least q) (fun k =>
                 matchPieces ps' (lastOr prev (take k s)) (drop k s) caps)
      | PGroup a q =>
          if (most a q s <? least q)%nat then None
          else tryDown (most a q s) (least q) (fun k =>
                 matchPieces ps' (lastOr prev (take k s)) (drop k s) (caps ++ [take k s]))
      | PBackref n =>
          match caps !! pred n with
          | Some l =>
              match stripPrefix l s with
              | Some s' => matchPieces ps' (lastOr prev l) s' caps
              | None => None
              end
          | None => matchPieces ps' prev s caps
          end
      end
  end.

(** The loop [match = pattern.exec(xml); while (match) ...] of a pattern with
    the [g] flag: the leftmost match at or after [lastIndex], then on from
    its end. [skip] counts the characters of [s] that the last match still
    covers. The captures of every match, in order. *)
Fixpoint execAll (pattern : list Piece) (prev : option N) (s : jsstring) (skip : nat)
    : list (list jsstring) :=
  match s with
  | [] => []
  | c :: s' =>
      match skip with
      | S k => execAll pattern (Some c) s' k
      | O =>
          match matchPieces pattern prev s [] with
          | Some (caps, rest) =>
              caps :: execAll pattern (Some c) s' (length s - length rest - 1)
          | None => execAll pattern (Some c) s' 0
          end
      end
  end.

(** *** [readAssessmentTestItemIds] *)

(** The pattern of the source: the tag, a word boundary, attributes, then
    [identifier = ] and a quoted value of one character or more (group 2)
    closed by the quote that opened it (group 1), then the rest of the tag. *)
Definition itemRefPattern : list Piece :=
  [ PLit (lit "<qti-assessment-item-ref"); PWordBoundary;
    PRep (NoneOf (lit ">")) Star;
    PWordBoundary; PLit (lit "identifier");
    PRep Space Star; PLit (lit "="); PRep Space Star;
    PGroup (OneOf (dq ++ lit "'")) Once;
    PGroup (NoneOf (dq ++ lit "'")) Plus;
    PBackref 1;
    PRep (NoneOf (lit ">")) Star;
    PRep (Chr 47) Opt;
    PRep Space Star;
    PLit (lit ">") ].

(** [itemIds.push(match[2])] for every match. *)
Definition matchedItemIds (xml : jsstring) : list jsstring :=
  map (fun caps => default [] (caps !! 1%nat)) (execAll itemRefPattern None xml 0).

(** The loop [for (const itemId of itemIds)] over the identifiers seen. *)
Fixpoint checkItemIds (itemIds : list jsstring) (seen : gset jsstring) : result unit :=
  match itemIds with
  | [] => Ok tt
  | itemId :: itemIds' =>
      if negb (truthy (Some itemId)) then Throw EmptyItemIdentifier
      else if bool_decide (itemId ∈ seen) then Throw (DuplicateItemIdentifier itemId)
      else checkItemIds itemIds' ({[ itemId ]} ∪ seen)
  end.

(** The extraction from the text of the document. *)
Definition itemIdsOfXml (xml : jsstring) : result (list jsstring) :=
  let itemIds := matchedItemIds xml in
  if (length itemIds =? 0)%nat then Throw NoAssessmentItemRefs
  else rbind (checkItemIds itemIds ∅) (fun _ => Ok itemIds).

Definition readAssessmentTestItemIds {W} `{Node W} (w : W) (assessmentTestPath : jsstring)
    : result (list jsstring) :=
  rbind (readText w (FromPath assessmentTestPath)) itemIdsOfXml.

(** ** The document renderer *)

Definition RESULTS_NAMESPACE : jsstring := lit "http://www.imsglobal.org/xsd/imsqti_result_v3p0".
Definition XSI_NAMESPACE : jsstring := lit "http://www.w3.org/2001/XMLSchema-instance".
Definition SCHEMA_LOCATION : jsstring :=
  RESULTS_NAMESPACE ++ lit " " ++ RESULTS_NAMESPACE ++ lit ".xsd".

(** Five replacements, one after the other, the ampersand first. *)
Definition escapeXml (value : jsstring) : jsstring :=
  replaceAll 39 (lit "&apos;")
    (replaceAll 34 (lit "&quot;")
      (replaceAll 62 (lit "&gt;")
        (replaceAll 60 (lit "&lt;")
          (replaceAll 38 (lit "&amp;") value)))).

(** [lines.push(line)] *)
Definition push (lines : list jsstring) (line : jsstring) : list jsstring := lines ++ [line].

(** [itemIds.forEach((itemId, index) => ...)] of the renderer. *)
Fixpoint pushItemResults (testResultDatestamp : option jsstring) (itemIds : list jsstring)
    (index : N) (lines : list jsstring) : list jsstring :=
  match itemIds with
  | [] => lines
  | itemId :: itemIds' =>
      pushItemResults testResultDatestamp itemIds' (index + 1)
        (if truthy testResultDatestamp then
           push lines
             (lit "  <itemResult identifier=" ++ dq ++ escapeXml itemId ++ dq
              ++ lit " sequenceIndex=" ++ dq ++ Number_toString (index + 1) ++ dq
              ++ lit " datestamp=" ++ dq ++ escapeXml (default [] testResultDatestamp) ++ dq
              ++ lit " sessionStatus=" ++ dq ++ lit "final" ++ dq ++ lit " />")
         else
           push lines
             (lit "  <itemResult identifier=" ++ dq ++ escapeXml itemId ++ dq
              ++ lit " sequenceIndex=" ++ dq ++ Number_toString (index + 1) ++ dq
              ++ lit " sessionStatus=" ++ dq ++ lit "final" ++ dq ++ lit " />"))
  end.

(** The array [lines] of [buildAssessmentResultXml] before it is joined. *)
Definition buildAssessmentResultLines (row : RosterRow) (testResultIdentifier : jsstring)
    (testResultDatestamp : option jsstring) (itemIds : list jsstring) : list jsstring :=
  let lines := [] in
  let lines :=
    push lines (lit "<?xml version=" ++ dq ++ lit "1.0" ++ dq
                ++ lit " encoding=" ++ dq ++ lit "UTF-8" ++ dq ++ lit "?>") in
  let lines :=
    push lines (lit "<assessmentResult xmlns=" ++ dq ++ RESULTS_NAMESPACE ++ dq
                ++ lit " xmlns:xsi=" ++ dq ++ XSI_NAMESPACE ++ dq
                ++ lit " xsi:schemaLocation=" ++ dq ++ SCHEMA_LOCATION ++ dq ++ lit ">") in
  let lines :=
    push lines (lit "  <context sourcedId=" ++ dq ++ escapeXml (candidateNumber row) ++ dq
                ++ lit ">") in
  let lines :=
    push lines (lit "    <sessionIdentifier sourceID=" ++ dq ++ lit "candidateName" ++ dq
                ++ lit " identifier=" ++ dq ++ escapeXml (candidateName row) ++ dq
                ++ lit " />") in
  let lines :=
    if truthy (candidateId row) then
      push lines (lit "    <sessionIdentifier sourceID=" ++ dq ++ lit "candidateId" ++ dq
                  ++ lit " identifier=" ++ dq ++ escapeXml (default [] (candidateId row)) ++ dq
                  ++ lit " />")
    else lines in
  let lines :=
    if truthy (candidateAccount row) then
      push lines (lit "    <sessionIdentifier sourceID=" ++ dq ++ lit "candidateAccount" ++ dq
                  ++ lit " identifier=" ++ dq ++ escapeXml (default [] (candidateAccount row)) ++ dq
                  ++ lit " />")
    else lines in
  let lines := push lines (lit "  </context>") in
  let lines :=
    if truthy testResultDatestamp then
      push lines (lit "  <testResult identifier=" ++ dq ++ escapeXml testResultIdentifier ++ dq
                  ++ lit " datestamp=" ++ dq ++ escapeXml (default [] testResultDatestamp) ++ dq
                  ++ lit " />")
    else
      push lines (lit "  <testResult identifier=" ++ dq ++ escapeXml testResultIdentifier ++ dq
                  ++ lit " />") in
  let lines := pushItemResults testResultDatestamp itemIds 0 lines in
  let lines := push lines (lit "</assessmentResult>") in
  lines.

Definition buildAssessmentResultXml (row : RosterRow) (testResultIdentifier : jsstring)
    (testResultDatestamp : option jsstring) (itemIds : list jsstring) : jsstring :=
  join (lit "
") (buildAssessmentResultLines row testResultIdentifier testResultDatestamp itemIds)
  ++ lit "
".

(** ** The output planner and the write loop *)

Module Output.
Record Plan := {
  resultId : jsstring;
  path : jsstring;
}.
End Output.
Abbreviation OutputPlan := Output.Plan.

Section Orchestrator.
Context {W : Type} `{Node W}.

Definition buildOutputPlan (outputDir : jsstring) (rows : list RosterRow) : list OutputPlan :=
  map (fun row =>
         {| Output.resultId := resultId row;
            Output.path :=
              path_join outputDir (lit "assessmentResult-" ++ resultId row ++ lit ".xml") |})
      rows.

(** The loop of [ensureWritable] over the planned outputs. *)
Fixpoint ensureWritable_loop (w : W) (outputs : list OutputPlan) (force : bool) : result unit :=
  match outputs with
  | [] => Ok tt
  | output :: outputs' =>
      if fs_existsSync w (Output.path output) && negb force then
        Throw (OutputFileExists (Output.path output))
      else ensureWritable_loop w outputs' force
  end.

Definition ensureWritable (outputDir : jsstring) (outputs : list OutputPlan) (force : bool)
    (w : W) : W * result unit :=
  if negb (fs_existsSync w outputDir) then
    match fs_mkdirSync w outputDir with
    | (w', None) => (w', Ok tt)
    | (w', Some e) => (w', Throw (FsError e))
    end
  else (w, ensureWritable_loop w outputs force).

(** [new Map(rows.map((row) => [row.resultId, row]))]: a later row of the
    same key replaces an earlier one. *)
Definition rowByResult (rows : list RosterRow) : gmap jsstring RosterRow :=
  fold_left (fun m row => <[ resultId row := row ]> m) rows ∅.

(** [outputs.forEach((output) => ...)] of [writeOutputs], over the map. *)
Fixpoint writeOutputs_forEach (byResult : gmap jsstring RosterRow) (outputs : list OutputPlan)
    (testResultIdentifier : jsstring) (testResultDatestamp : option jsstring)
    (itemIds : list jsstring) (w : W) : W * result unit :=
  match outputs with
  | [] => (w, Ok tt)
  | output :: outputs' =>
      match byResult !! Output.resultId output with
      | None => (w, Throw (MissingRosterRow (Output.resultId output)))
      | Some row =>
          let xml :=
            buildAssessmentResultXml row testResultIdentifier testResultDatestamp itemIds in
          match fs_writeFileSync w (Output.path output) xml with
          | (w', Some e) => (w', Throw (FsError e))
          | (w', None) =>
              writeOutputs_forEach byResult outputs' testResultIdentifier
                testResultDatestamp itemIds w'
          end
      end
  end.

Definition writeOutputs (outputs : list OutputPlan) (rows : list RosterRow)
    (testResultIdentifier : jsstring) (testResultDatestamp : option jsstring)
    (itemIds : list jsstring) (w : W) : W * result unit :=
  writeOutputs_forEach (rowByResult rows) outputs testResultIdentifier testResultDatestamp
    itemIds w.

(** ** The orchestrator *)

Definition resolveDefaultOutputDir (w : W) (rosterPath : jsstring) : jsstring :=
  if rosterPath === lit "-" then path_resolve w (lit "qti-results")
  else path_join (path_dirname (path_resolve w rosterPath)) (lit "qti-results").

Definition resolveEndAt (w : W) (raw : jsstring) : result jsstring :=
  if raw === lit "now" then Ok (toISOString (Date_now w))
  else if Date_parse_isNaN raw then Throw MalformedDatestamp
  else Ok raw.

(** What a run prints: the help text, the version, the summary as JSON on the
    standard output, or a line of log on the standard error. *)
Inductive Printed :=
  | HelpText
  | VersionText
  | JsonSummary (mode : jsstring) (outputDir : jsstring) (outputs : list OutputPlan)
  | LogDryRun (files : nat) (outputDir : jsstring)
  | LogWrote (files : nat) (outputDir : jsstring).

(** [logInfo(message, args)] *)
Definition logInfo (message : Printed) (args : CliArgs) : list Printed :=
  if quiet args then [] else [message].

(** [const testResultDatestamp = ...] of [main]. *)
Definition main_testResultDatestamp (w : W) (args : CliArgs) : result (option jsstring) :=
  if truthy (testResultDatestamp args) then
    rbind (resolveEndAt w (default [] (testResultDatestamp args))) (fun d => Ok (Some d))
  else Ok None.

(** [const outputDir = ...] of [main]. *)
Definition main_outputDir (w : W) (args : CliArgs) : jsstring :=
  if truthy (outputDir args) then path_resolve w (default [] (outputDir args))
  else resolveDefaultOutputDir w (default [] (roster args)).

(** [main] after [parseArgs]. The world it leaves, and what it printed or
    the error that ended it. The version is printed as [VersionText]: the
    read of [package.json] behind it is left out. *)
Definition run (args : CliArgs) (w : W) : W * result (list Printed) :=
  if help args then (w, Ok [HelpText])
  else if version args then (w, Ok [VersionText])
  else if negb (truthy (roster args)) || negb (truthy (assessmentTest args)) then
    (w, Throw MissingRequiredArguments)
  else if bool_decide (outputDir args ≠ None) && negb (truthy (outputDir args)) then
    (w, Throw OutputMustBeNonEmpty)
  else
    let testResultIdentifier :=
      default [] (or_else (testResultIdentifier args) (Some (lit "assessment-test"))) in
    match main_testResultDatestamp w args with
    | Throw e => (w, Throw e)
    | Ok testResultDatestamp =>
        let outputDir := main_outputDir w args in
        match readRosterCsv w (default [] (roster args)) with
        | Throw e => (w, Throw e)
        | Ok rows =>
            match readAssessmentTestItemIds w (default [] (assessmentTest args)) with
            | Throw e => (w, Throw e)
            | Ok itemIds =>
                let outputs := buildOutputPlan outputDir rows in
                if dryRun args then
                  if json args then (w, Ok [JsonSummary (lit "dry-run") outputDir outputs])
                  else (w, Ok (logInfo (LogDryRun (length outputs) outputDir) args))
                else
                  match ensureWritable outputDir outputs (force args) w with
                  | (w1, Throw e) => (w1, Throw e)
                  | (w1, Ok _) =>
                      match writeOutputs outputs rows testResultIdentifier
                              testResultDatestamp itemIds w1 with
                      | (w2, Throw e) => (w2, Throw e)
                      | (w2, Ok _) =>
                          if json args then
                            (w2, Ok [JsonSummary (lit "write") outputDir outputs])
                          else if verbose args then
                            (w2, Ok (logInfo (LogWrote (length outputs) outputDir) args))
                          else (w2, Ok [])
                      end
                  end
            end
        end
    end.

Definition main (argv : list jsstring) (w : W) : W * result (list Printed) :=
  match parseArgs argv with
  | Throw e => (w, Throw e)
  | Ok args => run args w
  end.

End Orchestrator.

(** ** Reading a rendered document back

    What a reader of the output sees: the tags of the text, each with its
    name and its attributes, the values with the five entities decoded. The
    properties of the renderer are stated over this reading of its text. *)

(** The entity that [s], the text after an ampersand, starts with: the
    character it stands for and the number of characters it takes. *)
Definition entityAt (s : jsstring) : option (N * nat) :=
  if startsWith (lit "amp;") s then Some (38, 4%nat)
  else if startsWith (lit "lt;") s then Some (60, 3%nat)
  else if startsWith (lit "gt;") s then Some (62, 3%nat)
  else if startsWith (lit "quot;") s then Some (34, 5%nat)
  else if startsWith (lit "apos;") s then Some (39, 5%nat)
  else None.

Fixpoint unescape_from (skip : nat) (s : jsstring) : jsstring :=
  match s with
  | [] => []
  | c :: s' =>
      match skip with
      | S k => unescape_from k s'
      | O =>
          if c =? 38 then
            match entityAt s' with
            | Some (d, n) => d :: unescape_from n s'
            | None => c :: unescape_from 0 s'
            end
          else c :: unescape_from 0 s'
      end
  end.

Definition unescapeXml (s : jsstring) : jsstring := unescape_from 0 s.

(** The text between each [<] and the next [>]. *)
Fixpoint xmlTags (s : jsstring) : list jsstring :=
  match s with
  | [] => []
  | c :: s' =>
      if c =? 60 then takeWhile (fun d => negb (d =? 62)) s' :: xmlTags s'
      else xmlTags s'
  end.

Inductive AttrState :=
  | Between
  | InName (name : jsstring)
  | AfterEq (name : jsstring)
  | InValue (name value : jsstring).

(** The attributes [name="value"] of the inside of a tag; the states hold
    the characters read so far, last first. *)
Fixpoint parseAttrs (s : jsstring) (st : AttrState) : list (jsstring * jsstring) :=
  match s with
  | [] => []
  | c :: s' =>
      match st with
      | Between =>
          if isWhiteSpace c then parseAttrs s' Between else parseAttrs s' (InName [c])
      | InName name =>
          if c =? 61 then parseAttrs s' (AfterEq name)
          else if isWhiteSpace c then parseAttrs s' Between
          else parseAttrs s' (InName (c :: name))
      | AfterEq name =>
          if c =? 34 then parseAttrs s' (InValue name []) else parseAttrs s' Between
      | InValue name value =>
          if c =? 34 then (rev name, unescapeXml (rev value)) :: parseAttrs s' Between
          else parseAttrs s' (InValue name (c :: value))
      end
  end.

Record XmlElement := {
  tagName : jsstring;
  attributes : list (jsstring * jsstring);
}.

Definition elementOfTag (tag : jsstring) : XmlElement :=
  {| tagName := takeWhile (fun c => negb (isWhiteSpace c)) tag;
     attributes := parseAttrs (dropWhile (fun c => negb (isWhiteSpace c)) tag) Between |}.

Definition xmlElements (doc : jsstring) : list XmlElement := map elementOfTag (xmlTags doc).

(** The value of the attribute [name] of [e], if it has one. *)
Definition xmlAttr (name : string) (e : XmlElement) : option jsstring :=
  snd <$> find (fun kv => fst kv === lit name) (attributes e).

Definition isElement (name : string) (e : XmlElement) : bool := tagName e === lit name.

(** The [itemResult] elements of a document, in order. *)
Definition itemResults (doc : jsstring) : list XmlElement :=
  List.filter (isElement "itemResult") (xmlElements doc).

(** The [testResult] and [itemResult] elements of a document. *)
Definition resultElements (doc : jsstring) : list XmlElement :=
  List.filter (fun e => isElement "testResult" e || isElement "itemResult" e) (xmlElements doc).

(** ** What the specification calls trimmed *)

(** [s] neither starts nor ends with white space. *)
Definition noEdgeWhiteSpace (s : jsstring) : Prop :=
  from_option isWhiteSpace false (head s) = false
  /\ from_option isWhiteSpace false (last s) = false.

Definition rowTrimmed (row : RosterRow) : Prop :=
  noEdgeWhiteSpace (candidateNumber row)
  /\ noEdgeWhiteSpace (candidateName row)
  /\ from_option noEdgeWhiteSpace True (candidateAccount row)
  /\ from_option noEdgeWhiteSpace True (candidateId row)
  /\ noEdgeWhiteSpace (resultId row).

(** The result identifier of a record of the CSV, in the words of the
    specification: the trimmed [result_id] if it is not empty, else the
    [candidate_number]. *)
Definition specResultId (record : CsvRecord) : jsstring :=
  match trim <$> record_get record (lit "result_id") with
  | Some (c :: s) => c :: s
  | _ => default [] (trim <$> record_get record (lit "candidate_number"))
  end.

(** ** ISO 8601 date-times

    What the help text and the specification call an ISO 8601 datetime, read
    generously: the date-time string format of ECMAScript, its profile of
    ISO 8601. [YYYY], [YYYY-MM] or [YYYY-MM-DD], then optionally [THH:mm],
    [THH:mm:ss] or [THH:mm:ss.sss], then optionally [Z] or an offset
    [+HH:mm] or [-HH:mm]. *)

(** [n] digits at the head of [s]: their value and the rest. *)
Fixpoint takeDigits (n : nat) (acc : N) (s : jsstring) : option (N * jsstring) :=
  match n with
  | O => Some (acc, s)
  | S n' =>
      match s with
      | c :: s' => if isDigit c then takeDigits n' (10 * acc + (c - 48)) s' else None
      | [] => None
      end
  end.

Definition isoOffset (s : jsstring) : bool :=
  match s with
  | [] => true
  | [90] => true
  | c :: s' =>
      if (c =? 43) || (c =? 45) then
        match takeDigits 2 0 s' with
        | Some (h, 58 :: s'') =>
            match takeDigits 2 0 s'' with
            | Some (m, []) => (h <=? 23) && (m <=? 59)
            | _ => false
            end
        | _ => false
        end
      else false
  end.

Definition isoFraction (s : jsstring) : bool :=
  match s with
  | c :: _ => isDigit c && isoOffset (dropWhile isDigit s)
  | [] => false
  end.

(** After the hour 24, the minutes, the seconds and their fraction are
    zeros: the end of the day. *)
Definition isoMidnight (s : jsstring) : bool :=
  forallb (fun c => negb (isDigit c) || (c =? 48))
    (takeWhile (fun c => isDigit c || (c =? 58) || (c =? 46)) s).

Definition isoTime (s : jsstring) : bool :=
  match takeDigits 2 0 s with
  | Some (h, 58 :: s1) =>
      match takeDigits 2 0 s1 with
      | Some (m, s2) =>
          ((h <=? 23) || ((h =? 24) && isoMidnight s1)) && (m <=? 59) &&
          match s2 with
          | 58 :: s3 =>
              match takeDigits 2 0 s3 with
              | Some (sec, 46 :: s4) => (sec <=? 59) && isoFraction s4
              | Some (sec, s4) => (sec <=? 59) && isoOffset s4
              | None => false
              end
          | _ => isoOffset s2
          end
      | None => false
      end
  | _ => false
  end.

Definition isoAfterDate (s : jsstring) : bool :=
  match s with
  | [] => true
  | 84 :: s' => isoTime s'
  | _ => false
  end.

Definition isIso8601 (s : jsstring) : bool :=
  match takeDigits 4 0 s with
  | Some (_, 45 :: s1) =>
      match takeDigits 2 0 s1 with
      | Some (month, 45 :: s2) =>
          (1 <=? month) && (month <=? 12) &&
          match takeDigits 2 0 s2 with
          | Some (day, s3) => (1 <=? day) && (day <=? 31) && isoAfterDate s3
          | None => false
          end
      | Some (month, s2) => (1 <=? month) && (month <=? 12) && isoAfterDate s2
      | None => false
      end
  | Some (_, s1) => isoAfterDate s1
  | None => false
  end.

(** ** [node:path] on POSIX

    [path.join], [path.resolve] and [path.dirname] as Node has them for
    POSIX paths. The segments of a path are what stands between its slashes;
    normalising drops the empty segments and the single dots, and lets a
    double dot take back the segment before it. *)

Fixpoint splitSlash (s : jsstring) : list jsstring :=
  match s with
  | [] => [[]]
  | c :: s' =>
      if c =? 47 then [] :: splitSlash s'
      else match splitSlash s' with
           | seg :: segs => (c :: seg) :: segs
           | [] => [[c]]
           end
  end.

(** The loop of [normalizeString] over the segments; [res] holds the segments
    kept so far, last first. A double dot that has nothing to take back is
    kept when [allowAboveRoot] and dropped otherwise. *)
Fixpoint normalizeSegments (allowAboveRoot : bool) (segs : list jsstring) (res : list jsstring)
    : list jsstring :=
  match segs with
  | [] => rev res
  | seg :: segs' =>
      if (seg === []) || (seg === lit ".") then normalizeSegments allowAboveRoot segs' res
      else if seg === lit ".." then
        match res with
        | kept :: res' =>
            if kept === lit ".." then
              normalizeSegments allowAboveRoot segs' (if allowAboveRoot then seg :: res else res)
            else normalizeSegments allowAboveRoot segs' res'
        | [] => normalizeSegments allowAboveRoot segs' (if allowAboveRoot then [seg] else [])
        end
      else normalizeSegments allowAboveRoot segs' (seg :: res)
  end.

Definition normalizeString (path : jsstring) (allowAboveRoot : bool) : jsstring :=
  join (lit "/") (normalizeSegments allowAboveRoot (splitSlash path) []).

(** [path.posix.normalize(path)] *)
Definition posix_normalize (path : jsstring) : jsstring :=
  match path with
  | [] => lit "."
  | c :: _ =>
      let isAbsolute := c =? 47 in
      let trailingSeparator := from_option (N.eqb 47) false (last path) in
      match normalizeString path (negb isAbsolute) with
      | [] => if isAbsolute then lit "/" else if trailingSeparator then lit "./" else lit "."
      | p =>
          (if isAbsolute then lit "/" else []) ++ p
          ++ (if trailingSeparator then lit "/" else [])
      end
  end.

(** [path.join(a, b)]: the arguments that are not empty, joined by a slash
    and normalised. *)
Definition mem_join (a b : jsstring) : jsstring :=
  match a, b with
  | [], [] => lit "."
  | [], _ :: _ => posix_normalize b
  | _ :: _, [] => posix_normalize a
  | _ :: _, _ :: _ => posix_normalize (a ++ lit "/" ++ b)
  end.

(** [path.resolve(p)] in the working directory [cwd]. *)
Definition posix_resolve (cwd p : jsstring) : jsstring :=
  let fromPath := match p with [] => [] | _ :: _ => p ++ lit "/" end in
  let pathAbsolute := startsWith (lit "/") p in
  let resolvedPath :=
    if pathAbsolute then fromPath
    else match cwd with [] => fromPath | _ :: _ => cwd ++ lit "/" ++ fromPath end in
  let resolvedAbsolute := pathAbsolute || startsWith (lit "/") cwd in
  let normalized := normalizeString resolvedPath (negb resolvedAbsolute) in
  if resolvedAbsolute then lit "/" ++ normalized
  else match normalized with [] => lit "." | _ :: _ => normalized end.

(** [path.dirname(p)]: [p] up to the last slash that follows a character
    other than a slash, the slashes at the end of [p] left aside. *)
Definition mem_dirname (p : jsstring) : jsstring :=
  match p with
  | [] => lit "."
  | c :: rest =>
      let hasRoot := c =? 47 in
      let isSlash := fun d => d =? 47 in
      match dropWhile (fun d => negb (isSlash d)) (dropWhile isSlash (rev rest)) with
      | [] => if hasRoot then lit "/" else lit "."
      | _ :: before => if hasRoot && (length before =? 0)%nat then lit "//" else c :: rev before
      end
  end.

(** The directories above [p], nearest first. *)
Fixpoint mem_ancestors (fuel : nat) (p : jsstring) : list jsstring :=
  match fuel with
  | O => []
  | S fuel' =>
      let d := mem_dirname p in
      if d === p then [] else d :: mem_ancestors fuel' d
  end.

(** ** [Date.parse] of V8

    The date parser of Node's engine. A string is cut into tokens; the tokens
    are read as a date-time string of ECMAScript (the ISO 8601 profile
    [YYYY-MM-DDTHH:mm:ss.sssZ]), and where that stops before its [T], the
    rest is read by the legacy rules: month names, numbers in any of several
    orders, a time with colons, a zone. The time zone of the process is
    taken to be UTC. *)

Inductive KeywordType := AM_PM | MONTH_NAME | TIME_ZONE_NAME | TIME_SEPARATOR | INVALID.

Inductive DateToken :=
  | TNumber (n : Z) (digits : nat)
  | TSymbol (c : N)
  | TWhiteSpace
  | TKeyword (type : KeywordType) (value : Z) (letters : nat)
  | TUnknown.

Definition keywordTable : list (jsstring * (KeywordType * Z)) :=
  [ (lit "jan", (MONTH_NAME, 1%Z)); (lit "feb", (MONTH_NAME, 2%Z));
    (lit "mar", (MONTH_NAME, 3%Z)); (lit "apr", (MONTH_NAME, 4%Z));
    (lit "may", (MONTH_NAME, 5%Z)); (lit "jun", (MONTH_NAME, 6%Z));
    (lit "jul", (MONTH_NAME, 7%Z)); (lit "aug", (MONTH_NAME, 8%Z));
    (lit "sep", (MONTH_NAME, 9%Z)); (lit "oct", (MONTH_NAME, 10%Z));
    (lit "nov", (MONTH_NAME, 11%Z)); (lit "dec", (MONTH_NAME, 12%Z)); (lit "am", (AM_PM, 0%Z));
    (lit "pm", (AM_PM, 12%Z)); (lit "ut", (TIME_ZONE_NAME, 0%Z));
    (lit "utc", (TIME_ZONE_NAME, 0%Z)); (lit "z", (TIME_ZONE_NAME, 0%Z));
    (lit "gmt", (TIME_ZONE_NAME, 0%Z)); (lit "cdt", (TIME_ZONE_NAME, (-5)%Z));
    (lit "cst", (TIME_ZONE_NAME, (-6)%Z)); (lit "edt", (TIME_ZONE_NAME, (-4)%Z));
    (lit "est", (TIME_ZONE_NAME, (-5)%Z)); (lit "mdt", (TIME_ZONE_NAME, (-6)%Z));
    (lit "mst", (TIME_ZONE_NAME, (-7)%Z)); (lit "pdt", (TIME_ZONE_NAME, (-7)%Z));
    (lit "pst", (TIME_ZONE_NAME, (-8)%Z)); (lit "t", (TIME_SEPARATOR, 0%Z)) ].

(** [KeywordTable::Lookup]: the first three letters of the word, in lower
    case, are those of the keyword; a word longer than three letters is a
    keyword only when it starts as a month name does. *)
Definition keywordLookup (word : jsstring) : KeywordType * Z :=
  let prefix := map (fun c => N.lor c 32) (take 3 word) in
  match find (fun entry =>
                (prefix === fst entry)
                && ((length word <=? 3)%nat
                    || match fst (snd entry) with MONTH_NAME => true | _ => false end))
             keywordTable with
  | Some entry => snd entry
  | None => (INVALID, 0%Z)
  end.

(** [ReadUnsignedNumeral]: the zeros at the head are skipped, and no more
    than nine digits after them count. *)
Fixpoint readDigits (s : jsstring) (significant : nat) (n : Z) : Z * jsstring :=
  match s with
  | c :: s' =>
      if isDigit c then
        readDigits s' (S significant)
          (if (significant <? 9)%nat then 10 * n + Z.of_N (c - 48) else n)%Z
      else (n, s)
  | [] => (n, [])
  end.

Definition readUnsignedNumeral (s : jsstring) : Z * jsstring :=
  readDigits (dropWhile (N.eqb 48) s) 0 0%Z.

Definition isDateWordChar (c : N) : bool := (65 <=? c) && negb (isWhiteSpace c).

(** [SkipParentheses], from an opening parenthesis to the one that closes
    it, or to the end. *)
Fixpoint skipParentheses (s : jsstring) (balance : nat) : jsstring :=
  match s with
  | [] => []
  | c :: s' =>
      if c =? 0 then s
      else if c =? 40 then skipParentheses s' (S balance)
      else if c =? 41 then
        match balance with
        | O | S O => s'
        | S balance' => skipParentheses s' balance'
        end
      else
        match balance with
        | O => s'
        | S _ => skipParentheses s' balance
        end
  end.

(** [DateStringTokenizer::Scan], until the end of the string; the character
    of code 0 ends it too. *)
Fixpoint dateTokens (fuel : nat) (s : jsstring) : list DateToken :=
  match fuel with
  | O => []
  | S fuel' =>
      match s with
      | [] => []
      | c :: s' =>
          if c =? 0 then []
          else if isDigit c then
            let (n, rest) := readUnsignedNumeral s in
            TNumber n (length s - length rest) :: dateTokens fuel' rest
          else if (c =? 58) || (c =? 45) || (c =? 43) || (c =? 46) || (c =? 41) then
            TSymbol c :: dateTokens fuel' s'
          else if isDateWordChar c then
            let word := takeWhile isDateWordChar s in
            let (type, value) := keywordLookup word in
            TKeyword type value (length word) :: dateTokens fuel' (dropWhile isDateWordChar s)
          else if isWhiteSpace c then TWhiteSpace :: dateTokens fuel' s'
          else if c =? 40 then TUnknown :: dateTokens fuel' (skipParentheses s 0)
          else TUnknown :: dateTokens fuel' s'
      end
  end.

(** The composers: the numbers of the day read so far and the month named,
    the numbers of the time and the offset of [am] or [pm], the zone. *)
Record DateParts := {
  day_comp : list Z;
  named_month : option Z;
  is_iso_date : bool;
  time_comp : list Z;
  hour_offset : option Z;
  tz_sign : option Z;
  tz_hour : option Z;
  tz_minute : option Z;
  has_read_number : bool;
}.

Definition noParts : DateParts :=
  {| day_comp := []; named_month := None; is_iso_date := false; time_comp := [];
     hour_offset := None; tz_sign := None; tz_hour := None; tz_minute := None;
     has_read_number := false |}.

Definition set_day (comp : list Z) (p : DateParts) : DateParts :=
  {| day_comp := comp; named_month := named_month p; is_iso_date := is_iso_date p;
     time_comp := time_comp p; hour_offset := hour_offset p; tz_sign := tz_sign p;
     tz_hour := tz_hour p; tz_minute := tz_minute p; has_read_number := has_read_number p |}.

Definition set_named_month (m : Z) (p : DateParts) : DateParts :=
  {| day_comp := day_comp p; named_month := Some m; is_iso_date := is_iso_date p;
     time_comp := time_comp p; hour_offset := hour_offset p; tz_sign := tz_sign p;
     tz_hour := tz_hour p; tz_minute := tz_minute p; has_read_number := has_read_number p |}.

Definition set_iso_date (p : DateParts) : DateParts :=
  {| day_comp := day_comp p; named_month := named_month p; is_iso_date := true;
     time_comp := time_comp p; hour_offset := hour_offset p; tz_sign := tz_sign p;
     tz_hour := tz_hour p; tz_minute := tz_minute p; has_read_number := has_read_number p |}.

Definition set_time (comp : list Z) (p : DateParts) : DateParts :=
  {| day_comp := day_comp p; named_month := named_month p; is_iso_date := is_iso_date p;
     time_comp := comp; hour_offset := hour_offset p; tz_sign := tz_sign p;
     tz_hour := tz_hour p; tz_minute := tz_minute p; has_read_number := has_read_number p |}.

Definition set_hour_offset (n : Z) (p : DateParts) : DateParts :=
  {| day_comp := day_comp p; named_month := named_month p; is_iso_date := is_iso_date p;
     time_comp := time_comp p; hour_offset := Some n; tz_sign := tz_sign p;
     tz_hour := tz_hour p; tz_minute := tz_minute p; has_read_number := has_read_number p |}.

Definition set_tz (sign hour minute : option Z) (p : DateParts) : DateParts :=
  {| day_comp := day_comp p; named_month := named_month p; is_iso_date := is_iso_date p;
     time_comp := time_comp p; hour_offset := hour_offset p; tz_sign := sign;
     tz_hour := hour; tz_minute := minute; has_read_number := has_read_number p |}.

Definition set_read_number (p : DateParts) : DateParts :=
  {| day_comp := day_comp p; named_month := named_month p; is_iso_date := is_iso_date p;
     time_comp := time_comp p; hour_offset := hour_offset p; tz_sign := tz_sign p;
     tz_hour := tz_hour p; tz_minute := tz_minute p; has_read_number := true |}.

Definition between (x lower upper : Z) : bool := ((lower <=? x) && (x <=? upper))%Z.
Definition isMonth (x : Z) : bool := between x 1 12.
Definition isDay (x : Z) : bool := between x 1 31.
Definition isHour (x : Z) : bool := between x 0 23.
Definition isHour12 (x : Z) : bool := between x 0 12.
Definition isMinute (x : Z) : bool := between x 0 59.
Definition isSecond (x : Z) : bool := between x 0 59.
Definition isMillisecond (x : Z) : bool := between x 0 999.

(** [DayComposer::Add] and [TimeComposer::Add]: three numbers of the day,
    four of the time, and no more. *)
Definition day_add (n : Z) (p : DateParts) : option DateParts :=
  if (length (day_comp p) <? 3)%nat then Some (set_day (day_comp p ++ [n]) p) else None.

Definition time_add (n : Z) (p : DateParts) : option DateParts :=
  if (length (time_comp p) <? 4)%nat then Some (set_time (time_comp p ++ [n]) p) else None.

(** [TimeComposer::AddFinal]: the number, then zeros for what is left. *)
Definition time_add_final (n : Z) (p : DateParts) : option DateParts :=
  match time_add n p with
  | Some p' =>
      Some (set_time (time_comp p' ++ repeat 0%Z (4 - length (time_comp p'))) p')
  | None => None
  end.

Definition time_is_expecting (n : Z) (p : DateParts) : bool :=
  match length (time_comp p) with
  | 1%nat => isMinute n
  | 2%nat => isSecond n
  | 3%nat => isMillisecond n
  | _ => false
  end.

(** [TimeZoneComposer::Set], [IsExpecting] and [IsUTC]. *)
Definition tz_set (offset_in_hours : Z) (p : DateParts) : DateParts :=
  set_tz (Some (if (offset_in_hours <? 0)%Z then -1 else 1)%Z) (Some (Z.abs offset_in_hours))
    (Some 0%Z) p.

Definition tz_is_expecting (n : Z) (p : DateParts) : bool :=
  match tz_hour p, tz_minute p with
  | Some _, None => isMinute n
  | _, _ => false
  end.

Definition tz_is_utc (p : DateParts) : bool :=
  match tz_hour p, tz_minute p with
  | Some 0%Z, Some 0%Z => true
  | _, _ => false
  end.

(** [ReadMilliseconds]: the first three digits of a fraction. *)
Definition readMilliseconds (n : Z) (digits : nat) : Z :=
  match digits with
  | 1%nat => n * 100
  | 2%nat => n * 10
  | 3%nat => n
  | _ => n / 10 ^ Z.of_nat (Nat.min digits 9 - 3)
  end%Z.

Definition isSign (c : N) : bool := (c =? 43) || (c =? 45).
Definition signOf (c : N) : Z := if c =? 43 then 1%Z else (-1)%Z.

(** What [ParseES5DateTime] returns: the string is no date at all, or the
    tokens from the one it could not read on, none if it read them all. *)
Inductive Es5Result :=
  | Es5Invalid
  | Es5Rest (rest : list DateToken) (p : DateParts).

(** The zone of a date-time string: nothing, [Z], or an offset [+hh:mm] or
    [+hhmm]; then the end. *)
Definition es5Zone (tokens : list DateToken) (p : DateParts) : Es5Result :=
  let finish (rest : list DateToken) (p : DateParts) :=
    match rest with
    | [] =>
        Es5Rest []
          (set_iso_date
             (match tz_hour p, time_comp p with
              | None, [] => tz_set 0 p
              | _, _ => p
              end))
    | _ :: _ => Es5Invalid
    end in
  match tokens with
  | TKeyword TIME_ZONE_NAME _ 1 :: rest => finish rest (tz_set 0 p)
  | TSymbol c :: rest =>
      if isSign c then
        match rest with
        | TNumber hourmin 4 :: rest' =>
            if isHour (hourmin / 100) && isMinute (hourmin mod 100) then
              finish rest'
                (set_tz (Some (signOf c)) (Some (hourmin / 100)%Z) (Some (hourmin mod 100)%Z) p)
            else Es5Invalid
        | TNumber hour 2 :: TSymbol 58 :: TNumber minute 2 :: rest' =>
            if isHour hour && isMinute minute then
              finish rest' (set_tz (Some (signOf c)) (Some hour) (Some minute) p)
            else Es5Invalid
        | _ => Es5Invalid
        end
      else finish tokens p
  | _ => finish tokens p
  end.

(** The time of a date-time string, after its [T]: [HH:mm], [HH:mm:ss] or
    [HH:mm:ss.sss]; the hour 24 only with zeros after it. *)
Definition es5Time (tokens : list DateToken) (p : DateParts) : Es5Result :=
  match tokens with
  | TNumber hour 2 :: TSymbol 58 :: TNumber minute 2 :: rest =>
      let hour_is_24 := (hour =? 24)%Z in
      if between hour 0 24 && isMinute minute && negb (hour_is_24 && (0 <? minute)%Z) then
        let p := set_time [hour; minute] p in
        match rest with
        | TSymbol 58 :: rest1 =>
            match rest1 with
            | TNumber second 2 :: rest2 =>
                if isSecond second && negb (hour_is_24 && (0 <? second)%Z) then
                  let p := set_time [hour; minute; second] p in
                  match rest2 with
                  | TSymbol 46 :: rest3 =>
                      match rest3 with
                      | TNumber fraction digits :: rest4 =>
                          if hour_is_24 && (0 <? fraction)%Z then Es5Invalid
                          else
                            es5Zone rest4
                              (set_time [hour; minute; second; readMilliseconds fraction digits] p)
                      | _ => Es5Invalid
                      end
                  | _ => es5Zone rest2 p
                  end
                else Es5Invalid
            | _ => Es5Invalid
            end
        | _ => es5Zone rest p
        end
      else Es5Invalid
  | _ => Es5Invalid
  end.

(** After the date: the end, or [T] and a time; anything else is left to the
    legacy rules. *)
Definition es5AfterDate (tokens : list DateToken) (p : DateParts) : Es5Result :=
  match tokens with
  | TKeyword TIME_SEPARATOR _ _ :: rest => es5Time rest p
  | [] => es5Zone [] p
  | _ :: _ => Es5Rest tokens p
  end.

(** After the year: [-MM] and [-DD], each optional. *)
Definition es5AfterYear (tokens : list DateToken) (p : DateParts) : Es5Result :=
  match tokens with
  | TSymbol 45 :: rest =>
      match rest with
      | TNumber month 2 :: rest1 =>
          if isMonth month then
            let p := set_day (day_comp p ++ [month]) p in
            match rest1 with
            | TSymbol 45 :: rest2 =>
                match rest2 with
                | TNumber day 2 :: rest3 =>
                    if isDay day then es5AfterDate rest3 (set_day (day_comp p ++ [day]) p)
                    else Es5Rest rest2 p
                | _ => Es5Rest rest2 p
                end
            | _ => es5AfterDate rest1 p
            end
          else Es5Rest rest p
      | _ => Es5Rest rest p
      end
  | _ => es5AfterDate tokens p
  end.

(** [ParseES5DateTime]: a year of four digits, or of six with a sign. *)
Definition parseES5DateTime (tokens : list DateToken) : Es5Result :=
  match tokens with
  | TSymbol c :: rest =>
      if isSign c then
        match rest with
        | TNumber year 6 :: rest' =>
            if (signOf c <? 0)%Z && (year =? 0)%Z then Es5Rest (TUnknown :: rest') noParts
            else es5AfterYear rest' (set_day [signOf c * year]%Z noParts)
        | _ => Es5Rest tokens noParts
        end
      else Es5Rest tokens noParts
  | TNumber year 4 :: rest => es5AfterYear rest (set_day [year] noParts)
  | _ => Es5Rest tokens noParts
  end.

Definition skipSymbol (c : N) (tokens : list DateToken) : list DateToken :=
  match tokens with
  | TSymbol d :: rest => if d =? c then rest else tokens
  | _ => tokens
  end.

(** What may follow a time that a number has just completed. *)
Definition mayFollowTime (tokens : list DateToken) : bool :=
  match tokens with
  | [] => true
  | TWhiteSpace :: _ => true
  | TKeyword TIME_ZONE_NAME _ 1 :: _ => true
  | TSymbol c :: _ => isSign c
  | _ => false
  end.

(** The loop of the legacy rules over the tokens that are left. *)
Fixpoint legacyDate (fuel : nat) (tokens : list DateToken) (p : DateParts) : option DateParts :=
  match fuel with
  | O => None
  | S fuel' =>
      match tokens with
      | [] => Some p
      | TNumber n digits :: rest =>
          let p := set_read_number p in
          match rest with
          | TSymbol 58 :: TSymbol 58 :: rest' =>
              match time_comp p with
              | [] => legacyDate fuel' rest' (set_time [n; 0%Z] p)
              | _ :: _ => None
              end
          | TSymbol 58 :: rest' =>
              match time_add n p with
              | Some p' => legacyDate fuel' (skipSymbol 46 rest') p'
              | None => None
              end
          | _ =>
              let dot := match rest with TSymbol 46 :: _ => true | _ => false end in
              let rest := skipSymbol 46 rest in
              if dot && time_is_expecting n p then
                match time_add n p, rest with
                | Some p', TNumber fraction digits' :: rest' =>
                    legacyDate fuel' rest'
                      (default p' (time_add_final (readMilliseconds fraction digits') p'))
                | _, _ => None
                end
              else if tz_is_expecting n p then
                legacyDate fuel' rest (set_tz (tz_sign p) (tz_hour p) (Some n) p)
              else if time_is_expecting n p then
                match time_add_final n p with
                | Some p' => if mayFollowTime rest then legacyDate fuel' rest p' else None
                | None => None
                end
              else
                match day_add n p with
                | Some p' => legacyDate fuel' (skipSymbol 45 rest) p'
                | None => None
                end
          end
      | TKeyword type value letters :: rest =>
          match type, time_comp p with
          | AM_PM, _ :: _ => legacyDate fuel' rest (set_hour_offset value p)
          | MONTH_NAME, _ => legacyDate fuel' (skipSymbol 45 rest) (set_named_month value p)
          | _, _ =>
              match type, has_read_number p with
              | TIME_ZONE_NAME, true => legacyDate fuel' rest (tz_set value p)
              | _, true => None
              | _, false =>
                  match rest with
                  | TNumber _ _ :: _ => None
                  | _ => legacyDate fuel' rest p
                  end
              end
          end
      | TSymbol c :: rest =>
          if isSign c && (tz_is_utc p || negb (length (time_comp p) =? 0)%nat) then
            let '(n, digits, rest) :=
              match rest with
              | TNumber n digits :: rest' => (n, digits, rest')
              | _ => (0%Z, 0%nat, rest)
              end in
            let p := set_read_number p in
            match rest with
            | TSymbol 58 :: _ =>
                legacyDate fuel' rest (set_tz (Some (signOf c)) (Some n) None p)
            | _ =>
                match digits with
                | 1%nat | 2%nat =>
                    legacyDate fuel' rest (set_tz (Some (signOf c)) (Some n) (Some 0%Z) p)
                | 3%nat | 4%nat =>
                    legacyDate fuel' rest
                      (set_tz (Some (signOf c)) (Some (n / 100)%Z) (Some (n mod 100)%Z) p)
                | _ => None
                end
            end
          else if (isSign c || (c =? 41)) && has_read_number p then None
          else legacyDate fuel' rest p
      | _ :: rest => legacyDate fuel' rest p
      end
  end.

(** [DayComposer::Write]: the year, the month and the day of the numbers
    read, in the order the legacy rules guess. The numbers that are missing
    are 1; a year below 50 is of this century, one below 100 of the last. *)
Definition day_write (p : DateParts) : option (Z * Z * Z) :=
  match day_comp p with
  | [] => None
  | _ :: _ =>
      let comp := day_comp p ++ repeat 1%Z (3 - length (day_comp p)) in
      let c0 := nth 0 comp 1%Z in
      let c1 := nth 1 comp 1%Z in
      let c2 := nth 2 comp 1%Z in
      let '(year, month, day) :=
        match named_month p with
        | None => if is_iso_date p || negb (isDay c0) then (c0, c1, c2) else (c2, c0, c1)
        | Some named => if negb (isDay c0) then (c0, named, c1) else (c1, named, c0)
        end in
      let year :=
        if is_iso_date p then year
        else if between year 0 49 then (year + 2000)%Z
        else if between year 50 99 then (year + 1900)%Z
        else year in
      if isMonth month && isDay day then Some (year, month, day) else None
  end.

(** [TimeComposer::Write]: the hour, shifted by [am] or [pm], the minute, the
    second and the millisecond, zero where missing; the hour 24 only with
    zeros after it. *)
Definition time_write (p : DateParts) : option (Z * Z * Z * Z) :=
  let comp := time_comp p ++ repeat 0%Z (4 - length (time_comp p)) in
  let hour := nth 0 comp 0%Z in
  let minute := nth 1 comp 0%Z in
  let second := nth 2 comp 0%Z in
  let millisecond := nth 3 comp 0%Z in
  match
    match hour_offset p with
    | Some offset => if isHour12 hour then Some (hour mod 12 + offset)%Z else None
    | None => Some hour
    end
  with
  | None => None
  | Some hour =>
      if (isHour hour && isMinute minute && isSecond second && isMillisecond millisecond)
         || ((hour =? 24) && (minute =? 0) && (second =? 0) && (millisecond =? 0))%Z
      then Some (hour, minute, second, millisecond)
      else None
  end.

(** [TimeZoneComposer::Write]: the offset in seconds, when the string names
    a zone. The seconds are counted in 32 bits and must fit a small integer. *)
Definition tz_write (p : DateParts) : option (option Z) :=
  match tz_sign p with
  | None => Some None
  | Some sign =>
      let total := ((default 0 (tz_hour p) * 3600 + default 0 (tz_minute p) * 60)
                    mod 4294967296)%Z in
      if (total <=? 2147483647)%Z then Some (Some (sign * total)%Z) else None
  end.

(** [MakeDay(year, month, 1)]: the days from the first of January 1970 to
    the first of the month. *)
Definition daysFromYear (y : Z) : Z :=
  (365 * y + y / 4 - y / 100 + y / 400)%Z.

Definition isLeapYear (y : Z) : bool :=
  ((y mod 4 =? 0) && (negb (y mod 100 =? 0) || (y mod 400 =? 0)))%Z.

Definition dayFromMonth (leap : bool) (month : Z) : Z :=
  nth (Z.to_nat (month - 1))
    (if leap then [0; 31; 60; 91; 121; 152; 182; 213; 244; 274; 305; 335]
     else [0; 31; 59; 90; 120; 151; 181; 212; 243; 273; 304; 334])%Z 0%Z.

Definition makeDay (year month day : Z) : option Z :=
  if between year (-1000000) 1000000 then
    Some (daysFromYear (year + 399999) - daysFromYear (1970 + 399999)
          + dayFromMonth (isLeapYear year) month - 1 + day)%Z
  else None.

(** [Date.parse(raw)]: the time value in milliseconds, or nothing for
    [NaN]. The time value is clipped at 8.64e15 milliseconds either way. *)
Definition Date_parse (raw : jsstring) : option Z :=
  match parseES5DateTime (dateTokens (S (length raw)) raw) with
  | Es5Invalid => None
  | Es5Rest rest p =>
      match legacyDate (S (length rest)) rest
              (match day_comp p with [] => p | _ :: _ => set_read_number p end) with
      | None => None
      | Some p =>
          match day_write p, time_write p, tz_write p with
          | Some (year, month, day), Some (hour, minute, second, millisecond), Some offset =>
              match makeDay year month day with
              | Some days =>
                  let date :=
                    (days * 86400000 + hour * 3600000 + minute * 60000 + second * 1000
                     + millisecond - default 0 offset * 1000)%Z in
                  if (Z.abs date <=? 8640000000000000)%Z then Some date else None
              | None => None
              end
          | _, _, _ => None
          end
      end
  end.

(** ** A world in memory

    The files and the directories by their path, the standard input, the
    working directory and the clock. A path is the name of one file: two
    names of the same file (a relative and an absolute one, or the names a
    link gives) are not told apart from two files. A file can be written
    where its directory exists; [mkdirSync] is called as the source calls
    it, with [recursive], and makes the directories above as well. The
    clock is read once in a run and stands for the time of that run. *)

Record MemWorld := {
  mw_files : gmap jsstring jsstring;
  mw_dirs : gset jsstring;
  mw_stdin : jsstring;
  mw_cwd : jsstring;
  mw_clock : UtcTime;
}.

(** The world with other files, and the world at another time. *)
Definition mem_with_files (files : gmap jsstring jsstring) (w : MemWorld) : MemWorld :=
  {| mw_files := files; mw_dirs := mw_dirs w; mw_stdin := mw_stdin w; mw_cwd := mw_cwd w;
     mw_clock := mw_clock w |}.

Definition mem_at (clock : UtcTime) (w : MemWorld) : MemWorld :=
  {| mw_files := mw_files w; mw_dirs := mw_dirs w; mw_stdin := mw_stdin w; mw_cwd := mw_cwd w;
     mw_clock := clock |}.

Definition mem_isFile (w : MemWorld) (p : jsstring) : bool :=
  bool_decide (is_Some (mw_files w !! p)).

Definition mem_readFileSync (w : MemWorld) (source : Source) : SysError + jsstring :=
  match source with
  | FromStdin => inr (mw_stdin w)
  | FromPath p =>
      match mw_files w !! p with
      | Some text => inr text
      | None =>
          inl (if bool_decide (p ∈ mw_dirs w) then EISDIR
               else if existsb (mem_isFile w) (mem_ancestors (length p) p) then ENOTDIR
               else ENOENT)
      end
  end.

Definition mem_existsSync (w : MemWorld) (p : jsstring) : bool :=
  bool_decide (is_Some (mw_files w !! p)) || bool_decide (p ∈ mw_dirs w).

(** [fs.mkdirSync(p, { recursive: true })] *)
Definition mem_mkdirSync (w : MemWorld) (p : jsstring) : MemWorld * option SysError :=
  if mem_isFile w p then (w, Some EEXIST)
  else if existsb (mem_isFile w) (mem_ancestors (length p) p) then (w, Some ENOTDIR)
  else ({| mw_files := mw_files w;
           mw_dirs := list_to_set (p :: mem_ancestors (length p) p) ∪ mw_dirs w;
           mw_stdin := mw_stdin w; mw_cwd := mw_cwd w; mw_clock := mw_clock w |}, None).

(** [fs.writeFileSync(p, text, "utf8")]: the file is stored when [p] is no
    directory and the directory of [p] exists. *)
Definition mem_writeFileSync (w : MemWorld) (p text : jsstring) : MemWorld * option SysError :=
  if bool_decide (p ∈ mw_dirs w) then (w, Some EISDIR)
  else if bool_decide (mem_dirname p ∈ mw_dirs w) then
    (mem_with_files (<[ p := text ]> (mw_files w)) w, None)
  else (w, Some (if existsb (mem_isFile w) (mem_ancestors (length p) p) then ENOTDIR
                 else ENOENT)).

Definition mem_resolve (w : MemWorld) (p : jsstring) : jsstring := posix_resolve (mw_cwd w) p.

#[export] Instance MemNode : Node MemWorld := {|
  fs_readFileSync := mem_readFileSync;
  fs_existsSync := mem_existsSync;
  fs_mkdirSync := mem_mkdirSync;
  fs_writeFileSync := mem_writeFileSync;
  path_join := mem_join;
  path_resolve := mem_resolve;
  path_dirname := mem_dirname;
  Date_parse_isNaN := fun raw => negb (bool_decide (is_Some (Date_parse raw)));
  Date_now := mw_clock;
|}.

(** [p] can be written: it is no directory, and its directory exists. *)
Definition mem_writable (w : MemWorld) (p : jsstring) : bool :=
  negb (bool_decide (p ∈ mw_dirs w)) && bool_decide (mem_dirname p ∈ mw_dirs w).

(** The files after the writes of [writeOutputs], one after the other, when
    every write goes through. *)
Definition storeOutputs (byResult : gmap jsstring RosterRow) (outputs : list OutputPlan)
    (testResultIdentifier : jsstring) (testResultDatestamp : option jsstring)
    (itemIds : list jsstring) (files : gmap jsstring jsstring) : gmap jsstring jsstring :=
  fold_left
    (fun files output =>
       match byResult !! Output.resultId output with
       | Some row =>
           <[ Output.path output :=
                buildAssessmentResultXml row testResultIdentifier testResultDatestamp itemIds ]>
             files
       | None => files
       end)
    outputs files.

(** The name of the file planned for a result identifier. *)
Definition outputFileName (resultId : jsstring) : jsstring :=
  lit "assessmentResult-" ++ resultId ++ lit ".xml".

(** ** Examples: a roster, an assessment test and the worlds that hold them *)

Definition clock0 : UtcTime :=
  {| utc_year := 2026; utc_month := 1; utc_day := 27; utc_hours := 1;
     utc_minutes := 0; utc_seconds := 0; utc_milliseconds := 5 |}.

Definition roster_csv : jsstring :=
  lit "candidate_number,candidate_name,candidate_account,result_id
1001, Yamada Taro ,student001@example.com,2001
1002,Sato & Hanako,student002@example.com,
".

(** The same roster with a blank row between its two data rows. *)
Definition roster_blank_row_csv : jsstring :=
  lit "candidate_number,candidate_name,candidate_account,result_id
1001, Yamada Taro ,student001@example.com,2001

1002,Sato & Hanako,student002@example.com,
".

(** A roster whose second result identifier holds slashes and a double dot. *)
Definition roster_paths_csv : jsstring :=
  lit "candidate_number,candidate_name,candidate_account,result_id
1001,Yamada Taro,student001@example.com,7
1002,Sato Hanako,student002@example.com,x/../assessmentResult-7
".

(** The same roster with a row of separators alone between its data rows. *)
Definition roster_empty_cells_csv : jsstring :=
  lit "candidate_number,candidate_name,candidate_account,result_id
1001, Yamada Taro ,student001@example.com,2001
,,,
1002,Sato & Hanako,student002@example.com,
".

Definition assessment_test_xml : jsstring :=
  lit "<qti-assessment-test identifier=" ++ dq ++ lit "test" ++ dq ++ lit ">
  <qti-assessment-item-ref identifier=" ++ dq ++ lit "item-001" ++ dq
  ++ lit " href=" ++ dq ++ lit "item-001.qti.xml" ++ dq ++ lit " />
  <qti-assessment-item-ref identifier=" ++ dq ++ lit "item-002" ++ dq
  ++ lit " href=" ++ dq ++ lit "item-002.qti.xml" ++ dq ++ lit " />
</qti-assessment-test>
".

(** An assessment test whose second item reference has the empty identifier. *)
Definition assessment_test_empty_id_xml : jsstring :=
  lit "<qti-assessment-test identifier=" ++ dq ++ lit "test" ++ dq ++ lit ">
  <qti-assessment-item-ref identifier=" ++ dq ++ lit "item-001" ++ dq
  ++ lit " href=" ++ dq ++ lit "item-001.qti.xml" ++ dq ++ lit " />
  <qti-assessment-item-ref identifier=" ++ dq ++ dq
  ++ lit " href=" ++ dq ++ lit "item-002.qti.xml" ++ dq ++ lit " />
</qti-assessment-test>
".

Definition world0 : MemWorld :=
  {| mw_files := {[ lit "/exam/roster.csv" := roster_csv;
                    lit "/exam/roster-blank.csv" := roster_blank_row_csv;
                    lit "/exam/roster-commas.csv" := roster_empty_cells_csv;
                    lit "/exam/roster-paths.csv" := roster_paths_csv;
                    lit "/exam/test.qti.xml" := assessment_test_xml;
                    lit "/exam/test-empty.qti.xml" := assessment_test_empty_id_xml ]};
     mw_dirs := {[ lit "/"; lit "/exam" ]};
     mw_stdin := [];
     mw_cwd := lit "/exam";
     mw_clock := clock0 |}.

Definition argv_basic : list jsstring :=
  [ lit "--roster"; lit "/exam/roster.csv"; lit "--assessment-test"; lit "/exam/test.qti.xml" ].

(** The command line of the test suite: a datestamp with an offset. *)
Definition argv_datestamp : list jsstring :=
  argv_basic ++ [ lit "--test-result-datestamp"; lit "2026-01-27T10:00:00+09:00" ].

(** The datestamp option given the empty string. *)
Definition argv_empty_datestamp : list jsstring :=
  argv_basic ++ [ lit "--test-result-datestamp"; [] ].

(** A datestamp in words: the name of a month, a day and a year. *)
Definition argv_month_name_datestamp : list jsstring :=
  argv_basic ++ [ lit "--test-result-datestamp"; lit "Jan 27 2026" ].

(** The run over the roster of [roster_paths_csv]. *)
Definition argv_paths : list jsstring :=
  [ lit "--roster"; lit "/exam/roster-paths.csv";
    lit "--assessment-test"; lit "/exam/test.qti.xml" ].

(** The world after a first run has written its files. *)
Definition world1 : MemWorld := fst (main argv_basic world0).

Definition row_1001 : RosterRow :=
  {| candidateNumber := lit "1001"; candidateName := lit "Yamada Taro";
     candidateAccount := Some (lit "student001@example.com"); candidateId := None;
     resultId := lit "2001" |}.

Definition row_7 : RosterRow :=
  {| candidateNumber := lit "1001"; candidateName := lit "Yamada Taro";
     candidateAccount := Some (lit "student001@example.com"); candidateId := None;
     resultId := lit "7" |}.

Definition row_x7 : RosterRow :=
  {| candidateNumber := lit "1002"; candidateName := lit "Sato Hanako";
     candidateAccount := Some (lit "student002@example.com"); candidateId := None;
     resultId := lit "x/../assessmentResult-7" |}.

Definition row_1002 : RosterRow :=
  {| candidateNumber := lit "1002"; candidateName := lit "Sato & Hanako";
     candidateAccount := Some (lit "student002@example.com"); candidateId := None;
     resultId := lit "1002" |}.

(** ** The errors of each step

    The taxonomy of the specification: which errors the roster reader, the
    item extractor, the conflict check and the write loop may end with. An
    error of the file system may come from any of them. *)

Definition rosterError (e : Error) : bool :=
  match e with
  | FsError _ | CsvParseError _ | RosterCsvEmpty | MissingCandidateNumber _
  | CandidateNumberWithoutDigit | MissingCandidateName _ | MissingResultId _
  | DuplicateResultId _ => true
  | _ => false
  end.

Definition itemError (e : Error) : bool :=
  match e with
  | FsError _ | NoAssessmentItemRefs | EmptyItemIdentifier | DuplicateItemIdentifier _ => true
  | _ => false
  end.

Definition conflictError (e : Error) : bool :=
  match e with
  | FsError _ | OutputFileExists _ => true
  | _ => false
  end.

Definition writeError (e : Error) : bool :=
  match e with
  | FsError _ | MissingRosterRow _ => true
  | _ => false
  end.

(** ** The layout of a rendered document

    The lines of [buildAssessmentResultXml] are tags, one to a line, after
    an indentation. The inside of each tag, by the template that wrote it. *)

(** What [escapeXml] makes of one character. *)
Definition escapeChar (c : N) : jsstring :=
  if c =? 38 then lit "&amp;"
  else if c =? 60 then lit "&lt;"
  else if c =? 62 then lit "&gt;"
  else if c =? 34 then lit "&quot;"
  else if c =? 39 then lit "&apos;"
  else [c].

(** A character that neither opens nor closes a tag nor ends a value. *)
Definition plainChar (c : N) : bool :=
  negb (c =? 60) && negb (c =? 62) && negb (c =? 34).

Definition tagLine (tag : jsstring * jsstring) : jsstring :=
  fst tag ++ 60 :: snd tag ++ [62].

Definition sessionIdentifierTag (sourceID : string) (value : jsstring) : jsstring * jsstring :=
  (lit "    ",
   lit "sessionIdentifier sourceID=" ++ dq ++ lit sourceID ++ dq
   ++ lit " identifier=" ++ dq ++ escapeXml value ++ dq ++ lit " /").

Definition headerTags (row : RosterRow) : list (jsstring * jsstring) :=
  [ ([], lit "?xml version=" ++ dq ++ lit "1.0" ++ dq
         ++ lit " encoding=" ++ dq ++ lit "UTF-8" ++ dq ++ lit "?");
    ([], lit "assessmentResult xmlns=" ++ dq ++ RESULTS_NAMESPACE ++ dq
         ++ lit " xmlns:xsi=" ++ dq ++ XSI_NAMESPACE ++ dq
         ++ lit " xsi:schemaLocation=" ++ dq ++ SCHEMA_LOCATION ++ dq);
    (lit "  ", lit "context sourcedId=" ++ dq ++ escapeXml (candidateNumber row) ++ dq);
    sessionIdentifierTag "candidateName" (candidateName row) ]
  ++ (if truthy (candidateId row)
      then [ sessionIdentifierTag "candidateId" (default [] (candidateId row)) ]
      else [])
  ++ (if truthy (candidateAccount row)
      then [ sessionIdentifierTag "candidateAccount" (default [] (candidateAccount row)) ]
      else [])
  ++ [ (lit "  ", lit "/context") ].

Definition testResultTag (testResultIdentifier : jsstring)
    (testResultDatestamp : option jsstring) : jsstring :=
  if truthy testResultDatestamp then
    lit "testResult identifier=" ++ dq ++ escapeXml testResultIdentifier ++ dq
    ++ lit " datestamp=" ++ dq ++ escapeXml (default [] testResultDatestamp) ++ dq
    ++ lit " /"
  else
    lit "testResult identifier=" ++ dq ++ escapeXml testResultIdentifier ++ dq ++ lit " /".

Definition itemResultTag (testResultDatestamp : option jsstring) (itemId : jsstring)
    (sequenceIndex : N) : jsstring :=
  if truthy testResultDatestamp then
    lit "itemResult identifier=" ++ dq ++ escapeXml itemId ++ dq
    ++ lit " sequenceIndex=" ++ dq ++ Number_toString sequenceIndex ++ dq
    ++ lit " datestamp=" ++ dq ++ escapeXml (default [] testResultDatestamp) ++ dq
    ++ lit " sessionStatus=" ++ dq ++ lit "final" ++ dq ++ lit " /"
  else
    lit "itemResult identifier=" ++ dq ++ escapeXml itemId ++ dq
    ++ lit " sequenceIndex=" ++ dq ++ Number_toString sequenceIndex ++ dq
    ++ lit " sessionStatus=" ++ dq ++ lit "final" ++ dq ++ lit " /".

Fixpoint itemResultTags (testResultDatestamp : option jsstring) (itemIds : list jsstring)
    (index : N) : list jsstring :=
  match itemIds with
  | [] => []
  | itemId :: itemIds' =>
      itemResultTag testResultDatestamp itemId (index + 1)
      :: itemResultTags testResultDatestamp itemIds' (index + 1)
  end.

Definition documentTags (row : RosterRow) (testResultIdentifier : jsstring)
    (testResultDatestamp : option jsstring) (itemIds : list jsstring)
    : list (jsstring * jsstring) :=
  headerTags row
  ++ [ (lit "  ", testResultTag testResultIdentifier testResultDatestamp) ]
  ++ map (pair (lit "  ")) (itemResultTags testResultDatestamp itemIds 0)
  ++ [ ([], lit "/assessmentResult") ].

(** The attribute [datestamp] that the elements of a run carry. *)
Definition datestampAttrs (testResultDatestamp : option jsstring) : list (jsstring * jsstring) :=
  if truthy testResultDatestamp then [ (lit "datestamp", default [] testResultDatestamp) ]
  else [].

(** A character that neither opens nor closes a tag. *)
Definition noAngle (c : N) : bool := negb (c =? 60) && negb (c =? 62).

(** A tag the reader finds whole: no [<] before it on its line, and neither
    [<] nor [>] inside it. *)
Definition tagOk (tag : jsstring * jsstring) : bool :=
  forallb (fun c => negb (c =? 60)) (fst tag) && forallb noAngle (snd tag).

(** The number of capturing groups of a pattern. *)
Fixpoint groupsOf (ps : list Piece) : nat :=
  match ps with
  | [] => 0
  | PGroup _ _ :: ps' => S (groupsOf ps')
  | _ :: ps' => groupsOf ps'
  end.

(** The number a decimal numeral stands for. *)
Definition unlit (s : jsstring) : string :=
  fold_right (fun c r => String (ascii_of_N c) r) EmptyString s.

Definition parseDecimal (s : jsstring) : option N :=
  N.of_uint <$> NilZero.uint_of_string (unlit s).

(** ** The vocabulary of the further properties *)

(** The five characters that [escapeXml] replaces. *)
Definition isReserved (c : N) : bool :=
  (c =? 38) || (c =? 60) || (c =? 62) || (c =? 34) || (c =? 39).

(** The options that [parseArgs] knows. *)
Definition knownOptions : list jsstring :=
  map lit [ "--help"; "-h"; "--version"; "-V"; "--roster"; "--assessment-test";
            "--test-result-identifier"; "--test-result-datestamp"; "--output";
            "--dry-run"; "--json"; "--force"; "--yes"; "--quiet"; "--verbose" ]%string.

Definition isKnownOption (arg : jsstring) : bool := existsb (streq arg) knownOptions.

(** What [readRosterCsv] checks of a row before it pushes it. *)
Definition rowValid (row : RosterRow) : Prop :=
  candidateNumber row <> []
  /\ test_digit (candidateNumber row) = true
  /\ candidateName row <> []
  /\ candidateAccount row <> Some []
  /\ candidateId row <> Some []
  /\ resultId row <> [].

(** What an error of the loop of [readRosterCsv] says of the records: the
    row it names, or the two rows that share a result identifier. *)
Definition rosterErrorSays (records : list CsvRecord) (e : Error) : Prop :=
  match e with
  | MissingCandidateNumber row =>
      exists i record,
        row = N.of_nat i + 2 /\ records !! i = Some record
        /\ truthy (trimmed_cell record "candidate_number") = false
  | MissingCandidateName row =>
      exists i record,
        row = N.of_nat i + 2 /\ records !! i = Some record
        /\ truthy (trimmed_cell record "candidate_name") = false
  | CandidateNumberWithoutDigit =>
      exists i record number,
        records !! i = Some record
        /\ trimmed_cell record "candidate_number" = Some number
        /\ test_digit number = false
  | DuplicateResultId rid =>
      exists i j first second,
        (i < j)%nat /\ records !! i = Some first /\ records !! j = Some second
        /\ specResultId first = rid /\ specResultId second = rid
  | _ => True
  end.

(** [p] occurs somewhere in [s]. *)
Fixpoint occursIn (p s : jsstring) : bool :=
  startsWith p s ||
  match s with
  | [] => false
  | _ :: s' => occursIn p s'
  end.

(** A character that is no quote of either kind. *)
Definition noQuote (c : N) : bool := negb ((c =? 34) || (c =? 39)).

(** ** The structure of a document

    What [buildAssessmentResultXml] means to write, as elements: the XML
    declaration, the root with its name spaces, the context with the
    session identifiers of the candidate, the test result, one item result
    per item, and the two closing tags. *)

Definition xmlElement (name : string) (attrs : list (string * jsstring)) : XmlElement :=
  {| tagName := lit name; attributes := map (fun kv => (lit (fst kv), snd kv)) attrs |}.

Definition sessionIdentifierElement (sourceID : string) (value : jsstring) : XmlElement :=
  xmlElement "sessionIdentifier" [ ("sourceID", lit sourceID); ("identifier", value) ]%string.

Definition itemResultElement (testResultDatestamp : option jsstring) (itemId : jsstring)
    (sequenceIndex : N) : XmlElement :=
  {| tagName := lit "itemResult";
     attributes :=
       (lit "identifier", itemId) :: (lit "sequenceIndex", Number_toString sequenceIndex)
       :: datestampAttrs testResultDatestamp ++ [ (lit "sessionStatus", lit "final") ] |}.

Definition documentElements (row : RosterRow) (testResultIdentifier : jsstring)
    (testResultDatestamp : option jsstring) (itemIds : list jsstring) : list XmlElement :=
  [ xmlElement "?xml" [ ("version", lit "1.0"); ("encoding", lit "UTF-8") ]%string;
    xmlElement "assessmentResult"
      [ ("xmlns", RESULTS_NAMESPACE); ("xmlns:xsi", XSI_NAMESPACE);
        ("xsi:schemaLocation", SCHEMA_LOCATION) ]%string;
    xmlElement "context" [ ("sourcedId", candidateNumber row) ]%string;
    sessionIdentifierElement "candidateName" (candidateName row) ]
  ++ (if truthy (candidateId row)
      then [ sessionIdentifierElement "candidateId" (default [] (candidateId row)) ]
      else [])
  ++ (if truthy (candidateAccount row)
      then [ sessionIdentifierElement "candidateAccount" (default [] (candidateAccount row)) ]
      else [])
  ++ [ xmlElement "/context" [];
       {| tagName := lit "testResult";
          attributes := (lit "identifier", testResultIdentifier)
                        :: datestampAttrs testResultDatestamp |} ]
  ++ imap (fun i itemId => itemResultElement testResultDatestamp itemId (N.of_nat (S i))) itemIds
  ++ [ xmlElement "/assessmentResult" [] ].
(** [s] holds no slash. *)
Definition noSlash (s : jsstring) : bool := forallb (fun c => negb (c =? 47)) s.


(** * Properties *)

#[global] Arguments lit : simpl never.
#[global] Arguments escapeXml : simpl never.
#[global] Arguments Number_toString : simpl never.

(** ** Strings *)

Lemma dropWhile_head (p : N -> bool) (s : jsstring) :
  from_option p false (head (dropWhile p s)) = false.
Proof.
  induction s as [|c s IH]; simpl; [reflexivity|].
  destruct (p c) eqn:E; [exact IH | simpl; exact E].
Qed.

Lemma dropWhile_suffix (p : N -> bool) (s : jsstring) :
  exists k, s = k ++ dropWhile p s.
Proof.
  induction s as [|c s [k IH]]; simpl.
  - exists []. reflexivity.
  - destruct (p c).
    + exists (c :: k). simpl. f_equal. exact IH.
    + exists []. reflexivity.
Qed.

Lemma last_rev_head (s : jsstring) : last (rev s) = head s.
Proof.
  destruct s as [|c s]; simpl; [reflexivity|]. apply last_snoc.
Qed.

Lemma trimEnd_last (s : jsstring) :
  from_option isWhiteSpace false (last (trimEnd s)) = false.
Proof.
  unfold trimEnd. rewrite last_rev_head. apply dropWhile_head.
Qed.

(** [trimEnd] keeps the first character of what it leaves. *)
Lemma trimEnd_head (s : jsstring) :
  head (trimEnd s) = None \/ head (trimEnd s) = head s.
Proof.
  unfold trimEnd.
  destruct (dropWhile_suffix isWhiteSpace (rev s)) as [k Hk].
  assert (Hs : s = rev (dropWhile isWhiteSpace (rev s)) ++ rev k).
  { rewrite <- (rev_involutive s) at 1. rewrite Hk at 1. apply rev_app_distr. }
  destruct (rev (dropWhile isWhiteSpace (rev s))) as [|c t] eqn:E.
  - left. reflexivity.
  - right. rewrite Hs. reflexivity.
Qed.

Lemma trim_noEdgeWhiteSpace (s : jsstring) : noEdgeWhiteSpace (trim s).
Proof.
  unfold noEdgeWhiteSpace, trim. split.
  - destruct (trimEnd_head (trimStart s)) as [-> | ->]; [reflexivity|].
    apply dropWhile_head.
  - apply trimEnd_last.
Qed.

Lemma trimmed_cell_noEdgeWhiteSpace (record : CsvRecord) (key : string) (v : jsstring) :
  trimmed_cell record key = Some v -> noEdgeWhiteSpace v.
Proof.
  unfold trimmed_cell. destruct (record_get record (lit key)); simpl; [|discriminate].
  intros [= <-]. apply trim_noEdgeWhiteSpace.
Qed.

Lemma or_undefined_noEdgeWhiteSpace (record : CsvRecord) (key : string) :
  from_option noEdgeWhiteSpace True (or_undefined (trimmed_cell record key)).
Proof.
  unfold or_undefined. destruct (truthy (trimmed_cell record key)); [|exact I].
  destruct (trimmed_cell record key) eqn:E; simpl; [|exact I].
  eapply trimmed_cell_noEdgeWhiteSpace, E.
Qed.

(** ** The roster reader *)

(** One step of the loop of [readRosterCsv]: what it takes for a record to be
    pushed, and the row that is pushed for it. *)
Lemma readRosterCsv_forEach_cons record records index rows seen out :
  readRosterCsv_forEach (record :: records) index rows seen = Ok out ->
  exists number name rid,
    trimmed_cell record "candidate_number" = Some number
    /\ trimmed_cell record "candidate_name" = Some name
    /\ or_else (trimmed_cell record "result_id") (Some number) = Some rid
    /\ rid <> [] /\ (rid ∉ seen)
    /\ readRosterCsv_forEach records (index + 1)
         (rows ++ [ {| candidateNumber := number; candidateName := name;
                       candidateAccount := or_undefined (trimmed_cell record "candidate_account");
                       candidateId := or_undefined (trimmed_cell record "candidate_id");
                       resultId := rid |} ])
         ({[ rid ]} ∪ seen) = Ok out.
Proof.
  simpl.
  destruct (trimmed_cell record "candidate_number") as [[|c number]|]; try discriminate.
  destruct (test_digit (c :: number)); simpl; try discriminate.
  destruct (trimmed_cell record "candidate_name") as [[|d name]|]; try discriminate.
  destruct (or_else (trimmed_cell record "result_id") (Some (c :: number)))
    as [[|e rid]|] eqn:Hrid; try discriminate.
  case_bool_decide as Hseen; try discriminate.
  intros Hout. exists (c :: number), (d :: name), (e :: rid).
  repeat split; try reflexivity; try assumption. discriminate.
Qed.

Lemma or_else_specResultId record number rid :
  trimmed_cell record "candidate_number" = Some number ->
  or_else (trimmed_cell record "result_id") (Some number) = Some rid ->
  rid = specResultId record.
Proof.
  unfold trimmed_cell, specResultId, or_else. intros Hn.
  rewrite Hn. simpl.
  destruct (trim <$> record_get record (lit "result_id")) as [[|c s]|]; simpl; congruence.
Qed.

(** The rows pushed by the loop: one per record, in order, each with the
    result identifier of its record and all its fields trimmed. *)
Lemma readRosterCsv_forEach_rows records : forall index rows seen out,
  readRosterCsv_forEach records index rows seen = Ok out ->
  exists pushed,
    out = rows ++ pushed
    /\ Forall2 (fun record row => resultId row = specResultId record) records pushed
    /\ Forall rowTrimmed pushed.
Proof.
  induction records as [|record records IH]; intros index rows seen out Hout.
  - simpl in Hout. injection Hout as <-. exists []. rewrite app_nil_r. auto.
  - apply readRosterCsv_forEach_cons in Hout
      as (number & name & rid & Hnum & Hname & Hrid & _ & _ & Hout).
    apply IH in Hout as (pushed & -> & Hids & Htrim).
    eexists (_ :: pushed). split; [rewrite <- app_assoc; reflexivity|]. split.
    + constructor; [|exact Hids]. simpl. eapply or_else_specResultId; eassumption.
    + constructor; [|exact Htrim]. unfold rowTrimmed; simpl.
      split; [|split; [|split; [|split]]].
      * eapply trimmed_cell_noEdgeWhiteSpace, Hnum.
      * eapply trimmed_cell_noEdgeWhiteSpace, Hname.
      * apply or_undefined_noEdgeWhiteSpace.
      * apply or_undefined_noEdgeWhiteSpace.
      * rewrite (or_else_specResultId _ _ _ Hnum Hrid). unfold specResultId.
        destruct (trim <$> record_get record (lit "result_id")) as [[|c s]|] eqn:E.
        -- unfold trimmed_cell in Hnum. rewrite Hnum. simpl.
           eapply trimmed_cell_noEdgeWhiteSpace, Hnum.
        -- eapply (trimmed_cell_noEdgeWhiteSpace record "result_id"), E.
        -- unfold trimmed_cell in Hnum. rewrite Hnum. simpl.
           eapply trimmed_cell_noEdgeWhiteSpace, Hnum.
Qed.

(** The records that [readRosterCsv] read its rows from. *)
Lemma readRosterCsv_records {W} `{Node W} (w : W) rosterPath rows :
  readRosterCsv w rosterPath = Ok rows ->
  exists csvText records,
    readText w (if rosterPath === lit "-" then FromStdin else FromPath rosterPath) = Ok csvText
    /\ parseCsv csvText = Ok records
    /\ readRosterCsv_forEach records 0 [] ∅ = Ok rows.
Proof.
  unfold readRosterCsv.
  destruct (readText w _) as [csvText|] eqn:Htext; cbn [rbind]; [|discriminate].
  destruct (parseCsv csvText) as [[|record records]|] eqn:Hcsv; cbn [rbind];
    try discriminate.
  intros Hrows. exists csvText, (record :: records). auto.
Qed.

Section RosterAndPlan.
Context {W : Type} `{Node W}.

(** C9. Every field of every row that [readRosterCsv] returns has white space
    neither at its start nor at its end: the reader trims every cell it
    reads ([candidate_number], [candidate_name], [candidate_account],
    [candidate_id] and [result_id]), not only [result_id]. *)
Theorem readRosterCsv_rows_trimmed (w : W) (rosterPath : jsstring) (rows : list RosterRow) :
  readRosterCsv w rosterPath = Ok rows -> Forall rowTrimmed rows.
Proof.
  intros Hrows.
  apply readRosterCsv_records in Hrows as (csvText & records & _ & _ & Hloop).
  apply readRosterCsv_forEach_rows in Hloop as (pushed & -> & _ & Htrim).
  exact Htrim.
Qed.

Lemma buildOutputPlan_Forall2 (outputDir : jsstring) (rows : list RosterRow) :
  Forall2 (fun row output =>
             Output.resultId output = resultId row
             /\ Output.path output =
                  path_join outputDir (lit "assessmentResult-" ++ resultId row ++ lit ".xml"))
          rows (buildOutputPlan outputDir rows).
Proof.
  induction rows as [|row rows IH]; simpl; constructor; auto.
Qed.

(** What holds of the plan for every roster that [readRosterCsv] accepts: it
    has one entry per record of the CSV, in the order of the rows; the
    result identifier of an entry is the trimmed [result_id] of the record
    if that is not empty and its [candidate_number] otherwise; and the path
    of an entry is what [path.join] makes of the output directory and the
    name [assessmentResult-<resultId>.xml]. *)
Lemma buildOutputPlan_of_roster (w : W) (rosterPath outputDir : jsstring)
    (rows : list RosterRow) :
  readRosterCsv w rosterPath = Ok rows ->
  exists csvText records,
    readText w (if rosterPath === lit "-" then FromStdin else FromPath rosterPath) = Ok csvText
    /\ parseCsv csvText = Ok records
    /\ length (buildOutputPlan outputDir rows) = length records
    /\ map Output.resultId (buildOutputPlan outputDir rows) = map specResultId records
    /\ Forall2 (fun record output =>
                  Output.path output =
                    path_join outputDir
                      (lit "assessmentResult-" ++ specResultId record ++ lit ".xml"))
               records (buildOutputPlan outputDir rows).
Proof.
  intros Hrows.
  apply readRosterCsv_records in Hrows as (csvText & records & Htext & Hcsv & Hloop).
  exists csvText, records. split; [exact Htext|]. split; [exact Hcsv|].
  apply readRosterCsv_forEach_rows in Hloop as (pushed & -> & Hids & _).
  rewrite app_nil_l.
  assert (Hplan := buildOutputPlan_Forall2 outputDir pushed).
  assert (Hboth :
    Forall2 (fun record output =>
               Output.resultId output = specResultId record
               /\ Output.path output =
                    path_join outputDir
                      (lit "assessmentResult-" ++ specResultId record ++ lit ".xml"))
            records (buildOutputPlan outputDir pushed)).
  { clear Htext Hcsv. revert Hplan. generalize (buildOutputPlan outputDir pushed) as plan.
    induction Hids as [|record row records pushed Hid Hids IH]; intros plan Hplan.
    - inversion Hplan. constructor.
    - inversion Hplan as [|? output ? plan' [Hr Hp] Hrest]; subst.
      constructor; [|apply IH, Hrest].
      rewrite Hr, Hp, Hid. split; reflexivity. }
  split; [|split].
  - symmetry. eapply Forall2_length. exact Hboth.
  - clear Hplan Htext Hcsv Hids. revert Hboth.
    generalize (buildOutputPlan outputDir pushed) as plan. intros plan Hboth.
    induction Hboth as [|? ? ? ? [Hr _] _ IH]; simpl; [reflexivity|].
    rewrite Hr, IH. reflexivity.
  - eapply Forall2_impl; [exact Hboth|]. simpl. intros ? ? [_ Hp]. exact Hp.
Qed.

End RosterAndPlan.

(** The rows of the example roster, the spaces around a name gone. *)
Lemma readRosterCsv_rows_trimmed_witness :
  readRosterCsv world0 (lit "/exam/roster.csv") = Ok [row_1001; row_1002]
  /\ Forall rowTrimmed [row_1001; row_1002].
Proof.
  split.
  - vm_compute. reflexivity.
  - apply (readRosterCsv_rows_trimmed world0 (lit "/exam/roster.csv")).
    vm_compute. reflexivity.
Defined.

(** The plan of the example roster. *)
Lemma buildOutputPlan_of_roster_witness :
  exists csvText records,
    readText world0 (FromPath (lit "/exam/roster.csv")) = Ok csvText
    /\ parseCsv csvText = Ok records
    /\ length (buildOutputPlan (W:=MemWorld) (lit "/out") [row_1001; row_1002]) = length records
    /\ map Output.resultId (buildOutputPlan (W:=MemWorld) (lit "/out") [row_1001; row_1002])
       = map specResultId records
    /\ Forall2 (fun record output =>
                  Output.path output =
                    mem_join (lit "/out")
                      (lit "assessmentResult-" ++ specResultId record ++ lit ".xml"))
               records (buildOutputPlan (W:=MemWorld) (lit "/out") [row_1001; row_1002]).
Proof.
  exact (buildOutputPlan_of_roster (H:=MemNode) world0 (lit "/exam/roster.csv") (lit "/out")
           [row_1001; row_1002] ltac:(vm_compute; reflexivity)).
Defined.

(** ** What [path.join] does to the name of a file *)

Lemma splitSlash_nonempty (s : jsstring) : splitSlash s <> [].
Proof.
  induction s as [|c s IH]; cbn [splitSlash]; [discriminate|].
  destruct (c =? 47); [discriminate|]. destruct (splitSlash s); discriminate.
Qed.

(** A slash ends a segment and starts the next one. *)
Lemma splitSlash_app_slash (a b : jsstring) :
  splitSlash (a ++ 47 :: b) = splitSlash a ++ splitSlash b.
Proof.
  induction a as [|c a IH]; [reflexivity|].
  cbn [app splitSlash]. destruct (c =? 47); [rewrite IH; reflexivity|].
  rewrite IH. destruct (splitSlash a) as [|seg segs] eqn:Hsplit; [|reflexivity].
  exfalso. exact (splitSlash_nonempty a Hsplit).
Qed.

Lemma normalizeSegments_app (allowAboveRoot : bool) (segs1 segs2 : list jsstring) :
  forall res,
  normalizeSegments allowAboveRoot (segs1 ++ segs2) res
  = normalizeSegments allowAboveRoot segs2
      (rev (normalizeSegments allowAboveRoot segs1 res)).
Proof.
  induction segs1 as [|seg segs1 IH]; intros res; cbn [app normalizeSegments].
  - rewrite rev_involutive. reflexivity.
  - repeat match goal with
           | |- context [if ?b then _ else _] => destruct b
           | |- context [match ?l with [] => _ | _ :: _ => _ end] => destruct l
           end; apply IH.
Qed.

(** The strings that [normalize] treats alike: the same first and last
    character and the same segments kept. *)
Lemma posix_normalize_ext (p q : jsstring) :
  head p = head q -> last p = last q -> p <> [] ->
  (forall allowAboveRoot, normalizeString p allowAboveRoot = normalizeString q allowAboveRoot) ->
  posix_normalize p = posix_normalize q.
Proof.
  intros Hhead Hlast Hp Hsegs. destruct p as [|c p]; [congruence|].
  destruct q as [|d q]; [discriminate|]. injection Hhead as <-.
  unfold posix_normalize. rewrite Hlast, Hsegs. reflexivity.
Qed.

(** [path.join] of a directory and a name that is not empty. *)
Lemma mem_join_name (outputDir name : jsstring) :
  name <> [] ->
  mem_join outputDir name
  = posix_normalize (match outputDir with [] => name | _ :: _ => outputDir ++ 47 :: name end).
Proof. destruct outputDir, name; intros Hname; try congruence; reflexivity. Qed.

Lemma outputFileName_last (before rid : jsstring) :
  last (before ++ outputFileName rid) = Some 108.
Proof. unfold outputFileName. rewrite !app_assoc, last_app. reflexivity. Qed.

(** A segment followed by a double dot is taken back: the file name
    [assessmentResult-x/../assessmentResult-<rid>.xml] is joined to any
    directory as [assessmentResult-<rid>.xml] is. *)
Lemma mem_join_takes_back (outputDir rid : jsstring) :
  mem_join outputDir (outputFileName (lit "x/../assessmentResult-" ++ rid))
  = mem_join outputDir (outputFileName rid).
Proof.
  assert (Hname : outputFileName (lit "x/../assessmentResult-" ++ rid)
                  = lit "assessmentResult-x" ++ 47 :: lit ".." ++ 47 :: outputFileName rid)
    by reflexivity.
  assert (Hsegs : forall allowAboveRoot res,
            normalizeSegments allowAboveRoot
              (splitSlash (outputFileName (lit "x/../assessmentResult-" ++ rid))) res
            = normalizeSegments allowAboveRoot (splitSlash (outputFileName rid)) res).
  { intros allowAboveRoot res. rewrite Hname, !splitSlash_app_slash.
    change (splitSlash (lit "assessmentResult-x")) with [lit "assessmentResult-x"].
    change (splitSlash (lit "..")) with [lit ".."].
    cbn [app normalizeSegments].
    change (lit "assessmentResult-x" === []) with false.
    change (lit "assessmentResult-x" === lit ".") with false.
    change (lit "assessmentResult-x" === lit "..") with false.
    change (lit ".." === []) with false.
    change (lit ".." === lit ".") with false.
    change (lit ".." === lit "..") with true.
    cbn [orb]. reflexivity. }
  rewrite !mem_join_name by discriminate.
  destruct outputDir as [|c outputDir].
  - apply posix_normalize_ext; [reflexivity | | discriminate |].
    + transitivity (Some 108); [|symmetry]; apply (outputFileName_last []).
    + intros allowAboveRoot. unfold normalizeString. rewrite Hsegs. reflexivity.
  - apply posix_normalize_ext; [reflexivity | | discriminate |].
    + rewrite !(cons_middle 47 (c :: outputDir)), !(app_assoc (c :: outputDir) [47]).
      transitivity (Some 108); [|symmetry];
        apply (outputFileName_last ((c :: outputDir) ++ [47])).
    + intros allowAboveRoot. unfold normalizeString.
      rewrite !splitSlash_app_slash, !normalizeSegments_app, Hsegs. reflexivity.
Qed.

(** C7. The file name of a planned output is not always
    [assessmentResult-<resultId>.xml]: the plan passes that name through
    [path.join], which reads the slashes and the double dots of a result
    identifier as steps of a path. For every output directory and every
    [rid], the result identifier [x/../assessmentResult-<rid>] is planned
    onto the very file of [rid]. The roster of [roster_paths_csv] is valid,
    its two result identifiers differ, and its two rows are planned onto the
    one file [assessmentResult-7.xml]; the run ends well and leaves one new
    file, which holds the document of the second row. *)
Theorem buildOutputPlan_sends_two_rows_to_one_file :
  (forall outputDir rid,
     mem_join outputDir (outputFileName (lit "x/../assessmentResult-" ++ rid))
     = mem_join outputDir (outputFileName rid))
  /\ readRosterCsv world0 (lit "/exam/roster-paths.csv") = Ok [row_7; row_x7]
  /\ resultId row_7 <> resultId row_x7
  /\ buildOutputPlan (W:=MemWorld) (lit "/out") [row_7; row_x7]
     = [ {| Output.resultId := lit "7"; Output.path := lit "/out/assessmentResult-7.xml" |};
         {| Output.resultId := lit "x/../assessmentResult-7";
            Output.path := lit "/out/assessmentResult-7.xml" |} ]
  /\ lit "/out/assessmentResult-7.xml" <> lit "/out/" ++ outputFileName (resultId row_x7)
  /\ snd (main argv_paths world0) = Ok []
  /\ mw_files (fst (main argv_paths world0)) !! lit "/exam/qti-results/assessmentResult-7.xml"
     = Some (buildAssessmentResultXml row_x7 (lit "assessment-test") None
               [lit "item-001"; lit "item-002"])
  /\ dom (mw_files (fst (main argv_paths world0)))
     = {[ lit "/exam/qti-results/assessmentResult-7.xml" ]} ∪ dom (mw_files world0).
Proof.
  split; [exact mem_join_takes_back|].
  split; [vm_compute; reflexivity|].
  split; [discriminate|].
  split; [vm_compute; reflexivity|].
  split; [discriminate|].
  split; [vm_compute; reflexivity|].
  split; [vm_compute; reflexivity|].
  apply (bool_decide_unpack _). vm_compute. reflexivity.
Qed.

(** ** The write loop *)

Lemma rowByResult_fold (rows : list RosterRow) : forall (m : gmap jsstring RosterRow) rid,
  is_Some (m !! rid) \/ In rid (map resultId rows) ->
  is_Some (fold_left (fun m row => <[ resultId row := row ]> m) rows m !! rid).
Proof.
  induction rows as [|row rows IH]; intros m rid [Hm | Hin]; simpl in *;
    try assumption; try contradiction.
  - apply IH. left. destruct (decide (resultId row = rid)) as [-> | Hne].
    + rewrite lookup_insert_eq. eauto.
    + rewrite lookup_insert_ne; assumption.
  - apply IH. destruct Hin as [-> | Hin]; [left | right; assumption].
    rewrite lookup_insert_eq. eauto.
Qed.

Section WriteLoop.
Context {W : Type} `{Node W}.

Lemma buildOutputPlan_resultIds (outputDir : jsstring) (rows : list RosterRow) :
  map Output.resultId (buildOutputPlan outputDir rows) = map resultId rows.
Proof.
  induction rows as [|row rows IH]; simpl; [reflexivity|]. rewrite IH. reflexivity.
Qed.

Lemma rowByResult_plan (outputDir : jsstring) (rows : list RosterRow) :
  Forall (fun output => is_Some (rowByResult rows !! Output.resultId output))
         (buildOutputPlan outputDir rows).
Proof.
  apply Forall_forall. intros output Hin.
  apply rowByResult_fold. right.
  rewrite <- (buildOutputPlan_resultIds outputDir). apply in_map.
  apply list_elem_of_In. exact Hin.
Qed.

Lemma writeOutputs_forEach_finds byResult outputs tid ds itemIds : forall (w : W) rid,
  Forall (fun output => is_Some (byResult !! Output.resultId output)) outputs ->
  snd (writeOutputs_forEach byResult outputs tid ds itemIds w) <> Throw (MissingRosterRow rid).
Proof.
  induction outputs as [|output outputs IH]; intros w rid Hall; simpl.
  - discriminate.
  - inversion Hall as [|? ? [row Hrow] Hrest]; subst. rewrite Hrow.
    destruct (fs_writeFileSync w (Output.path output) _) as [w' [e|]]; simpl.
    + discriminate.
    + apply IH, Hrest.
Qed.

(** ** The conflict check *)

Lemma ensureWritable_loop_conflict (w : W) (outputs : list OutputPlan) :
  Exists (fun output => fs_existsSync w (Output.path output) = true) outputs ->
  exists output,
    In output outputs
    /\ fs_existsSync w (Output.path output) = true
    /\ ensureWritable_loop w outputs false = Throw (OutputFileExists (Output.path output)).
Proof.
  induction outputs as [|output outputs IH]; intros Hex.
  - inversion Hex.
  - simpl. destruct (fs_existsSync w (Output.path output)) eqn:Hthere; simpl.
    + exists output. auto.
    + inversion Hex as [? ? Hhere | ? ? Hlater]; subst; [congruence|].
      destruct (IH Hlater) as (o & Hin & Ho & Hthrow). exists o. auto.
Qed.

(** C2. A run in write mode, without [--force], whose output directory
    exists and holds one of the planned output files already, ends with the
    error [Output file already exists] for such a file, and leaves the world
    as it found it: no directory is made and no file is written. *)
Theorem main_conflict_writes_nothing (argv : list jsstring) (args : CliArgs) (w : W)
    (datestamp : option jsstring) (rows : list RosterRow) (itemIds : list jsstring) :
  parseArgs argv = Ok args ->
  help args = false -> version args = false ->
  truthy (roster args) = true -> truthy (assessmentTest args) = true ->
  outputDir args <> Some [] ->
  main_testResultDatestamp w args = Ok datestamp ->
  readRosterCsv w (default [] (roster args)) = Ok rows ->
  readAssessmentTestItemIds w (default [] (assessmentTest args)) = Ok itemIds ->
  dryRun args = false -> force args = false ->
  fs_existsSync w (main_outputDir w args) = true ->
  Exists (fun output => fs_existsSync w (Output.path output) = true)
         (buildOutputPlan (main_outputDir w args) rows) ->
  exists output,
    In output (buildOutputPlan (main_outputDir w args) rows)
    /\ fs_existsSync w (Output.path output) = true
    /\ main argv w = (w, Throw (OutputFileExists (Output.path output))).
Proof.
  intros Hargs Hhelp Hversion Hroster Htest Hout Hstamp Hrows Hitems Hdry Hforce Hdir Hex.
  destruct (ensureWritable_loop_conflict w _ Hex) as (output & Hin & Hthere & Hthrow).
  exists output. split; [exact Hin|]. split; [exact Hthere|].
  unfold main. rewrite Hargs. unfold run.
  rewrite Hhelp, Hversion, Hroster, Htest. simpl.
  assert (Hguard : bool_decide (outputDir args <> None) && negb (truthy (outputDir args)) = false).
  { destruct (outputDir args) as [[|c s]|]; simpl; try reflexivity. congruence. }
  rewrite Hguard, Hstamp, Hrows, Hitems, Hdry.
  unfold ensureWritable. rewrite Hdir, Hforce. simpl. rewrite Hthrow. reflexivity.
Qed.

End WriteLoop.

(** A second run over the files of a first one. *)
Lemma main_conflict_writes_nothing_witness :
  exists output,
    In output (buildOutputPlan (lit "/exam/qti-results") [row_1001; row_1002])
    /\ mem_existsSync world1 (Output.path output) = true
    /\ main argv_basic world1 = (world1, Throw (OutputFileExists (Output.path output))).
Proof.
  refine (main_conflict_writes_nothing (H:=MemNode) argv_basic
            (set_assessmentTest (Some (lit "/exam/test.qti.xml"))
               (set_roster (Some (lit "/exam/roster.csv")) defaultArgs))
            world1 None [row_1001; row_1002] [lit "item-001"; lit "item-002"]
            _ _ _ _ _ _ _ _ _ _ _ _ _).
  all: try (vm_compute; reflexivity).
  - discriminate.
  - apply Exists_cons_hd. vm_compute. reflexivity.
Defined.

(** ** The errors of each step *)

Lemma csv_append_throws c quoting wasQuoting field e :
  csv_append c quoting wasQuoting field = Throw e -> rosterError e = true.
Proof.
  unfold csv_append.
  repeat match goal with |- context [if ?b then _ else _] => destruct b end;
    try discriminate; intros [= <-]; reflexivity.
Qed.

Lemma csv_onRecord_throws values columns acc e :
  csv_onRecord values columns acc = Throw e -> rosterError e = true.
Proof.
  unfold csv_onRecord. destruct columns as [names|]; [|discriminate].
  destruct (length values =? length names)%nat; [discriminate|]. intros [= <-]. reflexivity.
Qed.

Lemma csv_scan_throws_upto (n : nat) :
  forall s delim quoting wasQuoting field fields columns acc e,
  (length s <= n)%nat ->
  csv_scan s delim quoting wasQuoting field fields columns acc = Throw e ->
  rosterError e = true.
Proof.
  induction n as [|n IH]; intros s delim quoting wasQuoting field fields columns acc e Hlen;
    destruct s as [|c s]; cbn [length] in Hlen; try lia; cbn [csv_scan].
  1,2: destruct quoting; [intros [= <-]; reflexivity|];
       destruct (csv_line_is_empty field fields wasQuoting); [discriminate|];
       destruct (csv_onRecord _ columns acc) eqn:Hrecord; cbn [rbind]; [discriminate|];
       intros [= <-]; eapply csv_onRecord_throws, Hrecord.
  repeat match goal with
         | |- context [rbind (csv_append ?c ?q ?wq ?f) _] =>
             let Happend := fresh "Happend" in
             destruct (csv_append c q wq f) eqn:Happend; cbn [rbind];
             [|intros [= <-]; eapply csv_append_throws, Happend]
         | |- context [rbind (csv_onRecord ?v ?cs ?a) _] =>
             let Hrecord := fresh "Hrecord" in
             destruct (csv_onRecord v cs a) eqn:Hrecord; cbn [rbind];
             [|intros [= <-]; eapply csv_onRecord_throws, Hrecord]
         | |- context [if ?b then _ else _] => destruct b; cbn [rbind]
         | |- context [match ?l with [] => _ | _ :: _ => _ end] => destruct l
         | |- context [match ?d with Some _ => _ | None => _ end] => destruct d
         | |- context [match ?d with CRLF => _ | LF => _ | CR => _ end] => destruct d
         end;
    try (intros [= <-]; reflexivity);
    try (apply IH; cbn [length] in *; lia).
Qed.

Lemma csv_scan_throws s delim quoting wasQuoting field fields columns acc e :
  csv_scan s delim quoting wasQuoting field fields columns acc = Throw e ->
  rosterError e = true.
Proof. apply (csv_scan_throws_upto (length s)). lia. Qed.

Lemma parseCsv_throws csvText e : parseCsv csvText = Throw e -> rosterError e = true.
Proof. apply csv_scan_throws. Qed.

Lemma readRosterCsv_forEach_throws records : forall index rows seen e,
  readRosterCsv_forEach records index rows seen = Throw e -> rosterError e = true.
Proof.
  induction records as [|record records IH]; intros index rows seen e; simpl;
    [discriminate|].
  repeat match goal with
         | |- context [match ?o with Some _ => _ | None => _ end] => destruct o
         | |- context [match ?l with [] => _ | _ :: _ => _ end] => destruct l
         | |- context [if ?b then _ else _] => destruct b
         end;
    try (intros [= <-]; reflexivity); apply IH.
Qed.

Section StepErrors.
Context {W : Type} `{Node W}.

Lemma readText_throws (w : W) source e : readText w source = Throw e -> exists s, e = FsError s.
Proof.
  unfold readText. destruct (fs_readFileSync w source); [|discriminate].
  intros [= <-]. eauto.
Qed.

Lemma readRosterCsv_throws (w : W) rosterPath e :
  readRosterCsv w rosterPath = Throw e -> rosterError e = true.
Proof.
  unfold readRosterCsv.
  destruct (readText w _) as [csvText|e'] eqn:Htext; cbn [rbind].
  - destruct (parseCsv csvText) as [[|record records]|e'] eqn:Hcsv; cbn [rbind].
    + intros [= <-]. reflexivity.
    + apply readRosterCsv_forEach_throws.
    + intros [= <-]. eapply parseCsv_throws, Hcsv.
  - intros [= <-]. apply readText_throws in Htext as [s ->]. reflexivity.
Qed.

Lemma checkItemIds_throws itemIds : forall seen e,
  checkItemIds itemIds seen = Throw e -> itemError e = true.
Proof.
  induction itemIds as [|itemId itemIds IH]; intros seen e; simpl; [discriminate|].
  destruct itemId as [|c itemId]; simpl; [intros [= <-]; reflexivity|].
  case_bool_decide; [intros [= <-]; reflexivity|]. apply IH.
Qed.

Lemma readAssessmentTestItemIds_throws (w : W) assessmentTestPath e :
  readAssessmentTestItemIds w assessmentTestPath = Throw e -> itemError e = true.
Proof.
  unfold readAssessmentTestItemIds.
  destruct (readText w _) as [xml|e'] eqn:Htext; cbn [rbind].
  - unfold itemIdsOfXml. destruct (length (matchedItemIds xml) =? 0)%nat.
    + intros [= <-]. reflexivity.
    + destruct (checkItemIds (matchedItemIds xml) ∅) eqn:Hcheck; cbn [rbind];
        [discriminate|].
      intros [= <-]. eapply checkItemIds_throws, Hcheck.
  - intros [= <-]. apply readText_throws in Htext as [s ->]. reflexivity.
Qed.

Lemma ensureWritable_loop_throws (w : W) outputs force e :
  ensureWritable_loop w outputs force = Throw e -> conflictError e = true.
Proof.
  induction outputs as [|output outputs IH]; simpl; [discriminate|].
  destruct (fs_existsSync w (Output.path output) && negb force);
    [intros [= <-]; reflexivity | exact IH].
Qed.

Lemma ensureWritable_throws outputDir outputs force (w : W) e :
  snd (ensureWritable outputDir outputs force w) = Throw e -> conflictError e = true.
Proof.
  unfold ensureWritable. destruct (negb (fs_existsSync w outputDir)).
  - destruct (fs_mkdirSync w outputDir) as [w' [s|]]; simpl;
      [intros [= <-]; reflexivity | discriminate].
  - simpl. apply ensureWritable_loop_throws.
Qed.

Lemma writeOutputs_forEach_throws byResult outputs tid ds itemIds : forall (w : W) e,
  snd (writeOutputs_forEach byResult outputs tid ds itemIds w) = Throw e ->
  writeError e = true.
Proof.
  induction outputs as [|output outputs IH]; intros w e; simpl; [discriminate|].
  destruct (byResult !! Output.resultId output); [|intros [= <-]; reflexivity].
  destruct (fs_writeFileSync w _ _) as [w' [s|]]; simpl;
    [intros [= <-]; reflexivity | apply IH].
Qed.

(** A run that passes the checks of its arguments ends with the error of a
    malformed datestamp exactly when the step that resolves the datestamp
    does: no later step throws that error. *)
Lemma run_malformed_datestamp (args : CliArgs) (w : W) :
  help args = false -> version args = false ->
  truthy (roster args) = true -> truthy (assessmentTest args) = true ->
  outputDir args <> Some [] ->
  (snd (run args w) = Throw MalformedDatestamp
   <-> main_testResultDatestamp w args = Throw MalformedDatestamp).
Proof.
  intros Hhelp Hversion Hroster Htest Hout. unfold run.
  rewrite Hhelp, Hversion, Hroster, Htest. simpl.
  assert (Hguard : bool_decide (outputDir args <> None) && negb (truthy (outputDir args)) = false).
  { destruct (outputDir args) as [[|c s]|]; simpl; try reflexivity. congruence. }
  rewrite Hguard.
  destruct (main_testResultDatestamp w args) as [datestamp|e]; simpl.
  2: { split; intros [= ->]; reflexivity. }
  split; [|discriminate]. intros Hrun. exfalso.
  destruct (readRosterCsv w _) as [rows|e] eqn:Hrows; simpl in Hrun.
  2: { injection Hrun as ->. apply readRosterCsv_throws in Hrows. discriminate. }
  destruct (readAssessmentTestItemIds w _) as [itemIds|e] eqn:Hitems; simpl in Hrun.
  2: { injection Hrun as ->. apply readAssessmentTestItemIds_throws in Hitems. discriminate. }
  destruct (dryRun args).
  { destruct (json args); simpl in Hrun; discriminate. }
  destruct (ensureWritable _ _ _ w) as [w1 [[]|e]] eqn:Hensure; simpl in Hrun.
  2: { injection Hrun as ->.
       assert (He := ensureWritable_throws (main_outputDir w args)
                       (buildOutputPlan (main_outputDir w args) rows) (force args) w
                       MalformedDatestamp).
       rewrite Hensure in He. specialize (He eq_refl). discriminate. }
  destruct (writeOutputs _ _ _ _ _ w1) as [w2 [[]|e]] eqn:Hwrite; simpl in Hrun.
  2: { injection Hrun as ->. unfold writeOutputs in Hwrite.
       assert (He := writeOutputs_forEach_throws (rowByResult rows)
                       (buildOutputPlan (main_outputDir w args) rows)
                       (default [] (or_else (testResultIdentifier args)
                                      (Some (lit "assessment-test"))))
                       datestamp itemIds w1 MalformedDatestamp).
       rewrite Hwrite in He. specialize (He eq_refl). discriminate. }
  destruct (json args); [discriminate|]. destruct (verbose args); discriminate.
Qed.

End StepErrors.

(** ** The datestamp of a run *)

Section Datestamp.
Context {W : Type} `{Node W}.

Lemma main_testResultDatestamp_supplied (w : W) (args : CliArgs) (c : N) (raw : jsstring) :
  testResultDatestamp args = Some (c :: raw) ->
  main_testResultDatestamp w args =
    rbind (resolveEndAt w (c :: raw)) (fun d => Ok (Some d)).
Proof.
  intros Hraw. unfold main_testResultDatestamp. rewrite Hraw. reflexivity.
Qed.

(** What the run does with the datestamp it is given, whatever [Date.parse]
    is. An empty [raw] is taken as no datestamp at all, and the run goes on
    without one. A [raw] that is not empty is accepted when it is the literal
    [now], which resolves to the ISO string of the current UTC time, or when
    [Date.parse] reads it as a date, and then it is kept as given; the run
    ends with the error of a malformed datestamp exactly when [raw] is
    neither. No other test of the format is made. *)
Lemma datestamp_accepted_iff (w : W) (args : CliArgs) (raw : jsstring) :
  help args = false -> version args = false ->
  truthy (roster args) = true -> truthy (assessmentTest args) = true ->
  outputDir args <> Some [] ->
  testResultDatestamp args = Some raw ->
  (raw = [] ->
     main_testResultDatestamp w args = Ok None
     /\ snd (run args w) <> Throw MalformedDatestamp)
  /\ (raw <> [] ->
        (snd (run args w) = Throw MalformedDatestamp
         <-> raw <> lit "now" /\ Date_parse_isNaN raw = true)
        /\ (raw = lit "now" ->
              main_testResultDatestamp w args = Ok (Some (toISOString (Date_now w))))
        /\ (raw <> lit "now" -> Date_parse_isNaN raw = false ->
              main_testResultDatestamp w args = Ok (Some raw))).
Proof.
  intros Hhelp Hversion Hroster Htest Hout Hraw.
  assert (Hrun := run_malformed_datestamp args w Hhelp Hversion Hroster Htest Hout).
  split.
  - intros ->. assert (Hnone : main_testResultDatestamp w args = Ok None).
    { unfold main_testResultDatestamp. rewrite Hraw. reflexivity. }
    split; [exact Hnone|]. rewrite Hrun, Hnone. discriminate.
  - intros Hne. destruct raw as [|c raw]; [congruence|].
    rewrite Hrun, (main_testResultDatestamp_supplied w args c raw Hraw).
    unfold resolveEndAt, streq.
    case_bool_decide as Hnow; cbn [rbind].
    + split; [|split].
      * split; [discriminate | intros [Hn _]; contradiction].
      * reflexivity.
      * intros Hn. contradiction.
    + destruct (Date_parse_isNaN (c :: raw)) eqn:Hnan; cbn [rbind].
      * split; [|split].
        -- split; [intros _; split; [exact Hnow | reflexivity] | reflexivity].
        -- intros Hn. contradiction.
        -- discriminate.
      * split; [|split].
        -- split; [discriminate | intros [_ Hn]; discriminate].
        -- intros Hn. contradiction.
        -- reflexivity.
Qed.

End Datestamp.

(** The empty string is accepted as well: it is neither an ISO 8601
    date-time nor the literal [now], the command line supplies it as the
    datestamp, and the run succeeds, writing its files with no datestamp. *)
Lemma empty_datestamp_is_accepted :
  isIso8601 [] = false
  /\ [] <> lit "now"
  /\ rbind (parseArgs argv_empty_datestamp) (fun args => Ok (testResultDatestamp args))
     = Ok (Some [])
  /\ snd (main argv_empty_datestamp world0) = Ok []
  /\ snd (main argv_empty_datestamp world0) <> Throw MalformedDatestamp.
Proof.
  split; [reflexivity|]. split; [discriminate|]. split; [vm_compute; reflexivity|].
  assert (Hrun : snd (main argv_empty_datestamp world0) = Ok []) by (vm_compute; reflexivity).
  split; [exact Hrun|]. rewrite Hrun. discriminate.
Qed.

(** C3. The run accepts a datestamp that is no ISO 8601 date-time: the test
    of [resolveEndAt] is [Date.parse], and [Date.parse] reads more than that
    format. Given [--test-result-datestamp "Jan 27 2026"], which is neither
    an ISO 8601 date-time nor the literal [now], the run does not end with
    the error of a malformed datestamp: [Date.parse] reads the string, the
    run ends well, and the documents it writes carry [Jan 27 2026] as the
    datestamp of their results. *)
Theorem main_accepts_datestamp_that_is_not_iso8601 :
  isIso8601 (lit "Jan 27 2026") = false
  /\ lit "Jan 27 2026" <> lit "now"
  /\ rbind (parseArgs argv_month_name_datestamp) (fun args => Ok (testResultDatestamp args))
     = Ok (Some (lit "Jan 27 2026"))
  /\ Date_parse_isNaN (W:=MemWorld) (lit "Jan 27 2026") = false
  /\ snd (main argv_month_name_datestamp world0) = Ok []
  /\ mw_files (fst (main argv_month_name_datestamp world0))
       !! lit "/exam/qti-results/assessmentResult-2001.xml"
     = Some (buildAssessmentResultXml row_1001 (lit "assessment-test")
               (Some (lit "Jan 27 2026")) [lit "item-001"; lit "item-002"])
  /\ Forall (fun e => xmlAttr "datestamp" e = Some (lit "Jan 27 2026"))
       (resultElements
          (buildAssessmentResultXml row_1001 (lit "assessment-test")
             (Some (lit "Jan 27 2026")) [lit "item-001"; lit "item-002"])).
Proof.
  split; [reflexivity|]. split; [discriminate|].
  repeat split; vm_compute; try reflexivity.
  repeat constructor.
Qed.

(** ** Escaping *)

Lemma replaceAll_app c r a b : replaceAll c r (a ++ b) = replaceAll c r a ++ replaceAll c r b.
Proof. apply flat_map_app. Qed.

Lemma escapeXml_app a b : escapeXml (a ++ b) = escapeXml a ++ escapeXml b.
Proof. unfold escapeXml. rewrite !replaceAll_app. reflexivity. Qed.

Lemma escapeXml_one c : escapeXml [c] = escapeChar c.
Proof.
  unfold escapeChar.
  destruct (N.eqb_spec c 38) as [-> | H38]; [reflexivity|].
  destruct (N.eqb_spec c 60) as [-> | H60]; [reflexivity|].
  destruct (N.eqb_spec c 62) as [-> | H62]; [reflexivity|].
  destruct (N.eqb_spec c 34) as [-> | H34]; [reflexivity|].
  destruct (N.eqb_spec c 39) as [-> | H39]; [reflexivity|].
  unfold escapeXml, replaceAll. simpl.
  apply N.eqb_neq in H38, H60, H62, H34, H39.
  rewrite H38. simpl. rewrite H60. simpl. rewrite H62. simpl. rewrite H34. simpl.
  rewrite H39. reflexivity.
Qed.

(** [escapeXml] works character by character. *)
Lemma escapeXml_cons c v : escapeXml (c :: v) = escapeChar c ++ escapeXml v.
Proof. change (c :: v) with ([c] ++ v). rewrite escapeXml_app, escapeXml_one. reflexivity. Qed.

Lemma escapeChar_plain c : forallb plainChar (escapeChar c) = true.
Proof.
  unfold escapeChar.
  destruct (N.eqb_spec c 38); [reflexivity|].
  destruct (N.eqb_spec c 60) as [|H60]; [reflexivity|].
  destruct (N.eqb_spec c 62) as [|H62]; [reflexivity|].
  destruct (N.eqb_spec c 34) as [|H34]; [reflexivity|].
  destruct (N.eqb_spec c 39); [reflexivity|].
  apply N.eqb_neq in H60, H62, H34. simpl. unfold plainChar. rewrite H60, H62, H34. reflexivity.
Qed.

(** An escaped value holds no [<], no [>] and no double quote. *)
Lemma escapeXml_plain v : forallb plainChar (escapeXml v) = true.
Proof.
  induction v as [|c v IH]; [reflexivity|].
  rewrite escapeXml_cons, forallb_app, escapeChar_plain, IH. reflexivity.
Qed.

Lemma unescape_escapeChar c rest :
  unescape_from 0 (escapeChar c ++ rest) = c :: unescape_from 0 rest.
Proof.
  unfold escapeChar.
  destruct (N.eqb_spec c 38) as [-> | H38]; [reflexivity|].
  destruct (N.eqb_spec c 60) as [-> | H60]; [reflexivity|].
  destruct (N.eqb_spec c 62) as [-> | H62]; [reflexivity|].
  destruct (N.eqb_spec c 34) as [-> | H34]; [reflexivity|].
  destruct (N.eqb_spec c 39) as [-> | H39]; [reflexivity|].
  apply N.eqb_neq in H38. simpl. rewrite H38. reflexivity.
Qed.

Lemma unescape_escapeXml_app v rest :
  unescape_from 0 (escapeXml v ++ rest) = v ++ unescape_from 0 rest.
Proof.
  induction v as [|c v IH]; [reflexivity|].
  rewrite escapeXml_cons, <- app_assoc, unescape_escapeChar, IH. reflexivity.
Qed.

(** Decoding the entities gives an escaped value back. *)
Lemma unescapeXml_escapeXml v : unescapeXml (escapeXml v) = v.
Proof.
  unfold unescapeXml. rewrite <- (app_nil_r (escapeXml v)), unescape_escapeXml_app.
  apply app_nil_r.
Qed.

Lemma unescapeXml_without_ampersand s :
  forallb (fun c => negb (c =? 38)) s = true -> unescapeXml s = s.
Proof.
  unfold unescapeXml. induction s as [|c s IH]; [reflexivity|]. simpl.
  destruct (c =? 38); simpl; [discriminate|]. intros Hs. rewrite IH; auto.
Qed.

(** ** Decimal numerals *)

Lemma string_of_uint_digits (d : Decimal.uint) :
  forallb isDigit (lit (NilEmpty.string_of_uint d)) = true.
Proof. induction d; simpl; try reflexivity; exact IHd. Qed.

Lemma Number_toString_digits n : forallb isDigit (Number_toString n) = true.
Proof.
  unfold Number_toString, NilZero.string_of_uint.
  destruct (N.to_uint n) eqn:E; try reflexivity; rewrite <- E; apply string_of_uint_digits.
Qed.

Lemma forallb_weaken_gen {A} (p q : A -> bool) (l : list A) :
  (forall x, p x = true -> q x = true) -> forallb p l = true -> forallb q l = true.
Proof.
  intros Hpq. induction l as [|x l IH]; simpl; [reflexivity|].
  intros [Hx Hl]%andb_prop. rewrite (Hpq x Hx), (IH Hl). reflexivity.
Qed.

Lemma forallb_weaken (p q : N -> bool) (s : jsstring) :
  (forall c, p c = true -> q c = true) -> forallb p s = true -> forallb q s = true.
Proof.
  intros Hpq. induction s as [|c s IH]; simpl; [reflexivity|].
  intros [Hc Hs]%andb_prop. rewrite (Hpq c Hc), (IH Hs). reflexivity.
Qed.

Lemma isDigit_range c : isDigit c = true -> 48 <= c <= 57.
Proof.
  unfold isDigit. intros [Hlo Hhi]%andb_prop.
  apply N.leb_le in Hlo, Hhi. lia.
Qed.

Lemma Number_toString_plain n : forallb plainChar (Number_toString n) = true.
Proof.
  apply (forallb_weaken isDigit); [|apply Number_toString_digits].
  intros c Hc%isDigit_range. unfold plainChar.
  destruct (N.eqb_spec c 60), (N.eqb_spec c 62), (N.eqb_spec c 34); try lia; reflexivity.
Qed.

Lemma unescapeXml_Number_toString n : unescapeXml (Number_toString n) = Number_toString n.
Proof.
  apply unescapeXml_without_ampersand.
  apply (forallb_weaken isDigit); [|apply Number_toString_digits].
  intros c Hc%isDigit_range. destruct (N.eqb_spec c 38); [lia | reflexivity].
Qed.

Lemma unlit_lit s : unlit (lit s) = s.
Proof.
  induction s as [|a s IH]; [reflexivity|].
  change (unlit (lit (String a s))) with (String (ascii_of_N (N_of_ascii a)) (unlit (lit s))).
  rewrite IH, ascii_N_embedding. reflexivity.
Qed.

(** Reading the numeral of a number gives the number back. *)
Lemma parseDecimal_Number_toString n : parseDecimal (Number_toString n) = Some n.
Proof.
  unfold parseDecimal, Number_toString. rewrite unlit_lit, NilZero.usu.
  - cbn [fmap option_fmap option_map]. rewrite DecimalN.Unsigned.of_to. reflexivity.
  - destruct n as [|p]; [discriminate|]. apply DecimalPos.Unsigned.to_uint_nonnil.
Qed.

(** ** From the text of a document to its tags *)

Lemma xmlTags_skip pre rest :
  forallb (fun c => negb (c =? 60)) pre = true -> xmlTags (pre ++ rest) = xmlTags rest.
Proof.
  induction pre as [|c pre IH]; simpl; [reflexivity|].
  destruct (c =? 60); simpl; [discriminate | exact IH].
Qed.

Lemma takeWhile_until_gt body rest :
  forallb noAngle body = true ->
  takeWhile (fun d => negb (d =? 62)) (body ++ 62 :: rest) = body.
Proof.
  induction body as [|c body IH]; simpl; [reflexivity|].
  unfold noAngle at 1. destruct (c =? 62); simpl.
  - rewrite andb_false_r. discriminate.
  - intros [_ Hbody]%andb_prop. rewrite IH; auto.
Qed.

Lemma noAngle_without_lt body :
  forallb noAngle body = true -> forallb (fun c => negb (c =? 60)) body = true.
Proof.
  apply forallb_weaken. intros c. unfold noAngle. destruct (c =? 60); [discriminate | reflexivity].
Qed.

Lemma plain_noAngle body : forallb plainChar body = true -> forallb noAngle body = true.
Proof.
  apply forallb_weaken. intros c. unfold plainChar, noAngle.
  destruct (c =? 60), (c =? 62); simpl; try discriminate. reflexivity.
Qed.

Lemma xmlTags_tagLine tag rest :
  tagOk tag = true -> xmlTags (tagLine tag ++ rest) = snd tag :: xmlTags rest.
Proof.
  unfold tagOk, tagLine. intros [Hpre Hbody]%andb_prop.
  rewrite <- app_assoc, (xmlTags_skip _ _ Hpre). simpl.
  rewrite <- app_assoc. simpl.
  rewrite (takeWhile_until_gt _ _ Hbody).
  rewrite (xmlTags_skip _ _ (noAngle_without_lt _ Hbody)). reflexivity.
Qed.

Lemma join_cons_cons sep (l l' : jsstring) ls :
  join sep (l :: l' :: ls) = l ++ sep ++ join sep (l' :: ls).
Proof. reflexivity. Qed.

Lemma xmlTags_join tags :
  forallb tagOk tags = true ->
  xmlTags (join [10] (map tagLine tags) ++ [10]) = map snd tags.
Proof.
  induction tags as [|tag tags IH]; [reflexivity|].
  cbn [forallb]. intros [Htag Htags]%andb_prop.
  destruct tags as [|tag' tags].
  - cbn [map join]. rewrite (xmlTags_tagLine _ _ Htag). reflexivity.
  - cbn [map]. rewrite join_cons_cons, <- !app_assoc.
    rewrite (xmlTags_tagLine _ _ Htag). cbn [map]. f_equal.
    change ([10] ++ ?x) with (10 :: x). cbn [xmlTags N.eqb Pos.eqb].
    exact (IH Htags).
Qed.

(** ** The lines of a document are its tags *)

Ltac same_line :=
  unfold tagLine, sessionIdentifierTag, push; cbn [fst snd];
  rewrite <- ?app_assoc; reflexivity.

Lemma pushItemResults_tags ds itemIds : forall index lines,
  pushItemResults ds itemIds index lines
  = lines ++ map tagLine (map (pair (lit "  ")) (itemResultTags ds itemIds index)).
Proof.
  induction itemIds as [|itemId itemIds IH]; intros index lines; cbn [pushItemResults].
  - symmetry. apply app_nil_r.
  - rewrite IH. cbn [itemResultTags map]. unfold itemResultTag.
    destruct (truthy ds); unfold push; rewrite <- app_assoc; f_equal;
      cbn [app]; f_equal; same_line.
Qed.

Lemma buildAssessmentResultLines_tags row tid ds itemIds :
  buildAssessmentResultLines row tid ds itemIds
  = map tagLine (documentTags row tid ds itemIds).
Proof.
  unfold buildAssessmentResultLines, documentTags, headerTags, testResultTag.
  cbv zeta. rewrite pushItemResults_tags. rewrite !map_app.
  destruct (truthy (candidateId row)), (truthy (candidateAccount row)), (truthy ds);
    unfold push; cbn [app map]; rewrite <- ?app_assoc; cbn [app];
    repeat (f_equal; [same_line|]); f_equal; same_line.
Qed.

Ltac solve_noAngle :=
  rewrite ?forallb_app, ?(plain_noAngle _ (escapeXml_plain _)),
    ?(plain_noAngle _ (Number_toString_plain _));
  reflexivity.

Lemma itemResultTag_ok ds itemId index : tagOk (lit "  ", itemResultTag ds itemId index) = true.
Proof.
  unfold tagOk, itemResultTag; cbn [fst snd]. destruct (truthy ds); solve_noAngle.
Qed.

Lemma itemResultTags_ok ds itemIds : forall index,
  forallb tagOk (map (pair (lit "  ")) (itemResultTags ds itemIds index)) = true.
Proof.
  induction itemIds as [|itemId itemIds IH]; intros index; [reflexivity|].
  cbn [itemResultTags map forallb]. rewrite itemResultTag_ok, IH. reflexivity.
Qed.

Lemma documentTags_ok row tid ds itemIds :
  forallb tagOk (documentTags row tid ds itemIds) = true.
Proof.
  unfold documentTags, headerTags, testResultTag, sessionIdentifierTag.
  rewrite !forallb_app, itemResultTags_ok.
  destruct (truthy (candidateId row)), (truthy (candidateAccount row)), (truthy ds);
    unfold tagOk; cbn [forallb fst snd]; solve_noAngle.
Qed.

(** The tags a reader finds in a rendered document are those of its layout. *)
Lemma xmlTags_document row tid ds itemIds :
  xmlTags (buildAssessmentResultXml row tid ds itemIds)
  = map snd (documentTags row tid ds itemIds).
Proof.
  unfold buildAssessmentResultXml. rewrite buildAssessmentResultLines_tags.
  apply (xmlTags_join _ (documentTags_ok row tid ds itemIds)).
Qed.

(** ** From a tag to its element *)

Lemma parseAttrs_value v : forall name acc rest,
  forallb plainChar v = true ->
  parseAttrs (v ++ 34 :: rest) (InValue name acc)
  = (rev name, unescapeXml (rev acc ++ v)) :: parseAttrs rest Between.
Proof.
  induction v as [|c v IH]; intros name acc rest Hv.
  - simpl. rewrite app_nil_r. reflexivity.
  - cbn [forallb] in Hv. apply andb_prop in Hv as [Hc Hv].
    assert (Hq : (c =? 34) = false).
    { unfold plainChar in Hc. destruct (c =? 34); [|reflexivity].
      rewrite andb_false_r in Hc. discriminate. }
    cbn [app parseAttrs]. rewrite Hq, (IH name (c :: acc) rest Hv).
    cbn [rev]. rewrite <- app_assoc. reflexivity.
Qed.

Lemma parseAttrs_identifier v rest :
  forallb plainChar v = true ->
  parseAttrs (lit " identifier=" ++ dq ++ v ++ dq ++ rest) Between
  = (lit "identifier", unescapeXml v) :: parseAttrs rest Between.
Proof. intros Hv. exact (parseAttrs_value v (rev (lit "identifier")) [] rest Hv). Qed.

Lemma parseAttrs_sequenceIndex v rest :
  forallb plainChar v = true ->
  parseAttrs (lit " sequenceIndex=" ++ dq ++ v ++ dq ++ rest) Between
  = (lit "sequenceIndex", unescapeXml v) :: parseAttrs rest Between.
Proof. intros Hv. exact (parseAttrs_value v (rev (lit "sequenceIndex")) [] rest Hv). Qed.

Lemma parseAttrs_datestamp v rest :
  forallb plainChar v = true ->
  parseAttrs (lit " datestamp=" ++ dq ++ v ++ dq ++ rest) Between
  = (lit "datestamp", unescapeXml v) :: parseAttrs rest Between.
Proof. intros Hv. exact (parseAttrs_value v (rev (lit "datestamp")) [] rest Hv). Qed.

Lemma elementOfTag_itemResult_attrs rest :
  elementOfTag (lit "itemResult identifier=" ++ rest)
  = {| tagName := lit "itemResult";
       attributes := parseAttrs (lit " identifier=" ++ rest) Between |}.
Proof. reflexivity. Qed.

Lemma elementOfTag_testResult_attrs rest :
  elementOfTag (lit "testResult identifier=" ++ rest)
  = {| tagName := lit "testResult";
       attributes := parseAttrs (lit " identifier=" ++ rest) Between |}.
Proof. reflexivity. Qed.

(** The element a reader makes of an [itemResult] tag of the renderer. *)
Lemma elementOfTag_itemResult ds itemId index :
  elementOfTag (itemResultTag ds itemId index)
  = {| tagName := lit "itemResult";
       attributes :=
         (lit "identifier", itemId) :: (lit "sequenceIndex", Number_toString index)
         :: datestampAttrs ds ++ [ (lit "sessionStatus", lit "final") ] |}.
Proof.
  unfold itemResultTag, datestampAttrs.
  destruct (truthy ds);
    rewrite elementOfTag_itemResult_attrs,
      (parseAttrs_identifier _ _ (escapeXml_plain _)), unescapeXml_escapeXml,
      (parseAttrs_sequenceIndex _ _ (Number_toString_plain _)), unescapeXml_Number_toString.
  - rewrite (parseAttrs_datestamp _ _ (escapeXml_plain _)), unescapeXml_escapeXml.
    reflexivity.
  - reflexivity.
Qed.

(** The element a reader makes of the [testResult] tag of the renderer. *)
Lemma elementOfTag_testResult tid ds :
  elementOfTag (testResultTag tid ds)
  = {| tagName := lit "testResult";
       attributes := (lit "identifier", tid) :: datestampAttrs ds |}.
Proof.
  unfold testResultTag, datestampAttrs.
  destruct (truthy ds); rewrite elementOfTag_testResult_attrs,
    (parseAttrs_identifier _ _ (escapeXml_plain _)), unescapeXml_escapeXml.
  - rewrite (parseAttrs_datestamp _ _ (escapeXml_plain _)), unescapeXml_escapeXml.
    reflexivity.
  - reflexivity.
Qed.

Lemma filter_none {A} (p : A -> bool) (l : list A) :
  forallb (fun x => negb (p x)) l = true -> List.filter p l = [].
Proof.
  induction l as [|x l IH]; simpl; [reflexivity|].
  destruct (p x); simpl; [discriminate | exact IH].
Qed.

Lemma filter_all {A} (p : A -> bool) (l : list A) :
  forallb p l = true -> List.filter p l = l.
Proof.
  induction l as [|x l IH]; simpl; [reflexivity|].
  destruct (p x); simpl; [|discriminate]. intros Hl. rewrite (IH Hl). reflexivity.
Qed.

(** No element of the header of a document is a [testResult] or an
    [itemResult]. *)
Lemma headerTags_elements row :
  forallb (fun e => negb (isElement "testResult" e || isElement "itemResult" e))
          (map elementOfTag (map snd (headerTags row))) = true.
Proof.
  unfold headerTags.
  destruct (truthy (candidateId row)), (truthy (candidateAccount row)); reflexivity.
Qed.

Lemma itemResultTags_elements ds itemIds : forall index,
  forallb (isElement "itemResult") (map elementOfTag (itemResultTags ds itemIds index)) = true.
Proof.
  induction itemIds as [|itemId itemIds IH]; intros index; [reflexivity|].
  cbn [itemResultTags map forallb]. rewrite elementOfTag_itemResult, IH. reflexivity.
Qed.

Lemma map_snd_pair {A B} (a : A) (l : list B) : map snd (map (pair a) l) = l.
Proof. induction l as [|x l IH]; simpl; [reflexivity|]. rewrite IH. reflexivity. Qed.

Lemma xmlElements_document row tid ds itemIds :
  xmlElements (buildAssessmentResultXml row tid ds itemIds)
  = map elementOfTag (map snd (headerTags row))
    ++ [ elementOfTag (testResultTag tid ds) ]
    ++ map elementOfTag (itemResultTags ds itemIds 0)
    ++ [ elementOfTag (lit "/assessmentResult") ].
Proof.
  unfold xmlElements. rewrite xmlTags_document. unfold documentTags.
  rewrite !map_app, map_snd_pair. reflexivity.
Qed.

(** The [itemResult] elements of a rendered document. *)
Lemma itemResults_document row tid ds itemIds :
  itemResults (buildAssessmentResultXml row tid ds itemIds)
  = map elementOfTag (itemResultTags ds itemIds 0).
Proof.
  unfold itemResults. rewrite xmlElements_document, !List.filter_app.
  rewrite (filter_none _ (map elementOfTag (map snd (headerTags row)))).
  2: { eapply forallb_weaken_gen; [|apply headerTags_elements].
       intros e. simpl. destruct (isElement "testResult" e), (isElement "itemResult" e);
         simpl; congruence. }
  rewrite (filter_all _ _ (itemResultTags_elements ds itemIds 0)).
  rewrite elementOfTag_testResult. cbn [app]. apply app_nil_r.
Qed.

(** The [testResult] and [itemResult] elements of a rendered document. *)
Lemma resultElements_document row tid ds itemIds :
  resultElements (buildAssessmentResultXml row tid ds itemIds)
  = elementOfTag (testResultTag tid ds) :: map elementOfTag (itemResultTags ds itemIds 0).
Proof.
  unfold resultElements. rewrite xmlElements_document, !List.filter_app.
  rewrite (filter_none _ (map elementOfTag (map snd (headerTags row)))
             (headerTags_elements row)).
  rewrite (filter_all _ (map elementOfTag (itemResultTags ds itemIds 0))).
  2: { eapply forallb_weaken_gen; [|apply (itemResultTags_elements ds itemIds 0)].
       intros e He. simpl. rewrite He. apply orb_true_r. }
  rewrite elementOfTag_testResult. cbn [app]. rewrite app_nil_r. reflexivity.
Qed.

(** ** The item results of a document *)

Lemma itemResultTags_numerals ds itemIds : forall index,
  map (xmlAttr "sequenceIndex") (map elementOfTag (itemResultTags ds itemIds index))
  = imap (fun i _ => Some (Number_toString (index + N.of_nat (S i)))) itemIds.
Proof.
  induction itemIds as [|itemId itemIds IH]; intros index; [reflexivity|].
  cbn [itemResultTags map imap]. rewrite elementOfTag_itemResult, IH. f_equal.
  apply imap_ext. intros i x _. cbn [compose]. do 2 f_equal. lia.
Qed.

Lemma itemResultTags_indices ds itemIds : forall index,
  map (fun e => (xmlAttr "identifier" e, xmlAttr "sequenceIndex" e ≫= parseDecimal))
      (map elementOfTag (itemResultTags ds itemIds index))
  = imap (fun i itemId => (Some itemId, Some (index + N.of_nat (S i)))) itemIds.
Proof.
  induction itemIds as [|itemId itemIds IH]; intros index; [reflexivity|].
  cbn [itemResultTags map imap]. rewrite elementOfTag_itemResult, IH. f_equal.
  - change (xmlAttr "sequenceIndex" _) with (Some (Number_toString (index + 1))).
    cbn [mbind option_bind]. rewrite parseDecimal_Number_toString. reflexivity.
  - apply imap_ext. intros i x _. cbn [compose]. do 2 f_equal. lia.
Qed.

(** C5. For item identifiers [itemIds], every rendered document holds
    exactly one [itemResult] element per identifier, in order: the i-th
    carries the i-th identifier and the sequence index i, counted from 1,
    written as its decimal numeral. The candidate has no part in it, so the
    [itemResult] elements of two documents of a run differ in nothing. *)
Theorem itemResults_follow_itemIds (row : RosterRow) (testResultIdentifier : jsstring)
    (testResultDatestamp : option jsstring) (itemIds : list jsstring) :
  let doc := buildAssessmentResultXml row testResultIdentifier testResultDatestamp itemIds in
  length (itemResults doc) = length itemIds
  /\ map (fun e => (xmlAttr "identifier" e, xmlAttr "sequenceIndex" e ≫= parseDecimal))
         (itemResults doc)
     = imap (fun i itemId => (Some itemId, Some (N.of_nat (S i)))) itemIds
  /\ map (xmlAttr "sequenceIndex") (itemResults doc)
     = imap (fun i _ => Some (Number_toString (N.of_nat (S i)))) itemIds
  /\ forall row' : RosterRow,
       itemResults
         (buildAssessmentResultXml row' testResultIdentifier testResultDatestamp itemIds)
       = itemResults doc.
Proof.
  cbv zeta. rewrite itemResults_document. split; [|split; [|split]].
  - rewrite length_map. generalize 0. induction itemIds as [|itemId itemIds IH]; intros index;
      simpl; [reflexivity|]. rewrite IH. reflexivity.
  - apply itemResultTags_indices.
  - apply itemResultTags_numerals.
  - intros row'. apply itemResults_document.
Qed.

(** ** The datestamp of a document *)

Lemma toISOString_nonempty t : toISOString t <> [].
Proof.
  unfold toISOString. intros [_ Hrest]%app_eq_nil.
  change (lit "-") with [45] in Hrest. discriminate.
Qed.

Section RunDatestamp.
Context {W : Type} `{Node W}.

(** The datestamp that [main] resolves is never the empty string. *)
Lemma main_testResultDatestamp_nonempty (w : W) (args : CliArgs) (d : jsstring) :
  main_testResultDatestamp w args = Ok (Some d) -> d <> [].
Proof.
  unfold main_testResultDatestamp.
  destruct (testResultDatestamp args) as [[|c raw]|]; simpl; try discriminate.
  unfold resolveEndAt. destruct (c :: raw === lit "now"); simpl.
  - intros [= <-]. apply toISOString_nonempty.
  - destruct (Date_parse_isNaN (c :: raw)); simpl; [discriminate|].
    intros [= <-]. discriminate.
Qed.

(** C6. In every document rendered with the datestamp that the run
    resolved, the [testResult] element and each of the [itemResult] elements
    carry that datestamp as their attribute [datestamp] when the run has
    one, and have no such attribute when it has none. *)
Theorem datestamp_on_every_result (w : W) (args : CliArgs) (datestamp : option jsstring)
    (row : RosterRow) (testResultIdentifier : jsstring) (itemIds : list jsstring) :
  main_testResultDatestamp w args = Ok datestamp ->
  let doc := buildAssessmentResultXml row testResultIdentifier datestamp itemIds in
  length (resultElements doc) = S (length itemIds)
  /\ Forall (fun e => xmlAttr "datestamp" e = datestamp) (resultElements doc).
Proof.
  intros Hrun. cbv zeta. rewrite resultElements_document.
  assert (Hattrs : datestampAttrs datestamp
                   = match datestamp with Some d => [ (lit "datestamp", d) ] | None => [] end).
  { destruct datestamp as [[|c d]|]; try reflexivity.
    apply main_testResultDatestamp_nonempty in Hrun. congruence. }
  split.
  - cbn [length]. rewrite length_map. f_equal. generalize 0.
    induction itemIds as [|itemId itemIds IH]; intros index; simpl; [reflexivity|].
    rewrite IH. reflexivity.
  - constructor.
    + rewrite elementOfTag_testResult, Hattrs. destruct datestamp; reflexivity.
    + generalize 0. induction itemIds as [|itemId itemIds IH]; intros index;
        cbn [itemResultTags map]; constructor; [|apply IH].
      rewrite elementOfTag_itemResult, Hattrs. destruct datestamp; reflexivity.
Qed.

End RunDatestamp.

(** The three result elements of a document of the example run. *)
Lemma datestamp_on_every_result_witness :
  let datestamp := Some (lit "2026-01-27T10:00:00+09:00") in
  let doc :=
    buildAssessmentResultXml row_1001 (lit "assessment-test") datestamp
      [lit "item-001"; lit "item-002"] in
  length (resultElements doc) = 3%nat
  /\ Forall (fun e => xmlAttr "datestamp" e = datestamp) (resultElements doc).
Proof.
  exact (datestamp_on_every_result (H:=MemNode) world0
           (set_testResultDatestamp (Some (lit "2026-01-27T10:00:00+09:00")) defaultArgs)
           (Some (lit "2026-01-27T10:00:00+09:00")) row_1001 (lit "assessment-test")
           [lit "item-001"; lit "item-002"] ltac:(vm_compute; reflexivity)).
Defined.

(** ** Where the code departs from its documentation *)

(** A row of separators alone, its cells all empty, is another matter: it
    is a record, and the reader rejects it for its missing candidate number. *)
Lemma readRosterCsv_rejects_row_of_empty_cells :
  readRosterCsv world0 (lit "/exam/roster-commas.csv") = Throw (MissingCandidateNumber 3).
Proof. vm_compute. reflexivity. Qed.

(** C1. The roster reader does not reject a blank row: [csv-parse] is called
    with [skip_empty_lines], so the blank row between the two data rows of
    [roster_blank_row_csv] is dropped and the reader returns the two rows,
    as it does for the roster without the blank row. *)
Theorem readRosterCsv_skips_blank_row :
  readRosterCsv world0 (lit "/exam/roster-blank.csv") = Ok [row_1001; row_1002]
  /\ readRosterCsv world0 (lit "/exam/roster-blank.csv")
     = readRosterCsv world0 (lit "/exam/roster.csv").
Proof. split; vm_compute; reflexivity. Qed.

(** ** What the pattern of the item references captures *)

Lemma tryDown_some {R} (f : nat -> option R) (least : nat) (k : nat) (r : R) :
  (least <= k)%nat -> tryDown k least f = Some r ->
  exists j, (least <= j <= k)%nat /\ f j = Some r.
Proof.
  induction k as [|k IH]; intros Hk; cbn [tryDown].
  - destruct (f 0%nat) eqn:E; [|discriminate]. intros [= <-]. exists 0%nat. split; [lia | exact E].
  - destruct (f (S k)) eqn:E.
    + intros [= <-]. exists (S k). split; [lia | exact E].
    + destruct (Nat.ltb_spec k least); [discriminate|].
      intros Hr. destruct (IH ltac:(lia) Hr) as (j & Hj & Hfj). exists j. split; [lia | exact Hfj].
Qed.

Lemma most_le_length a q s : (most a q s <= length s)%nat.
Proof.
  assert (Hrun : (length (takeWhile (inSet a) s) <= length s)%nat).
  { induction s as [|c s IH]; simpl; [lia|]. destruct (inSet a c); simpl; lia. }
  unfold most. destruct q; lia.
Qed.

(** A piece that is not a group leaves the captures as they are. *)
Lemma matchPieces_step p ps prev s caps r :
  groupsOf [p] = 0%nat ->
  matchPieces (p :: ps) prev s caps = Some r ->
  exists prev' s', matchPieces ps prev' s' caps = Some r.
Proof.
  destruct p as [l | | a q | a q | n]; cbn [groupsOf matchPieces]; intros Hg; try discriminate.
  - destruct (stripPrefix l s); [|discriminate]. eauto.
  - destruct (atWordBoundary prev (head s)); [|discriminate]. eauto.
  - destruct (Nat.ltb_spec (most a q s) (least q)); [discriminate|].
    intros (j & _ & Hj)%tryDown_some; [|assumption]. eauto.
  - destruct (caps !! pred n).
    + destruct (stripPrefix l s); [|discriminate]. eauto.
    + eauto.
Qed.

(** A group adds what it took to the captures, and takes at least what its
    quantifier asks for. *)
Lemma matchPieces_group a q ps prev s caps r :
  matchPieces (PGroup a q :: ps) prev s caps = Some r ->
  exists prev' j,
    (least q <= j <= length s)%nat
    /\ matchPieces ps prev' (drop j s) (caps ++ [take j s]) = Some r.
Proof.
  cbn [matchPieces].
  destruct (Nat.ltb_spec (most a q s) (least q)); [discriminate|].
  intros (j & Hj & Hr)%tryDown_some; [|assumption].
  exists (lastOr prev (take j s)), j. split; [|exact Hr].
  pose proof (most_le_length a q s). lia.
Qed.

Lemma matchPieces_no_groups ps : forall prev s caps caps' rest,
  groupsOf ps = 0%nat ->
  matchPieces ps prev s caps = Some (caps', rest) -> caps' = caps.
Proof.
  induction ps as [|p ps IH]; intros prev s caps caps' rest Hg Hm.
  - cbn in Hm. congruence.
  - assert (Hp : groupsOf [p] = 0%nat) by (destruct p; cbn in *; congruence).
    assert (Hps : groupsOf ps = 0%nat) by (destruct p; cbn in *; congruence).
    destruct (matchPieces_step p ps prev s caps _ Hp Hm) as (prev' & s' & Hm').
    eapply IH; eassumption.
Qed.

Lemma take_nonempty (j : nat) (s : jsstring) : (1 <= j <= length s)%nat -> take j s <> [].
Proof. destruct j, s; simpl; try lia. discriminate. Qed.

(** Every match of the pattern captures a quote and an identifier of one
    character or more. *)
Lemma itemRefPattern_captures prev s caps rest :
  matchPieces itemRefPattern prev s [] = Some (caps, rest) ->
  exists quote itemId, caps = [quote; itemId] /\ itemId <> [].
Proof.
  unfold itemRefPattern. intros Hm.
  repeat match type of Hm with
         | matchPieces (PGroup _ _ :: _) _ _ _ = _ => fail 1
         | matchPieces (_ :: _) _ _ _ = _ =>
             let prev' := fresh "prev" in
             let s' := fresh "s" in
             apply matchPieces_step in Hm as (prev' & s' & Hm); [|reflexivity]
         end.
  apply matchPieces_group in Hm as (before1 & j1 & _ & Hm).
  apply matchPieces_group in Hm as (before2 & j2 & Hj2 & Hm).
  apply matchPieces_no_groups in Hm as ->; [|reflexivity].
  eexists _, _. split; [reflexivity|].
  apply take_nonempty. exact Hj2.
Qed.

Lemma execAll_itemRefPattern s : forall prev skip,
  Forall (fun caps => exists quote itemId, caps = [quote; itemId] /\ itemId <> [])
         (execAll itemRefPattern prev s skip).
Proof.
  induction s as [|c s IH]; intros prev skip; cbn [execAll]; [constructor|].
  destruct skip as [|skip]; [|apply IH].
  destruct (matchPieces itemRefPattern prev (c :: s) []) as [[caps rest]|] eqn:Hm; [|apply IH].
  constructor; [|apply IH]. eapply itemRefPattern_captures, Hm.
Qed.

Lemma matchedItemIds_nonempty xml : Forall (fun itemId => itemId <> []) (matchedItemIds xml).
Proof.
  unfold matchedItemIds. apply Forall_map.
  eapply Forall_impl; [apply execAll_itemRefPattern|].
  intros caps (quote & itemId & -> & Hne). exact Hne.
Qed.

Lemma checkItemIds_never_empty itemIds : forall seen,
  Forall (fun itemId => itemId <> []) itemIds ->
  checkItemIds itemIds seen <> Throw EmptyItemIdentifier.
Proof.
  induction itemIds as [|itemId itemIds IH]; intros seen Hall; cbn [checkItemIds];
    [discriminate|].
  inversion Hall as [|? ? Hne Hrest]; subst.
  destruct itemId as [|c itemId]; [congruence|]. cbn [truthy negb].
  case_bool_decide; [discriminate|]. apply IH, Hrest.
Qed.

(** The check for an empty identifier never fires, whatever the document. *)
Lemma itemIdsOfXml_never_empty_identifier xml : itemIdsOfXml xml <> Throw EmptyItemIdentifier.
Proof.
  unfold itemIdsOfXml. destruct (length (matchedItemIds xml) =? 0)%nat; [discriminate|].
  destruct (checkItemIds (matchedItemIds xml) ∅) eqn:Hcheck; cbn [rbind]; [discriminate|].
  intros [= ->]. eapply checkItemIds_never_empty; [|exact Hcheck].
  apply matchedItemIds_nonempty.
Qed.

(** C4. An item reference whose identifier is the empty string is not
    rejected: the pattern asks for one character or more between the
    quotes, so the reference is not matched at all, and the extraction
    returns the identifiers of the other references. No document makes the
    extraction end with the error of an empty identifier. *)
Theorem readAssessmentTestItemIds_ignores_empty_identifier :
  readAssessmentTestItemIds world0 (lit "/exam/test-empty.qti.xml") = Ok [lit "item-001"]
  /\ forall (W : Type) (N : Node W) (w : W) (assessmentTestPath : jsstring),
       readAssessmentTestItemIds w assessmentTestPath <> Throw EmptyItemIdentifier.
Proof.
  split; [vm_compute; reflexivity|].
  intros W N w assessmentTestPath. unfold readAssessmentTestItemIds.
  destruct (readText w (FromPath assessmentTestPath)) as [xml|e] eqn:Htext; cbn [rbind].
  - apply itemIdsOfXml_never_empty_identifier.
  - apply readText_throws in Htext as [s ->]. discriminate.
Qed.

(** ** The write loop of a run *)

Lemma parseArgs_from_throws_upto (n : nat) : forall argv args e,
  (length argv <= n)%nat ->
  parseArgs_from argv args = Throw e -> exists arg, e = UnknownArgument arg.
Proof.
  induction n as [|n IH]; intros argv args e Hlen; destruct argv as [|arg rest];
    simpl in Hlen; try lia; cbn [parseArgs_from]; try discriminate.
  repeat match goal with
         | |- context [if ?b then _ else _] => destruct b
         | |- context [match ?l with [] => _ | _ :: _ => _ end] => destruct l
         end;
    try discriminate;
    try (apply IH; simpl in *; lia).
  intros [= <-]. eauto.
Qed.

Lemma parseArgs_throws argv e : parseArgs argv = Throw e -> exists arg, e = UnknownArgument arg.
Proof. apply (parseArgs_from_throws_upto (length argv)). lia. Qed.

Section RunWriteLoop.
Context {W : Type} `{Node W}.

Lemma main_testResultDatestamp_throws (w : W) (args : CliArgs) e :
  main_testResultDatestamp w args = Throw e -> e = MalformedDatestamp.
Proof.
  unfold main_testResultDatestamp, resolveEndAt.
  destruct (truthy (testResultDatestamp args)); [|discriminate].
  destruct (_ === lit "now"); cbn [rbind]; [discriminate|].
  destruct (Date_parse_isNaN _); cbn [rbind]; [|discriminate].
  intros [= <-]. reflexivity.
Qed.

(** No run ends with the error of a missing roster row. *)
Lemma run_never_misses_a_row (args : CliArgs) (w : W) (rid : jsstring) :
  snd (run args w) <> Throw (MissingRosterRow rid).
Proof.
  unfold run.
  destruct (help args); [discriminate|]. destruct (version args); [discriminate|].
  destruct (_ || _); [discriminate|]. destruct (_ && _); [discriminate|].
  destruct (main_testResultDatestamp w args) as [datestamp|e] eqn:Hstamp; cbn [snd].
  2: { apply main_testResultDatestamp_throws in Hstamp as ->. discriminate. }
  destruct (readRosterCsv w _) as [rows|e] eqn:Hrows; cbn [snd].
  2: { intros [= ->]. apply readRosterCsv_throws in Hrows. discriminate. }
  destruct (readAssessmentTestItemIds w _) as [itemIds|e] eqn:Hitems; cbn [snd].
  2: { intros [= ->]. apply readAssessmentTestItemIds_throws in Hitems. discriminate. }
  destruct (dryRun args).
  { destruct (json args); discriminate. }
  destruct (ensureWritable _ _ _ w) as [w1 [[]|e]] eqn:Hensure; cbn [snd].
  2: { intros [= ->].
       assert (He := ensureWritable_throws (main_outputDir w args)
                       (buildOutputPlan (main_outputDir w args) rows) (force args) w
                       (MissingRosterRow rid)).
       rewrite Hensure in He. specialize (He eq_refl). discriminate. }
  destruct (writeOutputs _ _ _ _ _ w1) as [w2 [[]|e]] eqn:Hwrite; cbn [snd].
  2: { intros [= ->]. unfold writeOutputs in Hwrite.
       apply (writeOutputs_forEach_finds (rowByResult rows)
                (buildOutputPlan (main_outputDir w args) rows)
                (default [] (or_else (testResultIdentifier args)
                               (Some (lit "assessment-test"))))
                datestamp itemIds w1 rid (rowByResult_plan _ rows)).
       rewrite Hwrite. reflexivity. }
  destruct (json args); [discriminate|]. destruct (verbose args); discriminate.
Qed.

(** C10. When the plan handed to [writeOutputs] is the one [buildOutputPlan]
    computed from the same rows, every entry of the plan is a key of the map
    of rows by result identifier, and the loop never throws the error
    [Missing roster row for resultId]. [main] hands it no other plan, so no
    run ends with that error. *)
Theorem writeOutputs_finds_every_row (w : W) (outputDir : jsstring) (rows : list RosterRow)
    (testResultIdentifier : jsstring) (testResultDatestamp : option jsstring)
    (itemIds : list jsstring) :
  Forall (fun output => is_Some (rowByResult rows !! Output.resultId output))
         (buildOutputPlan outputDir rows)
  /\ (forall rid,
        snd (writeOutputs (buildOutputPlan outputDir rows) rows testResultIdentifier
               testResultDatestamp itemIds w)
        <> Throw (MissingRosterRow rid))
  /\ (forall argv rid, snd (main argv w) <> Throw (MissingRosterRow rid)).
Proof.
  split; [apply rowByResult_plan|]. split.
  - intros rid. unfold writeOutputs. apply writeOutputs_forEach_finds, rowByResult_plan.
  - intros argv rid. unfold main.
    destruct (parseArgs argv) as [args|e] eqn:Hargs; cbn [snd].
    + apply run_never_misses_a_row.
    + apply parseArgs_throws in Hargs as [arg ->]. discriminate.
Qed.

End RunWriteLoop.

(** * Further properties *)

(** ** [escapeXml] *)

Lemma escapeChar_length c :
  (1 <= length (escapeChar c))%nat
  /\ (isReserved c = true -> (1 < length (escapeChar c))%nat)
  /\ (isReserved c = false -> escapeChar c = [c]).
Proof.
  unfold escapeChar, isReserved.
  destruct (c =? 38); [split; [vm_compute; lia | split; [intros _; vm_compute; lia | discriminate]]|].
  destruct (c =? 60); [split; [vm_compute; lia | split; [intros _; vm_compute; lia | discriminate]]|].
  destruct (c =? 62); [split; [vm_compute; lia | split; [intros _; vm_compute; lia | discriminate]]|].
  destruct (c =? 34); [split; [vm_compute; lia | split; [intros _; vm_compute; lia | discriminate]]|].
  destruct (c =? 39); [split; [vm_compute; lia | split; [intros _; vm_compute; lia | discriminate]]|].
  cbn. split; [lia | split; [discriminate | reflexivity]].
Qed.

Lemma escapeXml_length v :
  (length v <= length (escapeXml v))%nat
  /\ (existsb isReserved v = true -> (length v < length (escapeXml v))%nat).
Proof.
  induction v as [|c v [IHle IHlt]]; [split; [reflexivity | discriminate]|].
  rewrite escapeXml_cons, length_app. cbn [length existsb].
  destruct (escapeChar_length c) as (H1 & Hres & _). split; [lia|].
  destruct (isReserved c); cbn [orb]; intros Hex.
  - specialize (Hres eq_refl). lia.
  - specialize (IHlt Hex). lia.
Qed.

Lemma escapeChar_no_markup c :
  forallb (fun d => negb (d =? 60) && negb (d =? 62) && negb (d =? 34) && negb (d =? 39))
          (escapeChar c) = true.
Proof.
  unfold escapeChar.
  destruct (c =? 38); [reflexivity|].
  destruct (c =? 60) eqn:H60; [reflexivity|].
  destruct (c =? 62) eqn:H62; [reflexivity|].
  destruct (c =? 34) eqn:H34; [reflexivity|].
  destruct (c =? 39) eqn:H39; [reflexivity|].
  cbn. rewrite H60, H62, H34, H39. reflexivity.
Qed.

(** X1. Decoding the five entities undoes [escapeXml], so no two values
    have the same escaped form. *)
Theorem escapeXml_round_trip (value : jsstring) :
  unescapeXml (escapeXml value) = value
  /\ forall other, escapeXml value = escapeXml other -> value = other.
Proof.
  split; [apply unescapeXml_escapeXml|].
  intros other Heq. rewrite <- (unescapeXml_escapeXml value), Heq.
  apply unescapeXml_escapeXml.
Qed.

(** X2. The escaped form of a value holds no [<], no [>] and no quote of
    either kind; it is never shorter than the value; and it is the value
    itself exactly when the value holds none of the five reserved
    characters. *)
Theorem escapeXml_leaves_no_markup (value : jsstring) :
  forallb (fun d => negb (d =? 60) && negb (d =? 62) && negb (d =? 34) && negb (d =? 39))
          (escapeXml value) = true
  /\ (length value <= length (escapeXml value))%nat
  /\ (escapeXml value = value <-> existsb isReserved value = false).
Proof.
  split; [|split].
  - induction value as [|c v IH]; [reflexivity|].
    rewrite escapeXml_cons, forallb_app, escapeChar_no_markup, IH. reflexivity.
  - apply escapeXml_length.
  - split.
    + intros Heq. destruct (existsb isReserved value) eqn:Hex; [|reflexivity].
      apply escapeXml_length in Hex. rewrite Heq in Hex. lia.
    + induction value as [|c v IH]; [reflexivity|].
      cbn [existsb]. intros [Hc Hv]%orb_false_elim.
      rewrite escapeXml_cons, (IH Hv).
      destruct (escapeChar_length c) as (_ & _ & Hplain). rewrite (Hplain Hc). reflexivity.
Qed.

(** ** [parseArgs] *)

Lemma parseArgs_from_unknown_upto (n : nat) : forall argv args e,
  (length argv <= n)%nat ->
  parseArgs_from argv args = Throw e ->
  exists arg, e = UnknownArgument arg /\ In arg argv /\ isKnownOption arg = false.
Proof.
  induction n as [|n IH]; intros argv args e Hlen; destruct argv as [|arg rest];
    simpl in Hlen; try lia; cbn [parseArgs_from]; try discriminate.
  assert (Hrest : forall args', parseArgs_from rest args' = Throw e ->
            exists a, e = UnknownArgument a /\ In a (arg :: rest) /\ isKnownOption a = false).
  { intros args' Hthrow. destruct (IH rest args' e ltac:(lia) Hthrow) as (a & He & Hin & Hk).
    exists a. split; [exact He|]. split; [right; exact Hin | exact Hk]. }
  assert (Hvalue : forall v rest' args', rest = v :: rest' ->
            parseArgs_from rest' args' = Throw e ->
            exists a, e = UnknownArgument a /\ In a (arg :: rest) /\ isKnownOption a = false).
  { intros v rest' args' -> Hthrow.
    destruct (IH rest' args' e ltac:(simpl in Hlen; lia) Hthrow) as (a & He & Hin & Hk).
    exists a. split; [exact He|]. split; [right; right; exact Hin | exact Hk]. }
  destruct (arg === lit "--help") eqn:E1; cbn [orb]; [apply Hrest|].
  destruct (arg === lit "-h") eqn:E2; cbn [orb]; [apply Hrest|].
  destruct (arg === lit "--version") eqn:E3; cbn [orb]; [apply Hrest|].
  destruct (arg === lit "-V") eqn:E4; cbn [orb]; [apply Hrest|].
  destruct (arg === lit "--roster") eqn:E5;
    [destruct rest as [|v rest']; [discriminate | eapply Hvalue; reflexivity]|].
  destruct (arg === lit "--assessment-test") eqn:E6;
    [destruct rest as [|v rest']; [discriminate | eapply Hvalue; reflexivity]|].
  destruct (arg === lit "--test-result-identifier") eqn:E7;
    [destruct rest as [|v rest']; [discriminate | eapply Hvalue; reflexivity]|].
  destruct (arg === lit "--test-result-datestamp") eqn:E8;
    [destruct rest as [|v rest']; [discriminate | eapply Hvalue; reflexivity]|].
  destruct (arg === lit "--output") eqn:E9;
    [destruct rest as [|v rest']; [discriminate | eapply Hvalue; reflexivity]|].
  destruct (arg === lit "--dry-run") eqn:E10; [apply Hrest|].
  destruct (arg === lit "--json") eqn:E11; [apply Hrest|].
  destruct (arg === lit "--force") eqn:E12; cbn [orb]; [apply Hrest|].
  destruct (arg === lit "--yes") eqn:E13; cbn [orb]; [apply Hrest|].
  destruct (arg === lit "--quiet") eqn:E14; [apply Hrest|].
  destruct (arg === lit "--verbose") eqn:E15; [apply Hrest|].
  intros [= <-]. exists arg. split; [reflexivity|]. split; [left; reflexivity|].
  unfold isKnownOption, knownOptions. cbn [map existsb].
  rewrite E1, E2, E3, E4, E5, E6, E7, E8, E9, E10, E11, E12, E13, E14, E15. reflexivity.
Qed.

(** X3. [parseArgs] fails in one way only: with the error [Unknown
    argument], naming an element of the command line that is none of the
    options it knows. *)
Theorem parseArgs_fails_on_unknown_option (argv : list jsstring) (e : Error) :
  parseArgs argv = Throw e ->
  exists arg, e = UnknownArgument arg /\ In arg argv /\ isKnownOption arg = false.
Proof. apply (parseArgs_from_unknown_upto (length argv)). lia. Qed.

(** A command line with an option that does not exist. *)
Lemma parseArgs_fails_on_unknown_option_witness :
  exists arg,
    UnknownArgument (lit "--material-title") = UnknownArgument arg
    /\ In arg (argv_basic ++ [lit "--material-title"; lit "Web Exam"])
    /\ isKnownOption arg = false.
Proof.
  apply (parseArgs_fails_on_unknown_option
           (argv_basic ++ [lit "--material-title"; lit "Web Exam"])).
  vm_compute. reflexivity.
Defined.

(** ** [readRosterCsv]: what its rows have in common *)

Lemma or_undefined_not_empty v : or_undefined v <> Some [].
Proof. destruct v as [[|c s]|]; cbn; discriminate. Qed.

Lemma readRosterCsv_forEach_pushes record records index rows seen out :
  readRosterCsv_forEach (record :: records) index rows seen = Ok out ->
  exists row,
    rowValid row
    /\ resultId row = specResultId record
    /\ (resultId row ∉ seen)
    /\ readRosterCsv_forEach records (index + 1) (rows ++ [row]) ({[ resultId row ]} ∪ seen)
       = Ok out.
Proof.
  cbn [readRosterCsv_forEach].
  destruct (trimmed_cell record "candidate_number") as [[|c number]|] eqn:Hnum;
    try discriminate.
  destruct (test_digit (c :: number)) eqn:Hdigit; cbn [negb]; try discriminate.
  destruct (trimmed_cell record "candidate_name") as [[|d name]|]; try discriminate.
  destruct (or_else (trimmed_cell record "result_id") (Some (c :: number)))
    as [[|e rid]|] eqn:Hrid; try discriminate.
  case_bool_decide as Hseen; try discriminate.
  intros Hout. eexists. split; [|split; [|split; [|exact Hout]]].
  - unfold rowValid; cbn. repeat split; try discriminate; try exact Hdigit;
      apply or_undefined_not_empty.
  - cbn. eapply or_else_specResultId; eassumption.
  - exact Hseen.
Qed.

Lemma readRosterCsv_forEach_valid records : forall index rows seen out,
  Forall rowValid rows ->
  NoDup (map resultId rows) ->
  (forall rid, rid ∈ seen <-> rid ∈ map resultId rows) ->
  readRosterCsv_forEach records index rows seen = Ok out ->
  Forall rowValid out /\ NoDup (map resultId out)
  /\ length out = (length rows + length records)%nat.
Proof.
  induction records as [|record records IH]; intros index rows seen out Hvalid Hnodup Hseen Hout.
  - cbn in Hout. injection Hout as <-. cbn. rewrite Nat.add_0_r. auto.
  - apply readRosterCsv_forEach_pushes in Hout as (row & Hrow & _ & Hfresh & Hout).
    apply IH in Hout as (Hv & Hn & Hl).
    + split; [exact Hv|]. split; [exact Hn|]. rewrite Hl, length_app. cbn. lia.
    + apply Forall_app. split; [exact Hvalid | constructor; [exact Hrow | constructor]].
    + rewrite map_app. cbn. apply NoDup_app. split; [exact Hnodup|]. split.
      * intros rid Hin ->%list_elem_of_singleton. apply Hfresh, Hseen, Hin.
      * apply NoDup_singleton.
    + intros rid. rewrite map_app, elem_of_app, elem_of_union, elem_of_singleton, Hseen.
      cbn. rewrite list_elem_of_singleton. tauto.
Qed.

Section RosterInvariants.
Context {W : Type} `{Node W}.

Lemma readRosterCsv_ok (w : W) rosterPath rows :
  readRosterCsv w rosterPath = Ok rows ->
  exists csvText record records,
    readText w (if rosterPath === lit "-" then FromStdin else FromPath rosterPath) = Ok csvText
    /\ parseCsv csvText = Ok (record :: records)
    /\ readRosterCsv_forEach (record :: records) 0 [] ∅ = Ok rows.
Proof.
  unfold readRosterCsv.
  destruct (readText w _) as [csvText|] eqn:Htext; cbn [rbind]; [|discriminate].
  destruct (parseCsv csvText) as [[|record records]|] eqn:Hcsv; cbn [rbind];
    try discriminate.
  intros Hrows. exists csvText, record, records. auto.
Qed.

Lemma readRosterCsv_ok_valid (w : W) rosterPath rows :
  readRosterCsv w rosterPath = Ok rows ->
  rows <> [] /\ Forall rowValid rows /\ NoDup (map resultId rows).
Proof.
  intros (csvText & record & records & _ & _ & Hloop)%readRosterCsv_ok.
  apply readRosterCsv_forEach_valid in Hloop as (Hvalid & Hnodup & Hlen).
  - split; [|split; assumption]. intros ->. discriminate.
  - constructor.
  - constructor.
  - intros rid. cbn. rewrite elem_of_empty, elem_of_nil. tauto.
Qed.

(** X4. The rows that [readRosterCsv] returns are at least one, and every
    one of them has a candidate number with a digit in it, a name and a
    result identifier that are not empty, and no optional field that is
    present and empty. *)
Theorem readRosterCsv_rows_valid (w : W) (rosterPath : jsstring) (rows : list RosterRow) :
  readRosterCsv w rosterPath = Ok rows -> rows <> [] /\ Forall rowValid rows.
Proof. intros (Hne & Hvalid & _)%readRosterCsv_ok_valid. auto. Qed.

(** X5. The result identifiers of the rows that [readRosterCsv] returns are
    pairwise distinct, and so are those of the output plan made of them. *)
Theorem readRosterCsv_result_ids_distinct (w : W) (rosterPath : jsstring)
    (rows : list RosterRow) :
  readRosterCsv w rosterPath = Ok rows ->
  NoDup (map resultId rows)
  /\ forall outputDir, NoDup (map Output.resultId (buildOutputPlan outputDir rows)).
Proof.
  intros (_ & _ & Hnodup)%readRosterCsv_ok_valid. split; [exact Hnodup|].
  intros outputDir. rewrite buildOutputPlan_resultIds. exact Hnodup.
Qed.

End RosterInvariants.

(** The rows of the example roster. *)
Lemma readRosterCsv_rows_valid_witness :
  [row_1001; row_1002] <> [] /\ Forall rowValid [row_1001; row_1002].
Proof.
  apply (readRosterCsv_rows_valid (H:=MemNode) world0 (lit "/exam/roster.csv")).
  vm_compute. reflexivity.
Defined.

(** The result identifiers [2001] and [1002] of the example roster. *)
Lemma readRosterCsv_result_ids_distinct_witness :
  NoDup (map resultId [row_1001; row_1002])
  /\ forall outputDir,
       NoDup (map Output.resultId (buildOutputPlan (W:=MemWorld) outputDir [row_1001; row_1002])).
Proof.
  apply (readRosterCsv_result_ids_distinct (H:=MemNode) world0 (lit "/exam/roster.csv")).
  vm_compute. reflexivity.
Defined.

(** ** [readRosterCsv]: what its errors say *)

Lemma rosterErrorSays_later done record rest e :
  rosterErrorSays ((done ++ [record]) ++ rest) e -> rosterErrorSays (done ++ record :: rest) e.
Proof. rewrite <- app_assoc. exact id. Qed.

Lemma readRosterCsv_forEach_error rest : forall done rows seen e,
  (forall rid, rid ∈ seen <-> rid ∈ map specResultId done) ->
  readRosterCsv_forEach rest (N.of_nat (length done)) rows seen = Throw e ->
  rosterErrorSays (done ++ rest) e.
Proof.
  induction rest as [|record rest IH]; intros done rows seen e Hseen; [discriminate|].
  assert (Hhere : (done ++ record :: rest) !! length done = Some record).
  { rewrite lookup_app_r, Nat.sub_diag; [reflexivity | lia]. }
  cbn [readRosterCsv_forEach].
  destruct (trimmed_cell record "candidate_number") as [[|c number]|] eqn:Hnum.
  1,3: intros [= <-]; exists (length done), record; rewrite Hnum; auto.
  destruct (test_digit (c :: number)) eqn:Hdigit; cbn [negb].
  2: { intros [= <-]. exists (length done), record, (c :: number). auto. }
  destruct (trimmed_cell record "candidate_name") as [[|d name]|] eqn:Hname.
  1,3: intros [= <-]; exists (length done), record; rewrite Hname; auto.
  destruct (or_else (trimmed_cell record "result_id") (Some (c :: number)))
    as [[|x rid]|] eqn:Hrid.
  1,3: intros [= <-]; exact I.
  assert (Hspec := or_else_specResultId record _ _ Hnum Hrid).
  case_bool_decide as Hdup.
  - intros [= <-]. apply Hseen, list_elem_of_fmap in Hdup as (first & Hfirst & Hin).
    apply list_elem_of_lookup in Hin as [i Hi].
    exists i, (length done), first, record.
    split; [apply lookup_lt_Some in Hi; exact Hi|].
    split; [rewrite lookup_app_l; [exact Hi | apply lookup_lt_Some in Hi; exact Hi]|].
    split; [exact Hhere|]. split; [symmetry; exact Hfirst | symmetry; exact Hspec].
  - intros Hthrow. apply rosterErrorSays_later.
    eapply (IH (done ++ [record])).
    2: { rewrite length_app. cbn [length].
         replace (N.of_nat (length done + 1)) with (N.of_nat (length done) + 1) by lia.
         exact Hthrow. }
    intros r. rewrite map_app, elem_of_app, elem_of_union, elem_of_singleton, Hseen.
    cbn. rewrite list_elem_of_singleton, Hspec. tauto.
Qed.

Section RosterErrors.
Context {W : Type} `{Node W}.

(** X6. When [readRosterCsv] fails on the records that [csv-parse] gave it,
    its error tells where. A missing candidate number or name is reported
    with the number of its row, the index of the record plus 2 (one for the
    header, one to count from 1); such a record has that cell missing or
    blank. A candidate number without a digit belongs to some record. A
    duplicate result identifier is the result identifier of two records. *)
Theorem readRosterCsv_error_names_its_rows (w : W) (rosterPath csvText : jsstring)
    (records : list CsvRecord) (e : Error) :
  readText w (if rosterPath === lit "-" then FromStdin else FromPath rosterPath) = Ok csvText ->
  parseCsv csvText = Ok records ->
  readRosterCsv w rosterPath = Throw e ->
  rosterErrorSays records e.
Proof.
  intros Htext Hcsv. unfold readRosterCsv. rewrite Htext. cbn [rbind]. rewrite Hcsv.
  cbn [rbind]. destruct records as [|record records]; [intros [= <-]; exact I|].
  apply (readRosterCsv_forEach_error (record :: records) [] [] ∅).
  intros rid. cbn. rewrite elem_of_empty, elem_of_nil. tauto.
Qed.

End RosterErrors.

(** The roster with a row of separators alone: the error names row 3. *)
Lemma readRosterCsv_error_names_its_rows_witness :
  rosterErrorSays
    (match parseCsv roster_empty_cells_csv with Ok records => records | Throw _ => [] end)
    (MissingCandidateNumber 3).
Proof.
  apply (readRosterCsv_error_names_its_rows (H:=MemNode) world0
           (lit "/exam/roster-commas.csv") roster_empty_cells_csv);
    vm_compute; reflexivity.
Defined.

(** ** [readAssessmentTestItemIds]: what its identifiers have in common *)

Lemma take_of_run (p : N -> bool) (s : jsstring) (j : nat) :
  (j <= length (takeWhile p s))%nat -> forallb p (take j s) = true.
Proof.
  revert j. induction s as [|c s IH]; intros [|j]; cbn; try reflexivity; try lia.
  destruct (p c); cbn; [|lia]. intros Hj. apply IH. lia.
Qed.

Lemma most_le_run a q s : (most a q s <= length (takeWhile (inSet a) s))%nat.
Proof. unfold most. destruct q; lia. Qed.

(** What a group takes is made of characters of its set. *)
Lemma matchPieces_group_taken a q ps prev s caps r :
  matchPieces (PGroup a q :: ps) prev s caps = Some r ->
  exists prev' j,
    (least q <= j <= length s)%nat
    /\ forallb (inSet a) (take j s) = true
    /\ matchPieces ps prev' (drop j s) (caps ++ [take j s]) = Some r.
Proof.
  cbn [matchPieces].
  destruct (Nat.ltb_spec (most a q s) (least q)); [discriminate|].
  intros (j & Hj & Hr)%tryDown_some; [|assumption].
  exists (lastOr prev (take j s)), j.
  pose proof (most_le_length a q s). pose proof (most_le_run a q s).
  split; [lia|]. split; [apply take_of_run; lia | exact Hr].
Qed.

Lemma itemRefPattern_identifier prev s caps rest :
  matchPieces itemRefPattern prev s [] = Some (caps, rest) ->
  exists quote itemId,
    caps = [quote; itemId] /\ itemId <> [] /\ forallb noQuote itemId = true.
Proof.
  unfold itemRefPattern. intros Hm.
  repeat match type of Hm with
         | matchPieces (PGroup _ _ :: _) _ _ _ = _ => fail 1
         | matchPieces (_ :: _) _ _ _ = _ =>
             let prev' := fresh "prev" in
             let s' := fresh "s" in
             apply matchPieces_step in Hm as (prev' & s' & Hm); [|reflexivity]
         end.
  apply matchPieces_group in Hm as (before1 & j1 & _ & Hm).
  apply matchPieces_group_taken in Hm as (before2 & j2 & Hj2 & Hset & Hm).
  apply matchPieces_no_groups in Hm as ->; [|reflexivity].
  eexists _, _. split; [reflexivity|]. split; [apply take_nonempty; exact Hj2|].
  revert Hset. apply forallb_weaken. intros c. unfold inSet, noQuote, memN.
  change (dq ++ lit "'") with [34; 39]. cbn [existsb]. rewrite orb_false_r. exact id.
Qed.

Lemma execAll_identifiers s : forall prev skip,
  Forall (fun caps => exists quote itemId,
            caps = [quote; itemId] /\ itemId <> [] /\ forallb noQuote itemId = true)
         (execAll itemRefPattern prev s skip).
Proof.
  induction s as [|c s IH]; intros prev skip; cbn [execAll]; [constructor|].
  destruct skip as [|skip]; [|apply IH].
  destruct (matchPieces itemRefPattern prev (c :: s) []) as [[caps rest]|] eqn:Hm; [|apply IH].
  constructor; [|apply IH]. eapply itemRefPattern_identifier, Hm.
Qed.

Lemma matchedItemIds_identifiers xml :
  Forall (fun itemId => itemId <> [] /\ forallb noQuote itemId = true) (matchedItemIds xml).
Proof.
  unfold matchedItemIds. apply Forall_map.
  eapply Forall_impl; [apply execAll_identifiers|].
  intros caps (quote & itemId & -> & Hne & Hq). cbn. auto.
Qed.

Lemma checkItemIds_distinct itemIds : forall seen,
  checkItemIds itemIds seen = Ok tt ->
  NoDup itemIds /\ forall itemId, itemId ∈ itemIds -> itemId ∉ seen.
Proof.
  induction itemIds as [|itemId itemIds IH]; intros seen; cbn [checkItemIds].
  - intros _. split; [constructor | intros ? []%elem_of_nil].
  - destruct itemId as [|c itemId]; cbn [truthy negb]; [discriminate|].
    case_bool_decide as Hseen; [discriminate|].
    intros (Hnodup & Hfresh)%IH. split.
    + apply NoDup_cons. split; [|exact Hnodup].
      intros Hin. apply (Hfresh _ Hin). apply elem_of_union. left.
      apply elem_of_singleton. reflexivity.
    + intros x [-> | Hin]%elem_of_cons; [exact Hseen|].
      intros Hx. apply (Hfresh _ Hin). apply elem_of_union. right. exact Hx.
Qed.

Lemma occursIn_false_execAll s : forall prev skip,
  occursIn (lit "<qti-assessment-item-ref") s = false ->
  execAll itemRefPattern prev s skip = [].
Proof.
  induction s as [|c s IH]; intros prev skip; [reflexivity|].
  cbn [occursIn execAll]. intros [Hhere Hlater]%orb_false_elim.
  destruct skip as [|skip]; [|apply IH, Hlater].
  unfold itemRefPattern at 1. cbn [matchPieces].
  unfold startsWith in Hhere.
  destruct (stripPrefix (lit "<qti-assessment-item-ref") (c :: s)); [discriminate|].
  apply IH, Hlater.
Qed.

Section ItemIdentifiers.
Context {W : Type} `{Node W}.

(** X7. The identifiers that [readAssessmentTestItemIds] returns are at
    least one, pairwise distinct, and each of them is not empty and holds no
    quote character of either kind. *)
Theorem readAssessmentTestItemIds_identifiers (w : W) (assessmentTestPath : jsstring)
    (itemIds : list jsstring) :
  readAssessmentTestItemIds w assessmentTestPath = Ok itemIds ->
  itemIds <> [] /\ NoDup itemIds
  /\ Forall (fun itemId => itemId <> [] /\ forallb noQuote itemId = true) itemIds.
Proof.
  unfold readAssessmentTestItemIds.
  destruct (readText w _) as [xml|]; cbn [rbind]; [|discriminate].
  unfold itemIdsOfXml.
  destruct (length (matchedItemIds xml) =? 0)%nat eqn:Hlen; [discriminate|].
  destruct (checkItemIds (matchedItemIds xml) ∅) as [[]|] eqn:Hcheck; cbn [rbind];
    [|discriminate].
  intros [= <-]. split; [|split].
  - intros Hnil. rewrite Hnil in Hlen. discriminate.
  - eapply checkItemIds_distinct, Hcheck.
  - apply matchedItemIds_identifiers.
Qed.

(** X8. A document in which the text [<qti-assessment-item-ref] occurs
    nowhere (the empty document is one) is refused with the error [No
    assessment item refs found]. *)
Theorem readAssessmentTestItemIds_without_refs (w : W) (assessmentTestPath xml : jsstring) :
  readText w (FromPath assessmentTestPath) = Ok xml ->
  occursIn (lit "<qti-assessment-item-ref") xml = false ->
  readAssessmentTestItemIds w assessmentTestPath = Throw NoAssessmentItemRefs.
Proof.
  intros Htext Hnone. unfold readAssessmentTestItemIds. rewrite Htext. cbn [rbind].
  unfold itemIdsOfXml, matchedItemIds. rewrite (occursIn_false_execAll _ _ _ Hnone).
  reflexivity.
Qed.

End ItemIdentifiers.

(** The two identifiers of the example assessment test. *)
Lemma readAssessmentTestItemIds_identifiers_witness :
  [lit "item-001"; lit "item-002"] <> []
  /\ NoDup [lit "item-001"; lit "item-002"]
  /\ Forall (fun itemId => itemId <> [] /\ forallb noQuote itemId = true)
            [lit "item-001"; lit "item-002"].
Proof.
  apply (readAssessmentTestItemIds_identifiers (H:=MemNode) world0 (lit "/exam/test.qti.xml")).
  vm_compute. reflexivity.
Defined.

(** The roster, which is no assessment test, given as one. *)
Lemma readAssessmentTestItemIds_without_refs_witness :
  readAssessmentTestItemIds world0 (lit "/exam/roster.csv") = Throw NoAssessmentItemRefs.
Proof.
  apply (readAssessmentTestItemIds_without_refs (H:=MemNode) world0 (lit "/exam/roster.csv")
           roster_csv); vm_compute; reflexivity.
Defined.

(** ** [ensureWritable] and the worlds that [main] leaves *)

Section Frames.
Context {W : Type} `{Node W}.

Lemma ensureWritable_loop_passes (w : W) (outputs : list OutputPlan) (force : bool) :
  ensureWritable_loop w outputs force = Ok tt
  <-> force = true \/ Forall (fun output => fs_existsSync w (Output.path output) = false) outputs.
Proof.
  induction outputs as [|output outputs IH]; cbn [ensureWritable_loop].
  - split; [intros _; right; constructor | reflexivity].
  - destruct (fs_existsSync w (Output.path output)) eqn:Hthere; cbn [andb].
    + destruct force; cbn [negb].
      * rewrite IH. split; left; reflexivity.
      * split; [discriminate|]. intros [Hf | Hall]; [discriminate|].
        inversion Hall; congruence.
    + rewrite IH. split; (intros [Hf | Hall]; [left; exact Hf | right]).
      * constructor; assumption.
      * inversion Hall; assumption.
Qed.

Lemma ensureWritable_loop_first (w : W) (outputs : list OutputPlan) (force : bool) e :
  ensureWritable_loop w outputs force = Throw e ->
  force = false
  /\ exists before output after,
       outputs = before ++ output :: after
       /\ e = OutputFileExists (Output.path output)
       /\ fs_existsSync w (Output.path output) = true
       /\ Forall (fun o => fs_existsSync w (Output.path o) = false) before.
Proof.
  destruct force.
  { intros Hthrow. assert (Hok : ensureWritable_loop w outputs true = Ok tt).
    { apply ensureWritable_loop_passes. left. reflexivity. }
    congruence. }
  intros Hthrow. split; [reflexivity|]. revert Hthrow.
  induction outputs as [|output outputs IH]; cbn [ensureWritable_loop]; [discriminate|].
  destruct (fs_existsSync w (Output.path output)) eqn:Hthere; cbn [andb negb].
  - intros [= <-]. exists [], output, outputs. repeat split; auto.
  - intros (before & o & after & -> & -> & Ho & Hbefore)%IH.
    exists (output :: before), o, after. repeat split; auto.
Qed.

(** X9. For an output directory that exists, [ensureWritable] changes
    nothing, and it passes exactly when [force] is set or none of the
    planned files exists. When it fails, [force] is off and the error names
    the first planned file, in the order of the plan, that exists. *)
Theorem ensureWritable_passes_iff (w : W) (outputDir : jsstring) (outputs : list OutputPlan)
    (force : bool) :
  fs_existsSync w outputDir = true ->
  fst (ensureWritable outputDir outputs force w) = w
  /\ (snd (ensureWritable outputDir outputs force w) = Ok tt
      <-> force = true
          \/ Forall (fun output => fs_existsSync w (Output.path output) = false) outputs)
  /\ (forall e,
        snd (ensureWritable outputDir outputs force w) = Throw e ->
        force = false
        /\ exists before output after,
             outputs = before ++ output :: after
             /\ e = OutputFileExists (Output.path output)
             /\ fs_existsSync w (Output.path output) = true
             /\ Forall (fun o => fs_existsSync w (Output.path o) = false) before).
Proof.
  intros Hdir. unfold ensureWritable. rewrite Hdir. cbn [negb fst snd].
  split; [reflexivity|]. split.
  - apply ensureWritable_loop_passes.
  - intros e. apply ensureWritable_loop_first.
Qed.

(** An error of [ensureWritable] that is not of the file system leaves the
    world as it was. *)
Lemma ensureWritable_throw_frame outputDir outputs force (w w1 : W) e :
  ensureWritable outputDir outputs force w = (w1, Throw e) ->
  (forall s, e <> FsError s) -> w1 = w.
Proof.
  unfold ensureWritable. destruct (negb (fs_existsSync w outputDir)).
  - destruct (fs_mkdirSync w outputDir) as [w' [s|]]; [|discriminate].
    intros [= <- <-] Hfs. destruct (Hfs s eq_refl).
  - intros [= <- _] _. reflexivity.
Qed.

(** X10. A run that ends with an error that is not of the file system
    leaves the world as it found it: whatever [main] rejects (its
    arguments, the datestamp, the roster, the assessment test, a file in the
    way), it rejects before it writes. *)
Theorem main_failure_writes_nothing (argv : list jsstring) (w : W) (e : Error) :
  snd (main argv w) = Throw e ->
  (forall s, e <> FsError s) ->
  fst (main argv w) = w.
Proof.
  unfold main. destruct (parseArgs argv) as [args|]; [|reflexivity].
  unfold run.
  destruct (help args); [reflexivity|]. destruct (version args); [reflexivity|].
  destruct (_ || _); [reflexivity|]. destruct (_ && _); [reflexivity|].
  destruct (main_testResultDatestamp w args) as [datestamp|]; [|reflexivity].
  destruct (readRosterCsv w _) as [rows|]; [|reflexivity].
  destruct (readAssessmentTestItemIds w _) as [itemIds|]; [|reflexivity].
  destruct (dryRun args).
  { destruct (json args); reflexivity. }
  destruct (ensureWritable _ _ _ w) as [w1 [[]|e1]] eqn:Hensure; cbn [fst snd].
  2: { intros [= ->] Hfs. eapply ensureWritable_throw_frame; eassumption. }
  destruct (writeOutputs _ _ _ _ _ w1) as [w2 [[]|e2]] eqn:Hwrite; cbn [fst snd].
  2: { intros [= ->] Hfs. exfalso. unfold writeOutputs in Hwrite.
       assert (Hkind := writeOutputs_forEach_throws (rowByResult rows)
                 (buildOutputPlan (main_outputDir w args) rows)
                 (default [] (or_else (testResultIdentifier args)
                                (Some (lit "assessment-test"))))
                 datestamp itemIds w1 e).
       assert (Hfinds := writeOutputs_forEach_finds (rowByResult rows)
                 (buildOutputPlan (main_outputDir w args) rows)
                 (default [] (or_else (testResultIdentifier args)
                                (Some (lit "assessment-test"))))
                 datestamp itemIds w1).
       rewrite Hwrite in Hkind, Hfinds. cbn [snd] in Hkind, Hfinds.
       specialize (Hkind eq_refl).
       destruct e; try discriminate;
         [eapply Hfinds; [apply rowByResult_plan | reflexivity]
         | eapply Hfs; reflexivity]. }
  destruct (json args); [discriminate|]. destruct (verbose args); discriminate.
Qed.

(** X11. A dry run leaves the world as it found it, and never ends with
    the error of an output file that exists already: the files in the way
    are not looked for. *)
Theorem main_dry_run_touches_nothing (argv : list jsstring) (args : CliArgs) (w : W) :
  parseArgs argv = Ok args ->
  dryRun args = true ->
  fst (main argv w) = w
  /\ forall path, snd (main argv w) <> Throw (OutputFileExists path).
Proof.
  intros Hargs Hdry. unfold main. rewrite Hargs. unfold run.
  destruct (help args); [split; [reflexivity | discriminate]|].
  destruct (version args); [split; [reflexivity | discriminate]|].
  destruct (_ || _); [split; [reflexivity | discriminate]|].
  destruct (_ && _); [split; [reflexivity | discriminate]|].
  destruct (main_testResultDatestamp w args) as [datestamp|e] eqn:Hstamp.
  2: { split; [reflexivity|]. apply main_testResultDatestamp_throws in Hstamp as ->.
       discriminate. }
  destruct (readRosterCsv w _) as [rows|e] eqn:Hrows.
  2: { split; [reflexivity|]. intros path [= ->].
       apply readRosterCsv_throws in Hrows. discriminate. }
  destruct (readAssessmentTestItemIds w _) as [itemIds|e] eqn:Hitems.
  2: { split; [reflexivity|]. intros path [= ->].
       apply readAssessmentTestItemIds_throws in Hitems. discriminate. }
  rewrite Hdry. destruct (json args); (split; [reflexivity | discriminate]).
Qed.

End Frames.

(** The files of a first run are in the way of a second one, which names
    the first of them. *)
Lemma ensureWritable_passes_iff_witness :
  let outputs := buildOutputPlan (W:=MemWorld) (lit "/exam/qti-results") [row_1001; row_1002] in
  fst (ensureWritable (lit "/exam/qti-results") outputs false world1) = world1
  /\ (snd (ensureWritable (lit "/exam/qti-results") outputs false world1) = Ok tt
      <-> false = true
          \/ Forall (fun output => mem_existsSync world1 (Output.path output) = false) outputs)
  /\ (forall e,
        snd (ensureWritable (lit "/exam/qti-results") outputs false world1) = Throw e ->
        false = false
        /\ exists before output after,
             outputs = before ++ output :: after
             /\ e = OutputFileExists (Output.path output)
             /\ mem_existsSync world1 (Output.path output) = true
             /\ Forall (fun o => mem_existsSync world1 (Output.path o) = false) before).
Proof.
  apply (ensureWritable_passes_iff (H:=MemNode) world1 (lit "/exam/qti-results")).
  vm_compute. reflexivity.
Defined.

(** A run on the roster with a row of separators alone. *)
Lemma main_failure_writes_nothing_witness :
  let argv := [ lit "--roster"; lit "/exam/roster-commas.csv";
                lit "--assessment-test"; lit "/exam/test.qti.xml" ] in
  snd (main argv world0) = Throw (MissingCandidateNumber 3) /\ fst (main argv world0) = world0.
Proof.
  cbv zeta. split; [vm_compute; reflexivity|].
  apply (main_failure_writes_nothing (H:=MemNode) _ world0 (MissingCandidateNumber 3)).
  - vm_compute. reflexivity.
  - discriminate.
Defined.

(** A dry run over the files of a run that wrote them. *)
Lemma main_dry_run_touches_nothing_witness :
  fst (main (argv_basic ++ [lit "--dry-run"]) world1) = world1
  /\ forall path, snd (main (argv_basic ++ [lit "--dry-run"]) world1)
                  <> Throw (OutputFileExists path).
Proof.
  apply (main_dry_run_touches_nothing (H:=MemNode) (argv_basic ++ [lit "--dry-run"])
           (set_flag FDryRun
              (set_assessmentTest (Some (lit "/exam/test.qti.xml"))
                 (set_roster (Some (lit "/exam/roster.csv")) defaultArgs))));
    vm_compute; reflexivity.
Defined.

(** ** [buildAssessmentResultXml]: the document read back *)

Lemma parseAttrs_last_value (name : string) v :
  forallb plainChar v = true ->
  parseAttrs (v ++ dq) (InValue (rev (lit name)) [])
  = [ (lit name, unescapeXml v) ].
Proof.
  intros Hv. change (v ++ dq) with (v ++ 34 :: []).
  rewrite (parseAttrs_value v (rev (lit name)) [] [] Hv), rev_involutive. reflexivity.
Qed.

Lemma elementOfTag_context number :
  elementOfTag (lit "context sourcedId=" ++ dq ++ escapeXml number ++ dq)
  = xmlElement "context" [ ("sourcedId", number) ]%string.
Proof.
  transitivity
    {| tagName := lit "context";
       attributes := parseAttrs (escapeXml number ++ dq) (InValue (rev (lit "sourcedId")) []) |};
    [reflexivity|].
  rewrite (parseAttrs_last_value "sourcedId" _ (escapeXml_plain _)), unescapeXml_escapeXml.
  reflexivity.
Qed.

Lemma elementOfTag_sessionIdentifier (sourceID : string) value :
  In sourceID [ "candidateName"; "candidateId"; "candidateAccount" ]%string ->
  elementOfTag (snd (sessionIdentifierTag sourceID value))
  = sessionIdentifierElement sourceID value.
Proof.
  intros [<- | [<- | [<- | []]]];
    (etransitivity;
     [ exact (f_equal (fun attrs => {| tagName := lit "sessionIdentifier";
                                        attributes := (lit "sourceID", _) :: attrs |})
                (parseAttrs_identifier (escapeXml value) (lit " /") (escapeXml_plain _)))
     | rewrite unescapeXml_escapeXml; reflexivity ]).
Qed.

Lemma headerTags_documentElements row :
  map elementOfTag (map snd (headerTags row))
  = [ xmlElement "?xml" [ ("version", lit "1.0"); ("encoding", lit "UTF-8") ]%string;
      xmlElement "assessmentResult"
        [ ("xmlns", RESULTS_NAMESPACE); ("xmlns:xsi", XSI_NAMESPACE);
          ("xsi:schemaLocation", SCHEMA_LOCATION) ]%string;
      xmlElement "context" [ ("sourcedId", candidateNumber row) ]%string;
      sessionIdentifierElement "candidateName" (candidateName row) ]
    ++ (if truthy (candidateId row)
        then [ sessionIdentifierElement "candidateId" (default [] (candidateId row)) ]
        else [])
    ++ (if truthy (candidateAccount row)
        then [ sessionIdentifierElement "candidateAccount"
                 (default [] (candidateAccount row)) ]
        else [])
    ++ [ xmlElement "/context" [] ].
Proof.
  unfold headerTags. rewrite !map_app.
  change (map elementOfTag (map snd [?a; ?b; ?c; ?d]))
    with [elementOfTag (snd a); elementOfTag (snd b); elementOfTag (snd c);
          elementOfTag (snd d)].
  cbn [snd]. rewrite elementOfTag_context.
  rewrite (elementOfTag_sessionIdentifier "candidateName") by (cbn; auto).
  destruct (truthy (candidateId row)), (truthy (candidateAccount row)); cbn [map app snd];
    rewrite ?(elementOfTag_sessionIdentifier "candidateId") by (cbn; auto);
    rewrite ?(elementOfTag_sessionIdentifier "candidateAccount") by (cbn; auto);
    reflexivity.
Qed.

Lemma itemResultTags_documentElements ds itemIds : forall index,
  map elementOfTag (itemResultTags ds itemIds index)
  = imap (fun i itemId => itemResultElement ds itemId (index + N.of_nat (S i))) itemIds.
Proof.
  induction itemIds as [|itemId itemIds IH]; intros index; [reflexivity|].
  cbn [itemResultTags map imap]. rewrite elementOfTag_itemResult, IH. f_equal.
  apply imap_ext. intros i x _. cbn [compose]. f_equal. lia.
Qed.

(** X12. A reader of the text of a rendered document finds the elements the
    renderer means to write and nothing else: the XML declaration, the root
    with its three name space attributes, the context with the candidate
    number as [sourcedId], the session identifiers (the name, then the
    candidate id and the account when the row has them), the test result
    with its identifier, one item result per item with the status [final],
    and the closing tags. Every value comes back as it was given, whatever
    characters it holds. *)
Theorem buildAssessmentResultXml_reads_back (row : RosterRow) (testResultIdentifier : jsstring)
    (testResultDatestamp : option jsstring) (itemIds : list jsstring) :
  xmlElements (buildAssessmentResultXml row testResultIdentifier testResultDatestamp itemIds)
  = documentElements row testResultIdentifier testResultDatestamp itemIds.
Proof.
  rewrite xmlElements_document, headerTags_documentElements, elementOfTag_testResult,
    itemResultTags_documentElements.
  unfold documentElements. rewrite <- !app_assoc. reflexivity.
Qed.

(** ** [writeOutputs] on the file system in memory *)

Lemma mem_with_files_same (w : MemWorld) : mem_with_files (mw_files w) w = w.
Proof. destruct w. reflexivity. Qed.

(** A write goes through exactly where the file can be written, and then
    stores the text under the path and changes nothing else. *)
Lemma mem_writeFileSync_ok (w w' : MemWorld) (p text : jsstring) :
  mem_writeFileSync w p text = (w', None) ->
  mem_writable w p = true /\ w' = mem_with_files (<[ p := text ]> (mw_files w)) w.
Proof.
  unfold mem_writeFileSync, mem_writable.
  case_bool_decide; [discriminate|]. case_bool_decide; [|discriminate].
  intros [= <-]. auto.
Qed.

Lemma mem_writeFileSync_writable (w : MemWorld) (p text : jsstring) :
  mem_writable w p = true ->
  mem_writeFileSync w p text = (mem_with_files (<[ p := text ]> (mw_files w)) w, None).
Proof.
  unfold mem_writeFileSync, mem_writable.
  case_bool_decide; [discriminate|]. case_bool_decide; [reflexivity | discriminate].
Qed.

Lemma storeOutputs_cons (byResult : gmap jsstring RosterRow) (output : OutputPlan)
    (outputs : list OutputPlan) (tid : jsstring) (ds : option jsstring)
    (itemIds : list jsstring) (files : gmap jsstring jsstring) :
  storeOutputs byResult (output :: outputs) tid ds itemIds files
  = storeOutputs byResult outputs tid ds itemIds
      match byResult !! Output.resultId output with
      | Some row =>
          <[ Output.path output := buildAssessmentResultXml row tid ds itemIds ]> files
      | None => files
      end.
Proof. reflexivity. Qed.

(** A write loop ends well exactly when every planned file can be written
    and has its row, and then it leaves the files of [storeOutputs]. *)
Lemma writeOutputs_forEach_mem (byResult : gmap jsstring RosterRow) (outputs : list OutputPlan)
    (tid : jsstring) (ds : option jsstring) (itemIds : list jsstring) : forall (w w' : MemWorld),
  writeOutputs_forEach byResult outputs tid ds itemIds w = (w', Ok tt) ->
  Forall (fun output =>
            mem_writable w (Output.path output) = true
            /\ is_Some (byResult !! Output.resultId output)) outputs
  /\ w' = mem_with_files (storeOutputs byResult outputs tid ds itemIds (mw_files w)) w.
Proof.
  induction outputs as [|output outputs IH]; intros w w'; cbn [writeOutputs_forEach].
  - intros [= <-]. split; [constructor|]. symmetry. apply mem_with_files_same.
  - destruct (byResult !! Output.resultId output) as [row|] eqn:Hrow; [|discriminate].
    change (fs_writeFileSync w (Output.path output)
              (buildAssessmentResultXml row tid ds itemIds))
      with (mem_writeFileSync w (Output.path output)
              (buildAssessmentResultXml row tid ds itemIds)).
    destruct (mem_writeFileSync w _ _) as [w1 [e|]] eqn:Hwrite; [discriminate|].
    apply mem_writeFileSync_ok in Hwrite as [Hwritable ->].
    intros [Hall ->]%IH. split.
    + constructor; [split; [exact Hwritable | eauto]|]. exact Hall.
    + rewrite storeOutputs_cons, Hrow. reflexivity.
Qed.

Lemma writeOutputs_forEach_writable (byResult : gmap jsstring RosterRow) (outputs : list OutputPlan)
    (tid : jsstring) (ds : option jsstring) (itemIds : list jsstring) : forall (w : MemWorld),
  Forall (fun output =>
            mem_writable w (Output.path output) = true
            /\ is_Some (byResult !! Output.resultId output)) outputs ->
  writeOutputs_forEach byResult outputs tid ds itemIds w
  = (mem_with_files (storeOutputs byResult outputs tid ds itemIds (mw_files w)) w, Ok tt).
Proof.
  induction outputs as [|output outputs IH]; intros w Hall; cbn [writeOutputs_forEach].
  - unfold storeOutputs. cbn [fold_left]. rewrite mem_with_files_same. reflexivity.
  - apply Forall_cons in Hall as [[Hwritable [row Hrow]] Hall]. rewrite Hrow.
    change (fs_writeFileSync w (Output.path output)
              (buildAssessmentResultXml row tid ds itemIds))
      with (mem_writeFileSync w (Output.path output)
              (buildAssessmentResultXml row tid ds itemIds)).
    rewrite (mem_writeFileSync_writable w _ _ Hwritable).
    rewrite (IH (mem_with_files _ w) Hall), storeOutputs_cons, Hrow. reflexivity.
Qed.

(** What [storeOutputs] leaves under a path: the last document stored
    there, if any, and what was there before otherwise. *)
Lemma storeOutputs_lookup (byResult : gmap jsstring RosterRow) (outputs : list OutputPlan)
    (tid : jsstring) (ds : option jsstring) (itemIds : list jsstring) (p : jsstring) :
  exists stored : option jsstring,
    forall files,
      storeOutputs byResult outputs tid ds itemIds files !! p
      = from_option Some (files !! p) stored.
Proof.
  induction outputs as [|output outputs IH] using rev_ind.
  - exists None. reflexivity.
  - destruct IH as [stored IH]. unfold storeOutputs in *.
    destruct (byResult !! Output.resultId output) as [row|] eqn:Hrow.
    + destruct (decide (Output.path output = p)) as [<- | Hne].
      * exists (Some (buildAssessmentResultXml row tid ds itemIds)). intros files.
        rewrite fold_left_app. cbn [fold_left]. rewrite Hrow. apply lookup_insert_eq.
      * exists stored. intros files. rewrite fold_left_app. cbn [fold_left]. rewrite Hrow.
        rewrite lookup_insert_ne by exact Hne. apply IH.
    + exists stored. intros files. rewrite fold_left_app. cbn [fold_left]. rewrite Hrow.
      apply IH.
Qed.

(** Storing the same documents again changes nothing. *)
Lemma storeOutputs_again (byResult : gmap jsstring RosterRow) (outputs : list OutputPlan)
    (tid : jsstring) (ds : option jsstring) (itemIds : list jsstring)
    (files : gmap jsstring jsstring) :
  storeOutputs byResult outputs tid ds itemIds
    (storeOutputs byResult outputs tid ds itemIds files)
  = storeOutputs byResult outputs tid ds itemIds files.
Proof.
  apply map_eq. intros p.
  destruct (storeOutputs_lookup byResult outputs tid ds itemIds p) as [stored Hstored].
  rewrite !Hstored. destruct stored; reflexivity.
Qed.

Lemma storeOutputs_frame (byResult : gmap jsstring RosterRow) (outputs : list OutputPlan)
    (tid : jsstring) (ds : option jsstring) (itemIds : list jsstring) : forall files (p : jsstring),
  p ∉ map Output.path outputs ->
  storeOutputs byResult outputs tid ds itemIds files !! p = files !! p.
Proof.
  induction outputs as [|output outputs IH]; intros files p Hp; [reflexivity|].
  cbn [map] in Hp. apply not_elem_of_cons in Hp as [Hne Hp].
  rewrite storeOutputs_cons, (IH _ p Hp).
  destruct (byResult !! Output.resultId output); [|reflexivity].
  apply lookup_insert_ne. congruence.
Qed.

Lemma storeOutputs_keeps (byResult : gmap jsstring RosterRow) (outputs : list OutputPlan)
    (tid : jsstring) (ds : option jsstring) (itemIds : list jsstring) : forall files (p : jsstring),
  is_Some (files !! p) -> is_Some (storeOutputs byResult outputs tid ds itemIds files !! p).
Proof.
  induction outputs as [|output outputs IH]; intros files p Hp; [exact Hp|].
  rewrite storeOutputs_cons. apply IH. destruct (byResult !! Output.resultId output); [|exact Hp].
  destruct (decide (Output.path output = p)) as [-> | Hne].
  - rewrite lookup_insert_eq. eauto.
  - rewrite lookup_insert_ne; assumption.
Qed.

Lemma storeOutputs_stored (byResult : gmap jsstring RosterRow) (outputs : list OutputPlan)
    (tid : jsstring) (ds : option jsstring) (itemIds : list jsstring) : forall files output,
  output ∈ outputs ->
  is_Some (byResult !! Output.resultId output) ->
  is_Some (storeOutputs byResult outputs tid ds itemIds files !! Output.path output).
Proof.
  induction outputs as [|first outputs IH]; intros files output Hin Hrow.
  - apply elem_of_nil in Hin as [].
  - apply elem_of_cons in Hin as [-> | Hin].
    + destruct Hrow as [row Hrow]. rewrite storeOutputs_cons, Hrow.
      apply storeOutputs_keeps. rewrite lookup_insert_eq. eauto.
    + rewrite storeOutputs_cons. apply (IH _ output Hin Hrow).
Qed.

Lemma storeOutputs_document (byResult : gmap jsstring RosterRow) (outputs : list OutputPlan)
    (tid : jsstring) (ds : option jsstring) (itemIds : list jsstring) : forall files output row,
  NoDup (map Output.path outputs) ->
  output ∈ outputs ->
  byResult !! Output.resultId output = Some row ->
  storeOutputs byResult outputs tid ds itemIds files !! Output.path output
  = Some (buildAssessmentResultXml row tid ds itemIds).
Proof.
  induction outputs as [|first outputs IH]; intros files output row Hnodup Hin Hrow.
  - apply elem_of_nil in Hin as [].
  - cbn [map] in Hnodup. apply NoDup_cons in Hnodup as [Hfresh Hnodup].
    apply elem_of_cons in Hin as [-> | Hin].
    + rewrite storeOutputs_cons, Hrow, (storeOutputs_frame _ _ _ _ _ _ _ Hfresh).
      apply lookup_insert_eq.
    + rewrite storeOutputs_cons. apply (IH _ output row Hnodup Hin Hrow).
Qed.

(** Under distinct result identifiers each row is found under its own. *)
Lemma rowByResult_lookup (rows : list RosterRow) (row : RosterRow) :
  NoDup (map resultId rows) -> row ∈ rows -> rowByResult rows !! resultId row = Some row.
Proof.
  unfold rowByResult.
  assert (Hgen : forall (m : gmap jsstring RosterRow),
            NoDup (map resultId rows) ->
            (row ∈ rows \/ (m !! resultId row = Some row /\ resultId row ∉ map resultId rows)) ->
            fold_left (fun m r => <[ resultId r := r ]> m) rows m !! resultId row = Some row).
  { induction rows as [|r rows IH]; intros m Hnodup Hcase; cbn [fold_left].
    - destruct Hcase as [[]%elem_of_nil | [Hm _]]. exact Hm.
    - cbn [map] in Hnodup. apply NoDup_cons in Hnodup as [Hfresh Hnodup].
      apply IH; [exact Hnodup|].
      destruct Hcase as [[-> | Hin]%elem_of_cons | [Hm Hout]].
      + right. split; [apply lookup_insert_eq | exact Hfresh].
      + left. exact Hin.
      + right. cbn [map] in Hout. apply not_elem_of_cons in Hout as [Hne Hout].
        split; [rewrite lookup_insert_ne; [exact Hm | congruence] | exact Hout]. }
  intros Hnodup Hin. apply Hgen; auto.
Qed.

(** Rows planned onto distinct paths have distinct result identifiers: the
    path of an entry is made of the directory and the result identifier. *)
Lemma buildOutputPlan_paths_resultIds (outputDir : jsstring) (rows : list RosterRow) :
  NoDup (map Output.path (buildOutputPlan (W:=MemWorld) outputDir rows)) ->
  NoDup (map resultId rows).
Proof.
  unfold buildOutputPlan. rewrite map_map. cbn [Output.path].
  change (map (fun row => path_join outputDir
                            (lit "assessmentResult-" ++ resultId row ++ lit ".xml")) rows)
    with (map (fun row => mem_join outputDir (outputFileName (resultId row))) rows).
  rewrite <- (map_map resultId (fun rid => mem_join outputDir (outputFileName rid))).
  apply NoDup_fmap_1.
Qed.

(** X13. On the file system in memory, when the rows are planned onto
    pairwise distinct paths and [writeOutputs] ends well on their plan, the
    file planned for every row holds the document rendered for that row,
    every other file is as it was, and no directory was made or removed. *)
Theorem writeOutputs_stores_each_document (w w' : MemWorld) (outputDir : jsstring)
    (rows : list RosterRow) (testResultIdentifier : jsstring)
    (testResultDatestamp : option jsstring) (itemIds : list jsstring) :
  NoDup (map Output.path (buildOutputPlan (W:=MemWorld) outputDir rows)) ->
  writeOutputs (buildOutputPlan outputDir rows) rows testResultIdentifier testResultDatestamp
    itemIds w = (w', Ok tt) ->
  (forall row, row ∈ rows ->
     mw_files w' !! mem_join outputDir (lit "assessmentResult-" ++ resultId row ++ lit ".xml")
     = Some (buildAssessmentResultXml row testResultIdentifier testResultDatestamp itemIds))
  /\ (forall p, p ∉ map Output.path (buildOutputPlan (W:=MemWorld) outputDir rows) ->
        mw_files w' !! p = mw_files w !! p)
  /\ mw_dirs w' = mw_dirs w.
Proof.
  intros Hnodup Hwrite. unfold writeOutputs in Hwrite.
  apply writeOutputs_forEach_mem in Hwrite as [_ ->]. cbn [mem_with_files mw_files mw_dirs].
  split; [|split; [apply storeOutputs_frame | reflexivity]].
  intros row Hrow.
  apply (storeOutputs_document (rowByResult rows) (buildOutputPlan outputDir rows) _ _ _ _
           {| Output.resultId := resultId row;
              Output.path := mem_join outputDir
                (lit "assessmentResult-" ++ resultId row ++ lit ".xml") |} row Hnodup).
  - change (buildOutputPlan (W:=MemWorld) outputDir rows)
      with (map (fun r => {| Output.resultId := resultId r;
                             Output.path := mem_join outputDir
                               (lit "assessmentResult-" ++ resultId r ++ lit ".xml") |}) rows).
    apply list_elem_of_fmap. exists row. auto.
  - apply rowByResult_lookup; [|exact Hrow].
    apply (buildOutputPlan_paths_resultIds outputDir), Hnodup.
Qed.

(** The two rows of the example roster written into [/exam], a directory
    that is there. *)
Lemma writeOutputs_stores_each_document_witness :
  (forall row, row ∈ [row_1001; row_1002] ->
     mw_files
       (fst (writeOutputs (buildOutputPlan (W:=MemWorld) (lit "/exam") [row_1001; row_1002])
               [row_1001; row_1002] (lit "assessment-test") None [lit "item-001"] world0))
     !! mem_join (lit "/exam") (lit "assessmentResult-" ++ resultId row ++ lit ".xml")
     = Some (buildAssessmentResultXml row (lit "assessment-test") None [lit "item-001"]))
  /\ (forall p, p ∉ map Output.path
                      (buildOutputPlan (W:=MemWorld) (lit "/exam") [row_1001; row_1002]) ->
        mw_files
          (fst (writeOutputs (buildOutputPlan (W:=MemWorld) (lit "/exam") [row_1001; row_1002])
                  [row_1001; row_1002] (lit "assessment-test") None [lit "item-001"] world0))
        !! p = mw_files world0 !! p)
  /\ mw_dirs
       (fst (writeOutputs (buildOutputPlan (W:=MemWorld) (lit "/exam") [row_1001; row_1002])
               [row_1001; row_1002] (lit "assessment-test") None [lit "item-001"] world0))
     = mw_dirs world0.
Proof.
  exact (writeOutputs_stores_each_document world0 _ (lit "/exam") [row_1001; row_1002]
           (lit "assessment-test") None [lit "item-001"]
           ltac:(apply (bool_decide_unpack _); vm_compute; reflexivity)
           ltac:(vm_compute; reflexivity)).
Defined.

(** ** A second run over the files of the first, in memory *)

(** What [ensureWritable] leaves in memory when it ends well: the files as
    they were, and the output directory there. *)
Lemma ensureWritable_mem (outputDir : jsstring) (outputs : list OutputPlan) (force : bool)
    (w w1 : MemWorld) :
  ensureWritable outputDir outputs force w = (w1, Ok tt) ->
  mw_files w1 = mw_files w /\ mw_stdin w1 = mw_stdin w
  /\ mw_cwd w1 = mw_cwd w /\ mw_clock w1 = mw_clock w
  /\ mem_existsSync w1 outputDir = true.
Proof.
  unfold ensureWritable.
  change (fs_existsSync w outputDir) with (mem_existsSync w outputDir).
  change (fs_mkdirSync w outputDir) with (mem_mkdirSync w outputDir).
  destruct (mem_existsSync w outputDir) eqn:Hexists; cbn [negb].
  - intros [= <- _]. auto.
  - unfold mem_mkdirSync. destruct (mem_isFile w outputDir); [discriminate|].
    destruct (existsb _ _); [discriminate|]. intros [= <-]. cbn.
    repeat split. unfold mem_existsSync. cbn.
    rewrite (bool_decide_eq_true_2
               (outputDir ∈ ({[outputDir]} ∪ list_to_set (mem_ancestors (length outputDir)
                                                            outputDir)) ∪ mw_dirs w))
      by set_solver.
    apply orb_true_r.
Qed.

(** The parts of a run that wrote its files. *)
Lemma run_wrote {W : Type} `{Node W} (args : CliArgs) (w w' : W) (printed : list Printed) :
  help args = false -> version args = false -> dryRun args = false ->
  run args w = (w', Ok printed) ->
  exists ds rows itemIds w1,
    (negb (truthy (roster args)) || negb (truthy (assessmentTest args)) = false)
    /\ (bool_decide (outputDir args ≠ None) && negb (truthy (outputDir args)) = false)
    /\ main_testResultDatestamp w args = Ok ds
    /\ readRosterCsv w (default [] (roster args)) = Ok rows
    /\ readAssessmentTestItemIds w (default [] (assessmentTest args)) = Ok itemIds
    /\ ensureWritable (main_outputDir w args) (buildOutputPlan (main_outputDir w args) rows)
         (force args) w = (w1, Ok tt)
    /\ writeOutputs (buildOutputPlan (main_outputDir w args) rows) rows
         (default [] (or_else (testResultIdentifier args) (Some (lit "assessment-test"))))
         ds itemIds w1 = (w', Ok tt)
    /\ printed
       = (if json args then [JsonSummary (lit "write") (main_outputDir w args)
                               (buildOutputPlan (main_outputDir w args) rows)]
          else if verbose args then
            logInfo (LogWrote (length (buildOutputPlan (main_outputDir w args) rows))
                       (main_outputDir w args)) args
          else []).
Proof.
  intros Hhelp Hversion Hdry. unfold run. rewrite Hhelp, Hversion, Hdry.
  destruct (negb (truthy (roster args)) || negb (truthy (assessmentTest args)));
    [discriminate|].
  destruct (bool_decide (outputDir args ≠ None) && negb (truthy (outputDir args)));
    [discriminate|].
  destruct (main_testResultDatestamp w args) as [ds|]; [|discriminate].
  destruct (readRosterCsv w _) as [rows|]; [|discriminate].
  destruct (readAssessmentTestItemIds w _) as [itemIds|]; [|discriminate].
  cbv zeta.
  destruct (ensureWritable _ _ _ w) as [w1 [[]|]] eqn:Hensure; [|discriminate].
  destruct (writeOutputs _ _ _ _ _ w1) as [w2 [[]|]] eqn:Hwrite; [|discriminate].
  intros Hresult. exists ds, rows, itemIds, w1.
  assert (w2 = w') as -> by (destruct (json args), (verbose args); congruence).
  repeat split; try reflexivity; try assumption.
  destruct (json args), (verbose args); congruence.
Qed.

(** A run that does not write leaves the world as it found it. *)
Lemma run_without_writing {W : Type} `{Node W} (args : CliArgs) (w : W) :
  help args = true \/ version args = true \/ dryRun args = true -> fst (run args w) = w.
Proof.
  intros Hmode. unfold run.
  destruct (help args); [reflexivity|]. destruct (version args); [reflexivity|].
  destruct (dryRun args); [|destruct Hmode as [|[|]]; discriminate].
  destruct (_ || _); [reflexivity|]. destruct (_ && _); [reflexivity|].
  destruct (main_testResultDatestamp w args); [|reflexivity].
  destruct (readRosterCsv w _); [|reflexivity].
  destruct (readAssessmentTestItemIds w _); [|reflexivity].
  cbv zeta. destruct (json args); reflexivity.
Qed.

(** The clock is read for the datestamp [now] and for nothing else. *)
Lemma main_testResultDatestamp_not_now {W : Type} `{Node W} (args : CliArgs) (w1 w2 : W) :
  testResultDatestamp args <> Some (lit "now") ->
  main_testResultDatestamp w1 args = main_testResultDatestamp w2 args.
Proof.
  intros Hnow. unfold main_testResultDatestamp, resolveEndAt.
  destruct (testResultDatestamp args) as [[|c raw]|]; try reflexivity.
  cbn [truthy]. unfold streq. case_bool_decide as Heq; [|reflexivity].
  exfalso. apply Hnow. f_equal. exact Heq.
Qed.

Lemma main_testResultDatestamp_mem (w w' : MemWorld) (args : CliArgs) :
  mw_clock w' = mw_clock w ->
  main_testResultDatestamp w' args = main_testResultDatestamp w args.
Proof.
  intros Hclock. unfold main_testResultDatestamp, resolveEndAt.
  change (Date_now w') with (mw_clock w'). change (Date_now w) with (mw_clock w).
  rewrite Hclock. reflexivity.
Qed.

Lemma main_outputDir_mem (w w' : MemWorld) (args : CliArgs) :
  mw_cwd w' = mw_cwd w -> main_outputDir w' args = main_outputDir w args.
Proof.
  intros Hcwd. unfold main_outputDir, resolveDefaultOutputDir.
  assert (Hresolve : forall p, path_resolve w' p = path_resolve w p).
  { intros p. change (mem_resolve w' p = mem_resolve w p). unfold mem_resolve.
    rewrite Hcwd. reflexivity. }
  rewrite !Hresolve. reflexivity.
Qed.

(** What the world holds after a run that wrote its files. *)
Lemma run_wrote_mem (args : CliArgs) (w w' : MemWorld) (printed : list Printed) :
  help args = false -> version args = false -> dryRun args = false ->
  run args w = (w', Ok printed) ->
  exists ds row rows itemIds before,
    main_testResultDatestamp w args = Ok ds
    /\ readRosterCsv w (default [] (roster args)) = Ok (row :: rows)
    /\ readAssessmentTestItemIds w (default [] (assessmentTest args)) = Ok itemIds
    /\ mw_cwd w' = mw_cwd w /\ mw_clock w' = mw_clock w
    /\ mem_existsSync w' (main_outputDir w args) = true
    /\ Forall (fun output =>
                 mem_writable w' (Output.path output) = true
                 /\ is_Some (rowByResult (row :: rows) !! Output.resultId output))
         (buildOutputPlan (main_outputDir w args) (row :: rows))
    /\ mw_files w'
       = storeOutputs (rowByResult (row :: rows))
           (buildOutputPlan (main_outputDir w args) (row :: rows))
           (default [] (or_else (testResultIdentifier args) (Some (lit "assessment-test"))))
           ds itemIds before.
Proof.
  intros Hhelp Hversion Hdry Hrun.
  destruct (run_wrote args w w' printed Hhelp Hversion Hdry Hrun)
    as (ds & rows & itemIds & w1 & _ & _ & Hstamp & Hroster & Hitems & Hensure & Hwrite & _).
  destruct (readRosterCsv_ok_valid w _ rows Hroster) as (Hne & _ & _).
  destruct rows as [|row rows]; [congruence|].
  apply ensureWritable_mem in Hensure as (Hfiles1 & _ & Hcwd1 & Hclock1 & Hdir1).
  unfold writeOutputs in Hwrite.
  apply writeOutputs_forEach_mem in Hwrite as [Hall ->].
  exists ds, row, rows, itemIds, (mw_files w1).
  split; [exact Hstamp|]. split; [exact Hroster|]. split; [exact Hitems|].
  split; [exact Hcwd1|]. split; [exact Hclock1|]. split; [|split; [exact Hall | reflexivity]].
  unfold mem_existsSync in *. cbn [mem_with_files mw_files mw_dirs].
  apply orb_true_iff in Hdir1 as [Hfile | Hdir]; apply orb_true_iff; [left | right; exact Hdir].
  apply bool_decide_eq_true. apply storeOutputs_keeps.
  apply bool_decide_eq_true in Hfile. exact Hfile.
Qed.

(** X14. On the file system in memory, after a run that wrote its files and
    left its roster and its assessment test reading as before, the same
    command line without [--force] fails on the file of the first roster row
    and leaves every file as the first run left it. *)
Theorem main_again_without_force (argv : list jsstring) (args : CliArgs) (w w' : MemWorld)
    (printed : list Printed) :
  parseArgs argv = Ok args ->
  help args = false -> version args = false -> dryRun args = false -> force args = false ->
  main argv w = (w', Ok printed) ->
  readRosterCsv w' (default [] (roster args)) = readRosterCsv w (default [] (roster args)) ->
  readAssessmentTestItemIds w' (default [] (assessmentTest args))
  = readAssessmentTestItemIds w (default [] (assessmentTest args)) ->
  exists row rows,
    readRosterCsv w (default [] (roster args)) = Ok (row :: rows)
    /\ main argv w'
       = (w', Throw (OutputFileExists
                       (mem_join (main_outputDir w args)
                          (lit "assessmentResult-" ++ resultId row ++ lit ".xml")))).
Proof.
  intros Hparse Hhelp Hversion Hdry Hforce Hmain Hsame_roster Hsame_items.
  unfold main in *. rewrite Hparse in *.
  destruct (run_wrote args w w' printed Hhelp Hversion Hdry Hmain)
    as (_ & _ & _ & _ & Hrequired & Houtput & _).
  destruct (run_wrote_mem args w w' printed Hhelp Hversion Hdry Hmain)
    as (ds & row & rows & itemIds & before & Hstamp & Hroster & Hitems & Hcwd & Hclock
        & Hexists & Hall & Hfiles).
  exists row, rows. split; [exact Hroster|].
  unfold run. rewrite Hhelp, Hversion, Hdry, Hrequired, Houtput,
    (main_testResultDatestamp_mem w w' args Hclock), Hstamp, Hsame_roster,
    Hroster, Hsame_items, Hitems, (main_outputDir_mem w w' args Hcwd), Hforce.
  cbv zeta. unfold ensureWritable.
  change (fs_existsSync w' (main_outputDir w args))
    with (mem_existsSync w' (main_outputDir w args)).
  rewrite Hexists. cbn [negb buildOutputPlan map ensureWritable_loop Output.path].
  change (fs_existsSync w' ?p) with (mem_existsSync w' p).
  change (path_join ?a ?b) with (mem_join a b).
  apply Forall_cons in Hall as [[_ Hfound] _].
  assert (Hthere : is_Some (mw_files w' !! mem_join (main_outputDir w args)
                              (lit "assessmentResult-" ++ resultId row ++ lit ".xml"))).
  { rewrite Hfiles.
    apply (storeOutputs_stored _ _ _ _ _ before
             {| Output.resultId := resultId row;
                Output.path := mem_join (main_outputDir w args)
                  (lit "assessmentResult-" ++ resultId row ++ lit ".xml") |});
      [left | exact Hfound]. }
  unfold mem_existsSync at 1. rewrite (bool_decide_eq_true_2 _ Hthere). reflexivity.
Qed.

(** The example run, run once more. *)
Lemma main_again_without_force_witness :
  exists row rows,
    readRosterCsv world0 (lit "/exam/roster.csv") = Ok (row :: rows)
    /\ main argv_basic world1
       = (world1, Throw (OutputFileExists
                           (mem_join (lit "/exam/qti-results")
                              (lit "assessmentResult-" ++ resultId row ++ lit ".xml")))).
Proof.
  exact (main_again_without_force argv_basic
           (set_assessmentTest (Some (lit "/exam/test.qti.xml"))
              (set_roster (Some (lit "/exam/roster.csv")) defaultArgs))
           world0 world1 []
           ltac:(vm_compute; reflexivity) ltac:(vm_compute; reflexivity)
           ltac:(vm_compute; reflexivity) ltac:(vm_compute; reflexivity)
           ltac:(vm_compute; reflexivity) ltac:(vm_compute; reflexivity)
           ltac:(vm_compute; reflexivity) ltac:(vm_compute; reflexivity)).
Defined.

(** X15. On the file system in memory, take a run with [--force], with a
    datestamp other than [now] or none, that ended well and left its roster
    and its assessment test reading as before. The same command line, run
    again at any later time, ends well, prints the same and leaves every
    file and directory exactly as the first run left it. *)
Theorem main_again_with_force (argv : list jsstring) (args : CliArgs) (w w' : MemWorld)
    (printed : list Printed) (later : UtcTime) :
  parseArgs argv = Ok args ->
  force args = true ->
  testResultDatestamp args <> Some (lit "now") ->
  main argv w = (w', Ok printed) ->
  readRosterCsv w' (default [] (roster args)) = readRosterCsv w (default [] (roster args)) ->
  readAssessmentTestItemIds w' (default [] (assessmentTest args))
  = readAssessmentTestItemIds w (default [] (assessmentTest args)) ->
  main argv (mem_at later w') = (mem_at later w', Ok printed).
Proof.
  intros Hparse Hforce Hnow Hmain Hsame_roster Hsame_items.
  unfold main in *. rewrite Hparse in *.
  assert (Hreads : forall p,
            readRosterCsv (mem_at later w') p = readRosterCsv w' p
            /\ readAssessmentTestItemIds (mem_at later w') p = readAssessmentTestItemIds w' p)
    by (intros p; split; reflexivity).
  assert (Hdir : main_outputDir (mem_at later w') args = main_outputDir w' args)
    by reflexivity.
  destruct (help args) eqn:Hhelp;
    [|destruct (version args) eqn:Hversion; [|destruct (dryRun args) eqn:Hdry]].
  1-3: assert (w' = w) as ->
         by (rewrite <- (run_without_writing args w), Hmain; [reflexivity | auto]);
       revert Hmain; unfold run; rewrite ?Hhelp, ?Hversion, ?Hdry, ?Hdir,
         ?(main_testResultDatestamp_not_now args (mem_at later w) w Hnow),
         ?(proj1 (Hreads _)), ?(proj2 (Hreads _));
       repeat match goal with
              | |- context [if ?b then _ else _] => destruct b
              | |- context [match ?r with Ok _ => _ | Throw _ => _ end] => destruct r
              end;
       intros [= <-]; reflexivity.
  destruct (run_wrote args w w' printed Hhelp Hversion Hdry Hmain)
    as (_ & rows0 & _ & _ & Hrequired & Houtput & _ & Hroster0 & _ & _ & _ & Hprinted).
  destruct (run_wrote_mem args w w' printed Hhelp Hversion Hdry Hmain)
    as (ds & row & rows & itemIds & before & Hstamp & Hroster & Hitems & Hcwd & Hclock
        & Hexists & Hall & Hfiles).
  assert (rows0 = row :: rows) as -> by congruence.
  unfold run. rewrite Hhelp, Hversion, Hdry, Hrequired, Houtput,
    (main_testResultDatestamp_not_now args (mem_at later w') w Hnow), Hstamp,
    (proj1 (Hreads _)), Hsame_roster, Hroster, (proj2 (Hreads _)), Hsame_items, Hitems,
    Hdir, (main_outputDir_mem w w' args Hcwd), Hforce.
  cbv zeta. unfold ensureWritable.
  change (fs_existsSync (mem_at later w') (main_outputDir w args))
    with (mem_existsSync w' (main_outputDir w args)).
  rewrite Hexists. cbn [negb].
  rewrite (proj2 (ensureWritable_loop_passes (mem_at later w') _ true))
    by (left; reflexivity).
  assert (Hagain :
    writeOutputs (buildOutputPlan (main_outputDir w args) (row :: rows)) (row :: rows)
      (default [] (or_else (testResultIdentifier args) (Some (lit "assessment-test"))))
      ds itemIds (mem_at later w')
    = (mem_at later w', Ok tt)).
  { unfold writeOutputs.
    rewrite (writeOutputs_forEach_writable _ _ _ _ _ (mem_at later w') Hall).
    f_equal. change (mw_files (mem_at later w')) with (mw_files w').
    transitivity (mem_with_files (mw_files w') (mem_at later w'));
      [|destruct w'; reflexivity].
    f_equal. rewrite Hfiles. apply storeOutputs_again. }
  rewrite Hagain, Hprinted.
  destruct (json args), (verbose args); reflexivity.
Qed.

(** The example run with [--force] and the datestamp of the test suite, run
    once more an hour later. *)
Lemma main_again_with_force_witness :
  main (argv_datestamp ++ [lit "--force"])
    (mem_at {| utc_year := 2026; utc_month := 1; utc_day := 27; utc_hours := 2;
               utc_minutes := 0; utc_seconds := 0; utc_milliseconds := 5 |}
       (fst (main (argv_datestamp ++ [lit "--force"]) world0)))
  = (mem_at {| utc_year := 2026; utc_month := 1; utc_day := 27; utc_hours := 2;
               utc_minutes := 0; utc_seconds := 0; utc_milliseconds := 5 |}
       (fst (main (argv_datestamp ++ [lit "--force"]) world0)), Ok []).
Proof.
  exact (main_again_with_force (argv_datestamp ++ [lit "--force"])
           (set_flag FForce
              (set_testResultDatestamp (Some (lit "2026-01-27T10:00:00+09:00"))
                 (set_assessmentTest (Some (lit "/exam/test.qti.xml"))
                    (set_roster (Some (lit "/exam/roster.csv")) defaultArgs))))
           world0 (fst (main (argv_datestamp ++ [lit "--force"]) world0)) [] _
           ltac:(vm_compute; reflexivity) ltac:(vm_compute; reflexivity)
           ltac:(discriminate) ltac:(vm_compute; reflexivity)
           ltac:(vm_compute; reflexivity) ltac:(vm_compute; reflexivity)).
Defined.

(** ** The file names of the plan, for result identifiers without a slash *)

Lemma splitSlash_noSlash (s : jsstring) : noSlash s = true -> splitSlash s = [s].
Proof.
  unfold noSlash. induction s as [|c s IH]; [reflexivity|].
  cbn [forallb splitSlash]. intros [Hc Hs]%andb_prop.
  apply negb_true_iff in Hc. rewrite Hc, (IH Hs). reflexivity.
Qed.

Lemma outputFileName_noSlash (rid : jsstring) :
  noSlash rid = true -> noSlash (outputFileName rid) = true.
Proof.
  unfold noSlash, outputFileName. intros Hrid. rewrite !forallb_app, Hrid. reflexivity.
Qed.

Lemma outputFileName_inj (a b : jsstring) : outputFileName a = outputFileName b -> a = b.
Proof.
  unfold outputFileName. intros Heq%app_inv_head. apply app_inv_tail in Heq. exact Heq.
Qed.

(** A segment that is a name is kept after the segments before it. *)
Lemma normalizeSegments_name (allowAboveRoot : bool) (segs : list jsstring) (rid : jsstring) :
  normalizeSegments allowAboveRoot (segs ++ [outputFileName rid]) []
  = normalizeSegments allowAboveRoot segs [] ++ [outputFileName rid].
Proof.
  rewrite normalizeSegments_app. cbn [normalizeSegments].
  assert (Hne : forall other, head other <> Some 97 -> (outputFileName rid === other) = false).
  { intros other Hother. apply bool_decide_eq_false. intros <-. apply Hother. reflexivity. }
  rewrite !Hne by discriminate. cbn [orb rev]. rewrite rev_involutive. reflexivity.
Qed.

Lemma join_snoc (sep : jsstring) (lines : list jsstring) (line : jsstring) :
  join sep (lines ++ [line])
  = match lines with
    | [] => line
    | _ :: _ => join sep lines ++ sep ++ line
    end.
Proof.
  induction lines as [|first lines IH]; [reflexivity|].
  cbn [app join]. destruct lines as [|second lines]; [reflexivity|].
  cbn [app] in *. rewrite IH, <- !app_assoc. reflexivity.
Qed.

Lemma posix_normalize_cons (c : N) (path : jsstring) :
  normalizeString (c :: path) (negb (c =? 47)) <> [] ->
  posix_normalize (c :: path)
  = (if c =? 47 then lit "/" else [])
    ++ normalizeString (c :: path) (negb (c =? 47))
    ++ (if from_option (N.eqb 47) false (last (c :: path)) then lit "/" else []).
Proof.
  intros Hkept. unfold posix_normalize.
  destruct (normalizeString (c :: path) (negb (c =? 47))); [congruence | reflexivity].
Qed.

(** What [path.join] makes of a directory and such a name ends with the
    name, after nothing or after a slash. *)
Lemma mem_join_ends_with_name (outputDir rid : jsstring) :
  noSlash rid = true ->
  mem_join outputDir (outputFileName rid) = outputFileName rid
  \/ exists before, mem_join outputDir (outputFileName rid)
                    = before ++ 47 :: outputFileName rid.
Proof.
  intros Hrid. rewrite mem_join_name by discriminate.
  set (path := match outputDir with
               | [] => outputFileName rid
               | _ :: _ => outputDir ++ 47 :: outputFileName rid
               end).
  assert (Hsplit : exists segs, splitSlash path = segs ++ [outputFileName rid]).
  { subst path. destruct outputDir as [|c outputDir].
    - exists []. apply splitSlash_noSlash, outputFileName_noSlash, Hrid.
    - exists (splitSlash (c :: outputDir)).
      rewrite splitSlash_app_slash, (splitSlash_noSlash (outputFileName rid)); [reflexivity|].
      apply outputFileName_noSlash, Hrid. }
  assert (Hlast : last path = Some 108).
  { subst path. destruct outputDir as [|c outputDir].
    - apply (outputFileName_last []).
    - rewrite (cons_middle 47 (c :: outputDir)), (app_assoc (c :: outputDir) [47]).
      apply outputFileName_last. }
  assert (Hpath : path <> []) by (subst path; destruct outputDir; discriminate).
  destruct Hsplit as [segs Hsplit]. clearbody path.
  destruct path as [|c path]; [congruence|].
  assert (Hkept : exists before,
            normalizeString (c :: path) (negb (c =? 47)) = before ++ outputFileName rid
            /\ (before = [] \/ exists Hbefore, before = Hbefore ++ [47])).
  { unfold normalizeString. rewrite Hsplit, normalizeSegments_name, join_snoc.
    destruct (normalizeSegments (negb (c =? 47)) segs []) as [|seg kept].
    - exists []. split; [reflexivity | left; reflexivity].
    - exists (join (lit "/") (seg :: kept) ++ [47]). rewrite <- app_assoc.
      split; [reflexivity | right; eauto]. }
  destruct Hkept as (before & Hkept & Hbefore).
  rewrite posix_normalize_cons, Hkept, Hlast.
  2: { rewrite Hkept. intros [_ Hnil]%app_eq_nil. discriminate Hnil. }
  cbn [from_option]. change (47 =? 108) with false. rewrite app_nil_r.
  destruct Hbefore as [-> | [Hbefore ->]].
  - destruct (c =? 47); [right; exists []; reflexivity | left; reflexivity].
  - right. exists ((if c =? 47 then lit "/" else []) ++ Hbefore).
    rewrite <- !app_assoc. reflexivity.
Qed.

(** The last segment of such a path is the name. *)
Lemma mem_join_file_name (outputDir rid : jsstring) :
  noSlash rid = true ->
  last (splitSlash (mem_join outputDir (outputFileName rid))) = Some (outputFileName rid).
Proof.
  intros Hrid.
  assert (Hname := splitSlash_noSlash _ (outputFileName_noSlash rid Hrid)).
  destruct (mem_join_ends_with_name outputDir rid Hrid) as [-> | [before ->]].
  - rewrite Hname. reflexivity.
  - rewrite splitSlash_app_slash, Hname, last_snoc. reflexivity.
Qed.

(** X16. For result identifiers that hold no slash, the plan is as the
    documentation has it: the last segment of the path planned for a row,
    its file name, is exactly [assessmentResult-<resultId>.xml], whatever
    the output directory, and rows of distinct result identifiers are
    planned onto distinct paths. *)
Theorem buildOutputPlan_file_names (outputDir : jsstring) (rows : list RosterRow) :
  Forall (fun row => noSlash (resultId row) = true) rows ->
  Forall2 (fun row output =>
             Output.resultId output = resultId row
             /\ last (splitSlash (Output.path output)) = Some (outputFileName (resultId row)))
          rows (buildOutputPlan (W:=MemWorld) outputDir rows)
  /\ (NoDup (map resultId rows) ->
      NoDup (map Output.path (buildOutputPlan (W:=MemWorld) outputDir rows))).
Proof.
  intros Hrows. split.
  - induction Hrows as [|row rows Hrow Hrows IH]; cbn [buildOutputPlan map]; constructor.
    + split; [reflexivity|]. exact (mem_join_file_name outputDir (resultId row) Hrow).
    + exact IH.
  - intros Hnodup.
    change (buildOutputPlan (W:=MemWorld) outputDir rows)
      with (map (fun row => {| Output.resultId := resultId row;
                               Output.path := mem_join outputDir
                                 (outputFileName (resultId row)) |}) rows).
    rewrite map_map. cbn [Output.path].
    rewrite <- (map_map resultId (fun rid => mem_join outputDir (outputFileName rid))).
    apply NoDup_fmap_2_strong; [|exact Hnodup].
    intros a b Ha Hb Heq.
    assert (Hslash : forall rid, rid ∈ map resultId rows -> noSlash rid = true).
    { intros rid (row & -> & Hin)%list_elem_of_fmap.
      rewrite Forall_forall in Hrows. apply Hrows, Hin. }
    apply outputFileName_inj.
    assert (Hlast := mem_join_file_name outputDir a (Hslash a Ha)).
    rewrite Heq, (mem_join_file_name outputDir b (Hslash b Hb)) in Hlast.
    congruence.
Qed.

(** The plan of the example roster in [/out]. *)
Lemma buildOutputPlan_file_names_witness :
  Forall2 (fun row output =>
             Output.resultId output = resultId row
             /\ last (splitSlash (Output.path output)) = Some (outputFileName (resultId row)))
          [row_1001; row_1002] (buildOutputPlan (W:=MemWorld) (lit "/out") [row_1001; row_1002])
  /\ (NoDup (map resultId [row_1001; row_1002]) ->
      NoDup (map Output.path
               (buildOutputPlan (W:=MemWorld) (lit "/out") [row_1001; row_1002]))).
Proof.
  apply (buildOutputPlan_file_names (lit "/out") [row_1001; row_1002]).
  repeat constructor.
Defined.
